(** * RpcFrontend: the request pipeline of [src/node/rpc/frontend.h]

    A shallow embedding of [ccf::RpcFrontend].  The frontend owns a few
    mutable fields (verifier cache, open flag, consensus and history handles,
    transaction counter) and talks to collaborators that live outside the
    class: the KV store and its transactions, the consensus, the history, the
    endpoint registry, the forwarder, the TLS verifier factory and the JWT
    verifier.  Those collaborators are the fields of [Env]; the mutable
    objects the class shares with them are threaded explicitly in [St]. *)

From stdpp Require Import gmap strings list.
From Stdlib Require Import ZArith DecimalString Lia.

Open Scope Z_scope.

(** ** Data *)

Abbreviation CallerId := N (only parsing).
Abbreviation NodeId := N (only parsing).
Abbreviation Cert := (list Byte.byte) (only parsing).
Abbreviation ConsensusPtr := N (only parsing).
Abbreviation HistoryPtr := N (only parsing).

(** [tls::Pem]; [raw()] yields the bytes stored in [caller_cert]. *)
Record Pem := { raw : list Byte.byte }.

Inductive ConsensusType := CFT | BFT.

Inductive ForwardingRequired := Never | Sometimes | Always.

(** [kv::CommitSuccess] *)
Inductive CommitSuccess := OK | CONFLICT | NO_REPLICATE.

(** The exception classes the executor distinguishes (lines 522-561).  The
    classes are disjoint, so the order of the [catch] clauses is immaterial. *)
Inductive Exn :=
| CompactedVersionConflict (what : string)
| RpcException (status : Z) (what : string)
| JsonParseError (pointer what : string)
| KvSerialiserException (what : string)
| StdException (what : string).

Record SignedReq := {
  sig : list Byte.byte;
  req : list Byte.byte;
  md : N;
  key_id : string }.

Record Session := {
  caller_cert : list Byte.byte;
  original_caller : option N;
  is_forwarding : bool;
  client_session_id : N }.

(** The response half of [enclave::RpcContext]; [serialise_response] is the
    snapshot of these fields. *)
Record Response := {
  status : Z;
  headers : gmap string string;
  body : string;
  seqno : option Z;
  view : option Z;
  global_commit : option Z }.

Record RpcContext := {
  session : Session;
  method : string;
  signed_request : option SignedReq;
  request_headers : list (string * string);
  request_index : N;
  serialised_request : list Byte.byte;
  frame_format : N;
  execute_on_node : bool;
  is_create_request : bool;
  apply_writes : bool;
  response : Response }.

Record EndpointProperties := {
  require_client_identity : bool;
  require_client_signature : bool;
  require_jwt_authentication : bool;
  execute_locally : bool;
  forwarding_required : ForwardingRequired }.

(** An endpoint is keyed by method and verb; the key selects its metrics. *)
Record EndpointDefinition := {
  dispatch : string * string;
  properties : EndpointProperties }.

(** [EndpointRegistry::Metrics] *)
Record Metrics := { calls : N; errors : N; failures : N }.

Record NodeInfo := { pubhost : string; rpcport : string }.

Inductive ServiceStatus := OPENING | OPEN | CLOSED.

Record ServiceInfo := { service_cert : Pem; service_status : ServiceStatus }.

Record JwtToken := { kid : string; jwt_header : string; jwt_payload : string }.

Record Jwt := { key_issuer : string; header : string; payload : string }.

Definition RequestID : Type := N * N * N.

(** What a facade call hands back: a serialised response, [std::nullopt]
    (the request is pending), the process aborted, or an exception that no
    handler of the function catches. *)
Inductive Outcome :=
| Responded (r : Response)
| Pending
| Aborted
| Uncaught (what : string).

(** Ghost trace: one event per call that leaves the class. *)
Inductive Event :=
| EvSetConsensus (c : option N)
| EvSetHistory (h : option N)
| EvInitHandlers
| EvFindEndpoint
| EvGetAllowedVerbs
| EvIdentityCheck (cid : N)
| EvVerifyClientSignature (cert : list Byte.byte) (cid : N)
| EvAttempt
| EvPreExec
| EvRecordClientSignature (cid : N)
| EvExecuteEndpoint (cid : N)
| EvCommit
| EvTxReset
| EvTryEmitSignature
| EvAddRequest (cid : N)
| EvSetReqId (reqid : N * N * N)
| EvForwardCommand (primary : N) (cid : N) (cert : list Byte.byte)
| EvAbort.

#[global] Instance byte_eq_dec : EqDecision Byte.byte.
Proof. intros x y. destruct (Byte.byte_eq_dec x y); [left | right]; done. Defined.
#[global] Instance Pem_eq_dec : EqDecision Pem.
Proof. solve_decision. Defined.
#[global] Instance ConsensusType_eq_dec : EqDecision ConsensusType.
Proof. solve_decision. Defined.
#[global] Instance ServiceStatus_eq_dec : EqDecision ServiceStatus.
Proof. solve_decision. Defined.

(** ** Collaborators *)

Record Env := {
  World : Type;
  Tx : Type;
  Verifier : Type;
  (* constants declared in headers outside this class *)
  INVALID_ID : N;
  NoNode : N;
  NoVersion : Z;
  required_signature_headers : list string;
  (* kv::Store, kv::Tx and the tables read through views *)
  create_tx : World → Tx;
  get_consensus : World → option N;
  get_history : World → option N;
  commit : Tx → World → (Exn + CommitSuccess) * Tx * World;
  commit_version : Tx → Z;
  commit_term : Tx → Z;
  get_read_version : Tx → Z;
  reset : Tx → Tx;
  put_client_signature : string → N → SignedReq → Tx → option Exn * Tx;
  nodes_get : Tx → N → option NodeInfo;
  service_get_globally_committed : Tx → option ServiceInfo;
  jwt_keys_get : Tx → string → option (list Byte.byte);
  jwt_key_issuer_get : Tx → string → option string;
  (* kv::Consensus *)
  consensus_primary : N → World → N;
  consensus_active_nodes : N → World → list N;
  consensus_is_primary : N → World → bool;
  consensus_type : N → World → ConsensusType;
  consensus_get_committed_seqno : N → World → Z;
  (* kv::TxHistory *)
  try_emit_signature : N → World → World;
  add_request :
    N → RequestID → N → list Byte.byte → list Byte.byte → N → World →
    bool * World;
  (* EndpointRegistry *)
  find_endpoint : Tx → RpcContext → World → option EndpointDefinition;
  get_allowed_verbs : RpcContext → World → list string;
  get_caller_id : Tx → list Byte.byte → World → N;
  get_caller_id_by_digest : Tx → string → World → N;
  has_certs : World → bool;
  execute_endpoint :
    EndpointDefinition → RpcContext → Tx → N → World →
    option Exn * RpcContext * Tx * World;
  set_consensus : option N → World → World;
  set_history : option N → World → World;
  init_handlers : World → World;
  (* virtual members of RpcFrontend *)
  invalid_caller_error_message : string;
  lookup_forwarded_caller_cert : RpcContext → Tx → World → bool * RpcContext;
  resolve_caller_id : N → Tx → World → option Pem;
  (* enclave::AbstractForwarder *)
  forward_command :
    RpcContext → N → list N → N → list Byte.byte → World → bool * World;
  (* tls::make_verifier and tls::Verifier::verify *)
  make_verifier : list Byte.byte → Verifier;
  verifier_verify : Verifier → list Byte.byte → list Byte.byte → N → bool;
  (* http::JwtVerifier *)
  extract_token : list (string * string) → option JwtToken * string;
  validate_token_signature : JwtToken → list Byte.byte → bool }.

(** The defaults of the three virtual members (lines 37-40, 824-833). *)
Definition base_invalid_caller_error_message : string :=
  "Could not find matching actor certificate".

Definition base_lookup_forwarded_caller_cert {W T : Type}
    (ctx : RpcContext) (_ : T) (_ : W) : bool * RpcContext :=
  (true, ctx).

Definition base_resolve_caller_id {W T : Type}
    (_ : N) (_ : T) (_ : W) : option Pem :=
  None.

(** ** Constants of the HTTP vocabulary *)

(** Modelled from the spec: the status codes of [http_status] (section 6,
    "HTTP vocabulary used"); the enum is declared outside this class. *)
Definition HTTP_STATUS_TEMPORARY_REDIRECT : Z := 307.
Definition HTTP_STATUS_BAD_REQUEST : Z := 400.
Definition HTTP_STATUS_UNAUTHORIZED : Z := 401.
Definition HTTP_STATUS_FORBIDDEN : Z := 403.
Definition HTTP_STATUS_NOT_FOUND : Z := 404.
Definition HTTP_STATUS_METHOD_NOT_ALLOWED : Z := 405.
Definition HTTP_STATUS_CONFLICT : Z := 409.
Definition HTTP_STATUS_INTERNAL_SERVER_ERROR : Z := 500.

(** Modelled from the spec: the header names of [http::headers] and the
    text content type (sections 6 and 8), declared outside this class. *)
Definition ALLOW : string := "Allow".
Definition LOCATION : string := "Location".
Definition CONTENT_TYPE : string := "Content-Type".
Definition WWW_AUTHENTICATE : string := "WWW-Authenticate".
Definition TEXT : string := "text/plain".

(** ** Formatting *)

Definition dquote : string := String (Ascii.ascii_of_nat 34) EmptyString.
Definition newline_tab : string :=
  String (Ascii.ascii_of_nat 10) (String (Ascii.ascii_of_nat 9) EmptyString).

(** [fmt::join(xs, sep)] *)
Fixpoint join (sep : string) (xs : list string) : string :=
  match xs with
  | [] => ""
  | [x] => x
  | x :: rest => x +:+ sep +:+ join sep rest
  end.

(** [fmt::format("{}", n)] for an unsigned integer. *)
Definition format_nat (n : nat) : string :=
  NilZero.string_of_uint (Nat.to_uint n).

(** [size_t] counters wrap at 2^64. *)
Definition size_t_incr (n : N) : N := ((n + 1) mod 2 ^ 64)%N.

Definition max_attempts : nat := 30.

(** ** State *)

Record Frontend (E : Env) := {
  verifiers : gmap N (Verifier E);
  is_open_ : bool;
  client_signatures_name : string;
  consensus : option N;
  cmd_forwarder : bool;
  history : option N;
  tx_count : N;
  request_storing_disabled : bool;
  service_identity : option Pem }.

Arguments verifiers {E} _.
Arguments is_open_ {E} _.
Arguments client_signatures_name {E} _.
Arguments consensus {E} _.
Arguments cmd_forwarder {E} _.
Arguments history {E} _.
Arguments tx_count {E} _.
Arguments request_storing_disabled {E} _.
Arguments service_identity {E} _.

(** The frontend, the request context it shares with its caller, the
    registry's metrics, the collaborators' state and the ghost trace
    (newest event first). *)
Record St (E : Env) := {
  fe : Frontend E;
  ctx : RpcContext;
  metrics : gmap (string * string) Metrics;
  world : World E;
  trace : list Event }.

Arguments fe {E} _.
Arguments ctx {E} _.
Arguments metrics {E} _.
Arguments world {E} _.
Arguments trace {E} _.

(** [std::function<void(kv::Tx&, enclave::RpcContext&)>]; it may throw. *)
Definition PreExec (E : Env) : Type :=
  Tx E → RpcContext → option Exn * Tx E * RpcContext.

(** ** Setters of the request context *)

Definition with_response (f : Response → Response) (c : RpcContext) : RpcContext :=
  {| session := session c; method := method c;
     signed_request := signed_request c;
     request_headers := request_headers c; request_index := request_index c;
     serialised_request := serialised_request c;
     frame_format := frame_format c;
     execute_on_node := execute_on_node c;
     is_create_request := is_create_request c;
     apply_writes := apply_writes c;
     response := f (response c) |}.

Definition with_session (f : Session → Session) (c : RpcContext) : RpcContext :=
  {| session := f (session c); method := method c;
     signed_request := signed_request c;
     request_headers := request_headers c; request_index := request_index c;
     serialised_request := serialised_request c;
     frame_format := frame_format c;
     execute_on_node := execute_on_node c;
     is_create_request := is_create_request c;
     apply_writes := apply_writes c;
     response := response c |}.

Definition set_response_status (s : Z) : RpcContext → RpcContext :=
  with_response (λ r,
    {| status := s; headers := headers r; body := body r;
       seqno := seqno r; view := view r; global_commit := global_commit r |}).

Definition set_response_header (k v : string) : RpcContext → RpcContext :=
  with_response (λ r,
    {| status := status r; headers := <[k := v]> (headers r); body := body r;
       seqno := seqno r; view := view r; global_commit := global_commit r |}).

Definition set_response_body (b : string) : RpcContext → RpcContext :=
  with_response (λ r,
    {| status := status r; headers := headers r; body := b;
       seqno := seqno r; view := view r; global_commit := global_commit r |}).

Definition set_seqno (v : Z) : RpcContext → RpcContext :=
  with_response (λ r,
    {| status := status r; headers := headers r; body := body r;
       seqno := Some v; view := view r; global_commit := global_commit r |}).

Definition set_view (v : Z) : RpcContext → RpcContext :=
  with_response (λ r,
    {| status := status r; headers := headers r; body := body r;
       seqno := seqno r; view := Some v; global_commit := global_commit r |}).

Definition set_global_commit (v : Z) : RpcContext → RpcContext :=
  with_response (λ r,
    {| status := status r; headers := headers r; body := body r;
       seqno := seqno r; view := view r; global_commit := Some v |}).

Definition set_caller_cert (c : list Byte.byte) : RpcContext → RpcContext :=
  with_session (λ s,
    {| caller_cert := c; original_caller := original_caller s;
       is_forwarding := is_forwarding s;
       client_session_id := client_session_id s |}).

Definition set_is_forwarding (b : bool) : RpcContext → RpcContext :=
  with_session (λ s,
    {| caller_cert := caller_cert s; original_caller := original_caller s;
       is_forwarding := b; client_session_id := client_session_id s |}).

Definition get_response_status (c : RpcContext) : Z := status (response c).

Definition serialise_response (c : RpcContext) : Response := response c.

Definition get_signed_request (c : RpcContext) : option SignedReq :=
  signed_request c.

Definition should_apply_writes (c : RpcContext) : bool := apply_writes c.

(** ** The frontend *)

Section Frontend.
Context {E : Env}.

Implicit Types (st : St E) (tx : Tx E) (c : RpcContext) (m : Metrics).

(** *** Setters of the state *)

Definition with_ctx (f : RpcContext → RpcContext) st : St E :=
  {| fe := fe st; ctx := f (ctx st); metrics := metrics st;
     world := world st; trace := trace st |}.

Definition with_fe (f : Frontend E → Frontend E) st : St E :=
  {| fe := f (fe st); ctx := ctx st; metrics := metrics st;
     world := world st; trace := trace st |}.

Definition with_metrics
    (f : gmap (string * string) Metrics → gmap (string * string) Metrics)
    st : St E :=
  {| fe := fe st; ctx := ctx st; metrics := f (metrics st);
     world := world st; trace := trace st |}.

Definition with_world (f : World E → World E) st : St E :=
  {| fe := fe st; ctx := ctx st; metrics := metrics st;
     world := f (world st); trace := trace st |}.

Definition log (e : Event) st : St E :=
  {| fe := fe st; ctx := ctx st; metrics := metrics st;
     world := world st; trace := e :: trace st |}.

Definition set_consensus_field (c : option N) (f : Frontend E) : Frontend E :=
  {| verifiers := verifiers f; is_open_ := is_open_ f;
     client_signatures_name := client_signatures_name f;
     consensus := c; cmd_forwarder := cmd_forwarder f;
     history := history f; tx_count := tx_count f;
     request_storing_disabled := request_storing_disabled f;
     service_identity := service_identity f |}.

Definition set_history_field (h : option N) (f : Frontend E) : Frontend E :=
  {| verifiers := verifiers f; is_open_ := is_open_ f;
     client_signatures_name := client_signatures_name f;
     consensus := consensus f; cmd_forwarder := cmd_forwarder f;
     history := h; tx_count := tx_count f;
     request_storing_disabled := request_storing_disabled f;
     service_identity := service_identity f |}.

Definition set_verifiers (vs : gmap N (Verifier E)) (f : Frontend E) : Frontend E :=
  {| verifiers := vs; is_open_ := is_open_ f;
     client_signatures_name := client_signatures_name f;
     consensus := consensus f; cmd_forwarder := cmd_forwarder f;
     history := history f; tx_count := tx_count f;
     request_storing_disabled := request_storing_disabled f;
     service_identity := service_identity f |}.

Definition set_is_open_ (b : bool) (f : Frontend E) : Frontend E :=
  {| verifiers := verifiers f; is_open_ := b;
     client_signatures_name := client_signatures_name f;
     consensus := consensus f; cmd_forwarder := cmd_forwarder f;
     history := history f; tx_count := tx_count f;
     request_storing_disabled := request_storing_disabled f;
     service_identity := service_identity f |}.

Definition set_service_identity (i : option Pem) (f : Frontend E) : Frontend E :=
  {| verifiers := verifiers f; is_open_ := is_open_ f;
     client_signatures_name := client_signatures_name f;
     consensus := consensus f; cmd_forwarder := cmd_forwarder f;
     history := history f; tx_count := tx_count f;
     request_storing_disabled := request_storing_disabled f;
     service_identity := i |}.

Definition set_tx_count (n : N) (f : Frontend E) : Frontend E :=
  {| verifiers := verifiers f; is_open_ := is_open_ f;
     client_signatures_name := client_signatures_name f;
     consensus := consensus f; cmd_forwarder := cmd_forwarder f;
     history := history f; tx_count := n;
     request_storing_disabled := request_storing_disabled f;
     service_identity := service_identity f |}.

(** *** Metrics *)

Definition zero_metrics : Metrics := {| calls := 0; errors := 0; failures := 0 |}.

(** [endpoints.get_metrics(endpoint)]: the slot of the endpoint's key. *)
Definition get_metrics (ep : EndpointDefinition)
    (ms : gmap (string * string) Metrics) : Metrics :=
  default zero_metrics (ms !! dispatch ep).

Definition incr_calls m : Metrics :=
  {| calls := size_t_incr (calls m); errors := errors m; failures := failures m |}.

(** Lines 80-94. *)
Definition update_metrics c m : Metrics :=
  let cat := Z.quot (get_response_status c) 100 in
  if cat =? 4 then
    {| calls := calls m; errors := size_t_incr (errors m); failures := failures m |}
  else if cat =? 5 then
    {| calls := calls m; errors := errors m; failures := size_t_incr (failures m) |}
  else m.

(** [metrics] is a reference into the registry: writes go to the slot. *)
Definition on_metrics (ep : EndpointDefinition) (f : Metrics → Metrics) st : St E :=
  with_metrics (λ ms, <[dispatch ep := f (get_metrics ep ms)]> ms) st.

Definition update_metrics_of (ep : EndpointDefinition) st : St E :=
  on_metrics ep (update_metrics (ctx st)) st.

(** [return ctx->serialise_response();] *)
Definition respond st : Outcome * St E :=
  (Responded (serialise_response (ctx st)), st).

(** *** Handles (lines 63-78) *)

Definition update_consensus st : St E :=
  let c := get_consensus E (world st) in
  if bool_decide (consensus (fe st) ≠ c) then
    log (EvSetConsensus c)
      (with_world (set_consensus E c) (with_fe (set_consensus_field c) st))
  else st.

Definition update_history st : St E :=
  let h := get_history E (world st) in
  log (EvSetHistory h)
    (with_world (set_history E h) (with_fe (set_history_field h) st)).

(** *** Forwarding (lines 96-169) *)

Definition get_cert_to_forward st (endpoint : option EndpointDefinition)
    : list Byte.byte :=
  if negb (has_certs E (world st)) ||
     match endpoint with
     | Some ep => negb (require_client_identity (properties ep))
     | None => false
     end
  then caller_cert (session (ctx st))
  else [].

Definition could_not_forward (ep : EndpointDefinition) st : Outcome * St E :=
  let st := with_ctx (set_response_status HTTP_STATUS_INTERNAL_SERVER_ERROR) st in
  let st := with_ctx
    (set_response_body "RPC could not be forwarded to unknown primary.") st in
  respond (update_metrics_of ep st).

Definition forward_or_redirect_json (ep : EndpointDefinition) (caller_id : N) st
    : Outcome * St E :=
  if cmd_forwarder (fe st) &&
     negb (bool_decide (is_Some (original_caller (session (ctx st)))))
  then
    match consensus (fe st) with
    | Some cs =>
        let primary_id := consensus_primary E cs (world st) in
        if bool_decide (primary_id ≠ NoNode E) then
          let '(ok, w) :=
            forward_command E (ctx st) primary_id
              (consensus_active_nodes E cs (world st)) caller_id
              (get_cert_to_forward st (Some ep)) (world st) in
          let st :=
            log (EvForwardCommand primary_id caller_id
                   (get_cert_to_forward st (Some ep)))
              (with_world (λ _, w) st) in
          if ok then (Pending, st) else could_not_forward ep st
        else could_not_forward ep st
    | None => could_not_forward ep st
    end
  else
    let st := with_ctx (set_response_status HTTP_STATUS_TEMPORARY_REDIRECT) st in
    let st :=
      match consensus (fe st) with
      | Some cs =>
          let primary_id := consensus_primary E cs (world st) in
          let tx := create_tx E (world st) in
          match nodes_get E tx primary_id with
          | Some info =>
              with_ctx
                (set_response_header LOCATION
                   (pubhost info +:+ ":" +:+ rpcport info)) st
          | None => st
          end
      | None => st
      end in
    respond (update_metrics_of ep st).

(** *** Client signatures (lines 171-231) *)

Definition record_client_signature tx (caller_id : N) (signed_request : SignedReq)
    st : option Exn * Tx E * St E :=
  if bool_decide (client_signatures_name (fe st) = "") then (None, tx, st)
  else
    let stored :=
      if request_storing_disabled (fe st) then
        (* SignedReq no_req; no_req.sig = signed_request.sig; *)
        {| sig := sig signed_request; req := []; md := 0%N; key_id := "" |}
      else signed_request in
    let '(oe, tx) :=
      put_client_signature E (client_signatures_name (fe st)) caller_id stored tx in
    (oe, tx, log (EvRecordClientSignature caller_id) st).

Definition verify_client_signature (caller : list Byte.byte) (caller_id : N)
    (signed_request : SignedReq) st : bool * St E :=
  let st := log (EvVerifyClientSignature caller caller_id) st in
  if bool_decide (client_signatures_name (fe st) = "") then (false, st)
  else
    let '(verifier, vs) :=
      match verifiers (fe st) !! caller_id with
      | Some v => (v, verifiers (fe st))
      | None =>
          let v := make_verifier E caller in
          (v, <[caller_id := v]> (verifiers (fe st)))
      end in
    (verifier_verify E verifier
       (req signed_request) (sig signed_request) (md signed_request),
     with_fe (set_verifiers vs) st).

Definition signature_challenge : string :=
  "Signature realm=" +:+ dquote +:+ "Signed request access" +:+ dquote +:+
  ", headers=" +:+ dquote +:+ join " " (required_signature_headers E) +:+ dquote.

Definition set_response_unauthorized (msg : string) c : RpcContext :=
  set_response_body msg
    (set_response_header WWW_AUTHENTICATE signature_challenge
       (set_response_status HTTP_STATUS_UNAUTHORIZED c)).

Definition bearer_challenge : string :=
  "Bearer realm=" +:+ dquote +:+ "JWT bearer token access" +:+ dquote +:+
  ", error=" +:+ dquote +:+ "invalid_token" +:+ dquote.

Definition set_response_unauthorized_jwt (msg : string) c : RpcContext :=
  set_response_body msg
    (set_response_header WWW_AUTHENTICATE bearer_challenge
       (set_response_status HTTP_STATUS_UNAUTHORIZED c)).

(** *** process_command: the gates before the executor (lines 249-411) *)

(** Lines 249-287: endpoint lookup, then [metrics.calls++]. *)
Definition lookup_endpoint tx st : (Outcome * St E) + (EndpointDefinition * St E) :=
  let st := log EvFindEndpoint st in
  match find_endpoint E tx (ctx st) (world st) with
  | None =>
      let allowed_verbs := get_allowed_verbs E (ctx st) (world st) in
      let st := log EvGetAllowedVerbs st in
      match allowed_verbs with
      | [] =>
          let st := with_ctx (set_response_status HTTP_STATUS_NOT_FOUND) st in
          let st := with_ctx (set_response_header CONTENT_TYPE TEXT) st in
          let st := with_ctx
            (set_response_body ("Unknown path: " +:+ method (ctx st))) st in
          inl (respond st)
      | _ =>
          let st := with_ctx (set_response_status HTTP_STATUS_METHOD_NOT_ALLOWED) st in
          let allow_header_value := join ", " allowed_verbs in
          let st := with_ctx (set_response_header ALLOW allow_header_value) st in
          let st := with_ctx
            (set_response_body
               ("Allowed methods for '" +:+ method (ctx st) +:+ "' are: " +:+
                allow_header_value)) st in
          inl (respond st)
      end
  | Some ep => inr (ep, on_metrics ep incr_calls st)
  end.

(** Lines 289-311: on a signed request whose key id is known, the caller id
    becomes the signer's. *)
Definition identity_override (signed_request : option SignedReq) tx
    (caller_id : N) st : N * St E :=
  match signed_request with
  | Some signed_request =>
      let cid := get_caller_id_by_digest E tx (key_id signed_request) (world st) in
      if bool_decide (cid ≠ INVALID_ID E) then
        match resolve_caller_id E cid tx (world st) with
        | Some caller_cert => (cid, with_ctx (set_caller_cert (raw caller_cert)) st)
        | None => (cid, st)
        end
      else (caller_id, st)
  | None => (caller_id, st)
  end.

(** Lines 313-328; [true] when the caller is refused. *)
Definition identity_gate (ep : EndpointDefinition) tx (caller_id : N) st
    : bool * St E :=
  if require_client_identity (properties ep) && has_certs E (world st) then
    let st := log (EvIdentityCheck caller_id) st in
    let '(unknown_forwarded, st) :=
      match original_caller (session (ctx st)) with
      | Some _ =>
          let '(found, c) :=
            lookup_forwarded_caller_cert E (ctx st) tx (world st) in
          (negb found, with_ctx (λ _, c) st)
      | None => (false, st)
      end in
    (unknown_forwarded || bool_decide (caller_id = INVALID_ID E), st)
  else (false, st).

(** Line 330. *)
Definition compute_is_primary st : bool :=
  match consensus (fe st) with
  | None => true
  | Some cs => consensus_is_primary E cs (world st) || is_create_request (ctx st)
  end.

(** The guard of lines 349-352: whether [verify_client_signature] is reached. *)
Definition must_verify st : bool :=
  negb (is_create_request (ctx st)) &&
  (negb match consensus (fe st) with
        | Some cs => bool_decide (consensus_type E cs (world st) = CFT)
        | None => false
        end
   || negb (bool_decide (is_Some (original_caller (session (ctx st)))))).

(** Lines 343-367; [inl] is the 401 exit, [inr] carries
    [should_record_client_signature]. *)
Definition signature_gate (ep : EndpointDefinition)
    (signed_request : option SignedReq) (caller_id : N)
    (is_primary : bool) st : (Outcome * St E) + (bool * St E) :=
  match signed_request with
  | Some signed_request =>
      let '(refused, st) :=
        if must_verify st then
          let '(ok, st) :=
            verify_client_signature (caller_cert (session (ctx st)))
              caller_id signed_request st in
          (negb ok, st)
        else (false, st) in
      if refused then
        let st := with_ctx
          (set_response_unauthorized "Failed to verify client signature") st in
        inl (respond (update_metrics_of ep st))
      else inr (is_primary, st)
  | None => inr (false, st)
  end.

(** Lines 369-409.  [value()] on an empty optional throws outside any
    handler of this function. *)
Definition jwt_gate (ep : EndpointDefinition) tx st
    : (Outcome * St E) + (option Jwt * St E) :=
  if require_jwt_authentication (properties ep) then
    let '(token, error_reason) := extract_token E (request_headers (ctx st)) in
    let checked : string + (string * string) :=
      match token with
      | Some t =>
          match jwt_keys_get E tx (kid t) with
          | None => inr ("JWT signing key not found", "")
          | Some token_key =>
              if negb (validate_token_signature E t token_key) then
                inr ("JWT signature is invalid", "")
              else
                match jwt_key_issuer_get E tx (kid t) with
                | Some issuer => inr (error_reason, issuer)
                | None => inl "bad optional access"
                end
          end
      | None => inr (error_reason, "")
      end in
    match checked with
    | inl what => inl (Uncaught what, st)
    | inr (error_reason, key_issuer) =>
        if negb (bool_decide (error_reason = "")) then
          let st := with_ctx
            (set_response_unauthorized_jwt
               ("'" +:+ method (ctx st) +:+ "' " +:+ error_reason)) st in
          inl (respond (update_metrics_of ep st))
        else
          match token with
          | Some t =>
              inr (Some {| key_issuer := key_issuer; header := jwt_header t;
                           payload := jwt_payload t |}, st)
          | None => inl (Uncaught "bad optional access", st)
          end
    end
  else inr (None, st).

(** What the gates hand to dispatch and executor. *)
Record Passed := {
  p_endpoint : EndpointDefinition;
  p_caller_id : N;
  p_is_primary : bool;
  p_signed_request : option SignedReq;
  p_should_record : bool }.

(** Lines 249-341 in order: lookup, identity override, identity
    requirement, role, signature requirement.  [inr] carries the endpoint,
    the signed request read at line 289, the effective caller id and
    [is_primary]. *)
Definition early_gates tx (caller_id : N) st
    : (Outcome * St E) +
      (EndpointDefinition * option SignedReq * N * bool * St E) :=
  match lookup_endpoint tx st with
  | inl exit => inl exit
  | inr (ep, st) =>
      let signed_request := get_signed_request (ctx st) in
      let '(caller_id, st) := identity_override signed_request tx caller_id st in
      let '(refused, st) := identity_gate ep tx caller_id st in
      if refused then
        let st := with_ctx (set_response_status HTTP_STATUS_FORBIDDEN) st in
        let st := with_ctx
          (set_response_body (invalid_caller_error_message E)) st in
        inl (respond (update_metrics_of ep st))
      else
        let is_primary := compute_is_primary st in
        if require_client_signature (properties ep) &&
           negb (bool_decide (is_Some signed_request))
        then
          let st := with_ctx
            (set_response_unauthorized
               ("'" +:+ method (ctx st) +:+ "' RPC must be signed")) st in
          inl (respond (update_metrics_of ep st))
        else inr (ep, signed_request, caller_id, is_primary, st)
  end.

(** Lines 249-411 in order. *)
Definition auth_pipeline tx (caller_id : N) st : (Outcome * St E) + (Passed * St E) :=
  match early_gates tx caller_id st with
  | inl exit => inl exit
  | inr (ep, signed_request, caller_id, is_primary, st) =>
      match signature_gate ep signed_request caller_id is_primary st with
      | inl exit => inl exit
      | inr (should_record_client_signature, st) =>
          match jwt_gate ep tx st with
          | inl exit => inl exit
          | inr (_, st) =>
              inr ({| p_endpoint := ep; p_caller_id := caller_id;
                      p_is_primary := is_primary;
                      p_signed_request := signed_request;
                      p_should_record := should_record_client_signature |},
                   update_history st)
          end
      end
  end.

(** *** process_command: dispatch (lines 413-448) *)

Inductive Dispatch := ExecuteLocally | ForwardOrRedirect.

Definition dispatch_decision (p : Passed) st : Dispatch :=
  match consensus (fe st) with
  | Some cs =>
      let is_cft := bool_decide (consensus_type E cs (world st) = CFT) in
      if negb (p_is_primary p) &&
         (is_cft || (negb is_cft && negb (execute_on_node (ctx st))))
      then
        match forwarding_required (properties (p_endpoint p)) with
        | Never => ExecuteLocally
        | Sometimes =>
            if (is_forwarding (session (ctx st)) && is_cft) ||
               (negb is_cft && negb (execute_on_node (ctx st)) &&
                negb (execute_locally (properties (p_endpoint p))))
            then ForwardOrRedirect
            else ExecuteLocally
        | Always => ForwardOrRedirect
        end
      else ExecuteLocally
  | None => ExecuteLocally   (* is_primary holds: the guard short-circuits *)
  end.

(** *** process_command: the executor (lines 450-567) *)

Inductive TryResult :=
| Raised (e : Exn) (tx : Tx E) (st : St E)
| Returned (o : Outcome) (tx : Tx E) (st : St E)
| Conflicted (tx : Tx E) (st : St E).

(** The [OK] case of the switch, lines 483-506. *)
Definition commit_ok (ep : EndpointDefinition) tx st : Outcome * St E :=
  let cv := commit_version E tx in
  let cv := if cv =? 0 then get_read_version E tx else cv in
  let st :=
    match consensus (fe st) with
    | Some cs =>
        let st :=
          if bool_decide (cv ≠ NoVersion E) then
            with_ctx (set_view (commit_term E tx)) (with_ctx (set_seqno cv) st)
          else st in
        let st := with_ctx
          (set_global_commit (consensus_get_committed_seqno E cs (world st))) st in
        match history (fe st) with
        | Some h =>
            if consensus_is_primary E cs (world st) then
              log EvTryEmitSignature (with_world (try_emit_signature E h) st)
            else st
        | None => st
        end
    | None => st
    end in
  respond (update_metrics_of ep st).

(** Lines 463-473: [pre_exec], the signature record and the endpoint; the
    first exception raised, if any, leaves the [try]. *)
Definition run_endpoint (p : Passed) (pre_exec : option (PreExec E)) tx st
    : option Exn * Tx E * St E :=
  let '(raised, tx, st) :=
    match pre_exec with
    | Some f =>
        let '(oe, tx, c) := f tx (ctx st) in
        (oe, tx, log EvPreExec (with_ctx (λ _, c) st))
    | None => (None, tx, st)
    end in
  match raised with
  | Some e => (Some e, tx, st)
  | None =>
      let '(raised, tx, st) :=
        if p_should_record p then
          match p_signed_request p with
          | Some signed_request =>
              record_client_signature tx (p_caller_id p) signed_request st
          | None => (Some (StdException "bad optional access"), tx, st)
          end
        else (None, tx, st) in
      match raised with
      | Some e => (Some e, tx, st)
      | None =>
          let '(raised, c, tx, w) :=
            execute_endpoint E (p_endpoint p) (ctx st) tx (p_caller_id p)
              (world st) in
          (raised, tx,
           log (EvExecuteEndpoint (p_caller_id p))
             (with_world (λ _, w) (with_ctx (λ _, c) st)))
      end
  end.

(** The body of the [try], lines 463-520. *)
Definition try_block (p : Passed) (pre_exec : option (PreExec E)) tx st : TryResult :=
  match run_endpoint p pre_exec tx st with
  | (Some e, tx, st) => Raised e tx st
  | (None, tx, st) =>
      if negb (should_apply_writes (ctx st)) then
        let '(o, st) := respond (update_metrics_of (p_endpoint p) st) in
        Returned o tx st
      else
        let '(r, tx, w) := commit E tx (world st) in
        let st := log EvCommit (with_world (λ _, w) st) in
        match r with
        | inl e => Raised e tx st
        | inr OK =>
            let '(o, st) := commit_ok (p_endpoint p) tx st in
            Returned o tx st
        | inr CONFLICT => Conflicted tx st
        | inr NO_REPLICATE =>
            let st := with_ctx
              (set_response_status HTTP_STATUS_INTERNAL_SERVER_ERROR) st in
            let st := with_ctx
              (set_response_body "Transaction failed to replicate.") st in
            let '(o, st) := respond (update_metrics_of (p_endpoint p) st) in
            Returned o tx st
        end
  end.

Inductive AttemptResult :=
| Retry (tx : Tx E) (st : St E)
| Done (o : Outcome) (tx : Tx E) (st : St E).

(** One iteration of the loop: [++attempts], the [try] and its handlers
    (lines 459-561). *)
Definition attempt (p : Passed) (pre_exec : option (PreExec E)) tx st
    : AttemptResult :=
  match try_block p pre_exec tx (log EvAttempt st) with
  | Returned o tx st => Done o tx st
  | Conflicted tx st => Retry tx st
  | Raised (CompactedVersionConflict _) tx st =>
      Retry (reset E tx) (log EvTxReset st)
  | Raised (RpcException s what) tx st =>
      let st := with_ctx (set_response_status s) st in
      let st := with_ctx (set_response_body what) st in
      let '(o, st) := respond (update_metrics_of (p_endpoint p) st) in
      Done o tx st
  | Raised (JsonParseError pointer what) tx st =>
      let err := "At " +:+ pointer +:+ ":" +:+ newline_tab +:+ what in
      let st := with_ctx (set_response_status HTTP_STATUS_BAD_REQUEST) st in
      let st := with_ctx (set_response_body err) st in
      let '(o, st) := respond (update_metrics_of (p_endpoint p) st) in
      Done o tx st
  | Raised (KvSerialiserException _) tx st => Done Aborted tx (log EvAbort st)
  | Raised (StdException what) tx st =>
      let st := with_ctx
        (set_response_status HTTP_STATUS_INTERNAL_SERVER_ERROR) st in
      let st := with_ctx (set_response_body what) st in
      let '(o, st) := respond (update_metrics_of (p_endpoint p) st) in
      Done o tx st
  end.

(** Lines 564-567. *)
Definition conflict_exit st : Outcome * St E :=
  let st := with_ctx (set_response_status HTTP_STATUS_CONFLICT) st in
  let st := with_ctx
    (set_response_body
       ("Transaction continued to conflict after " +:+
        format_nat max_attempts +:+ " attempts.")) st in
  respond st.

(** [while (attempts < max_attempts)]; [remaining] is
    [max_attempts - attempts]. *)
Fixpoint attempt_loop (remaining : nat) (p : Passed)
    (pre_exec : option (PreExec E)) tx st : Outcome * Tx E * St E :=
  match remaining with
  | O => let '(o, st) := conflict_exit st in (o, tx, st)
  | S remaining =>
      match attempt p pre_exec tx st with
      | Retry tx st => attempt_loop remaining p pre_exec tx st
      | Done o tx st => (o, tx, st)
      end
  end.

(** Lines 450-567. *)
Definition executor (p : Passed) (pre_exec : option (PreExec E)) tx st
    : Outcome * Tx E * St E :=
  let st := with_fe (λ f, set_tx_count (size_t_incr (tx_count f)) f) st in
  attempt_loop max_attempts p pre_exec tx st.

(** Lines 243-568. *)
Definition process_command tx (caller_id : N) (pre_exec : option (PreExec E)) st
    : Outcome * Tx E * St E :=
  match auth_pipeline tx caller_id st with
  | inl (o, st) => (o, tx, st)
  | inr (p, st) =>
      match dispatch_decision p st with
      | ForwardOrRedirect =>
          let st := with_ctx (set_is_forwarding true) st in
          let '(o, st) :=
            forward_or_redirect_json (p_endpoint p) (p_caller_id p) st in
          (o, tx, st)
      | ExecuteLocally => executor p pre_exec tx st
      end
  end.

(** *** Lifecycle gate and facade (lines 596-714) *)

Definition open (identity : option Pem) st : St E :=
  match identity with
  | Some i => with_fe (set_service_identity (Some i)) st
  | None =>
      if negb (is_open_ (fe st)) then
        log EvInitHandlers
          (with_world (init_handlers E) (with_fe (set_is_open_ true) st))
      else st
  end.

Definition is_open tx st : bool * St E :=
  let st :=
    if negb (is_open_ (fe st)) then
      match service_get_globally_committed E tx, service_identity (fe st) with
      | Some s, Some identity =>
          if bool_decide (service_status s = OPEN) &&
             bool_decide (service_cert s = identity)
          then
            log EvInitHandlers
              (with_world (init_handlers E) (with_fe (set_is_open_ true) st))
          else st
      | _, _ => st
      end
    else st in
  (is_open_ (fe st), st).

Definition process st : Outcome * St E :=
  let st := update_consensus st in
  let tx := create_tx E (world st) in
  let '(opened, st) := is_open tx st in
  if negb opened then
    let st := with_ctx (set_response_status HTTP_STATUS_NOT_FOUND) st in
    let st := with_ctx (set_response_body "Frontend is not open.") st in
    respond st
  else
    let caller_id :=
      get_caller_id E tx (caller_cert (session (ctx st))) (world st) in
    let st := log EvFindEndpoint st in
    let endpoint := find_endpoint E tx (ctx st) (world st) in
    let should_bft_distribute :=
      match consensus (fe st) with
      | Some cs =>
          bool_decide (consensus_type E cs (world st) = BFT) &&
          negb match endpoint with
               | Some ep => execute_locally (properties ep)
               | None => false
               end &&
          (execute_on_node (ctx st) || consensus_is_primary E cs (world st))
      | None => false
      end in
    if should_bft_distribute then
      let st := update_history st in
      let reqid : RequestID :=
        (caller_id, client_session_id (session (ctx st)),
         request_index (ctx st)) in
      match history (fe st) with
      | Some h =>
          let '(added, w) :=
            add_request E h reqid caller_id (get_cert_to_forward st None)
              (serialised_request (ctx st)) (frame_format (ctx st))
              (world st) in
          let st := log (EvAddRequest caller_id) (with_world (λ _, w) st) in
          if negb added then
            let st := with_ctx
              (set_response_status HTTP_STATUS_INTERNAL_SERVER_ERROR) st in
            let st := with_ctx
              (set_response_body "Could not process request.") st in
            respond st
          else (Pending, log (EvSetReqId reqid) st)
      | None =>
          let st := with_ctx
            (set_response_status HTTP_STATUS_INTERNAL_SERVER_ERROR) st in
          let st := with_ctx
            (set_response_body "Consensus is not yet ready.") st in
          respond st
      end
    else
      let '(o, _, st) := process_command tx caller_id None st in
      (o, st).

End Frontend.

(** ** Observations on traces and runs *)

Fixpoint count_attempts (l : list Event) : nat :=
  match l with
  | [] => 0
  | EvAttempt :: l => S (count_attempts l)
  | _ :: l => count_attempts l
  end.

(** The caller id an event was performed with, if it carries one. *)
Definition event_caller (e : Event) : option N :=
  match e with
  | EvIdentityCheck cid
  | EvVerifyClientSignature _ cid
  | EvRecordClientSignature cid
  | EvExecuteEndpoint cid
  | EvForwardCommand _ cid _ => Some cid
  | _ => None
  end.

Definition callers (l : list Event) : list N := omap event_caller l.

(** The calls of [verify_client_signature] in a trace. *)
Definition event_verification (e : Event) : option (list Byte.byte * N) :=
  match e with
  | EvVerifyClientSignature cert cid => Some (cert, cid)
  | _ => None
  end.

Definition verifications (l : list Event) : list (list Byte.byte * N) :=
  omap event_verification l.

(** Events that look an endpoint up or write to the KV. *)
Definition is_lookup_or_write (e : Event) : bool :=
  match e with
  | EvFindEndpoint | EvGetAllowedVerbs | EvPreExec
  | EvRecordClientSignature _ | EvExecuteEndpoint _ | EvCommit
  | EvTxReset | EvSetReqId _ | EvAddRequest _ => true
  | _ => false
  end.

(** [quiet c new]: the events [new] start no attempt, verify no signature
    and use no caller id other than [c]. *)
Definition quiet (c : N) (new : list Event) : Prop :=
  count_attempts new = 0%nat ∧ verifications new = []
  ∧ Forall (λ c', c' = c) (callers new).

Section Runs.
Context {E : Env}.

(** Every one of the next [n] iterations ends in a KV [CONFLICT] or in a
    [CompactedVersionConflict]. *)
Fixpoint conflicts_throughout (n : nat) (p : Passed)
    (pre_exec : option (PreExec E)) (tx : Tx E) (st : St E) : bool :=
  match n with
  | O => true
  | S n =>
      match try_block p pre_exec tx (log EvAttempt st) with
      | Conflicted tx st => conflicts_throughout n p pre_exec tx st
      | Raised (CompactedVersionConflict _) tx st =>
          conflicts_throughout n p pre_exec (reset E tx) (log EvTxReset st)
      | _ => false
      end
  end.

Definition try_state (r : TryResult (E := E)) : St E :=
  match r with
  | Raised _ _ st | Returned _ _ st | Conflicted _ st => st
  end.

Definition attempt_state (r : AttemptResult (E := E)) : St E :=
  match r with
  | Retry _ st | Done _ _ st => st
  end.

(** The state a gate leaves behind, whichever way it is left. *)
Definition exit_state {A : Type} (r : (Outcome * St E) + (A * St E)) : St E :=
  match r with
  | inl (_, st) | inr (_, st) => st
  end.

(** The caller id in force after line 311. *)
Definition effective_caller (tx : Tx E) (caller_id : N) (st : St E) : N :=
  (identity_override (get_signed_request (ctx st)) tx caller_id st).1.

(** The state in which the executor enters its loop (line 452). *)
Definition enter_executor (st : St E) : St E :=
  with_fe (λ f, set_tx_count (size_t_incr (tx_count f)) f) st.

(** The version the response reports: lines 485-487. *)
Definition reported_version (tx : Tx E) : Z :=
  if commit_version E tx =? 0 then get_read_version E tx else commit_version E tx.

(** The guard of line 120. *)
Definition forwardable (st : St E) : bool :=
  cmd_forwarder (fe st) &&
  negb (bool_decide (is_Some (original_caller (session (ctx st))))).

(** The request was forwarded by a node of a CFT service (lines 350-352). *)
Definition cft_forwarded (st : St E) : Prop :=
  (∃ cs, consensus (fe st) = Some cs ∧ consensus_type E cs (world st) = CFT)
  ∧ is_Some (original_caller (session (ctx st))).

(** An exit that went through [update_metrics]: a response is the snapshot
    of the final context and the endpoint's slot was updated from the
    metrics [ms] by that context's status; without a response the metrics
    are [ms]. *)
Definition accounted (ep : EndpointDefinition)
    (ms : gmap (string * string) Metrics) (o : Outcome) (st' : St E) : Prop :=
  match o with
  | Responded r =>
      r = serialise_response (ctx st')
      ∧ metrics st' =
          <[dispatch ep := update_metrics (ctx st') (get_metrics ep ms)]> ms
  | _ => metrics st' = ms
  end.

(** The request reaches the executor and each of its 30 attempts
    conflicts. *)
Definition exhausts (tx : Tx E) (caller_id : N)
    (pre_exec : option (PreExec E)) (st : St E) : bool :=
  match auth_pipeline tx caller_id st with
  | inr (p, st1) =>
      match dispatch_decision p st1 with
      | ExecuteLocally =>
          conflicts_throughout max_attempts p pre_exec tx (enter_executor st1)
      | ForwardOrRedirect => false
      end
  | inl _ => false
  end.

(** The signatures table name is the same and every cached verifier is
    still cached, unchanged. *)
Definition cache_kept (f f' : Frontend E) : Prop :=
  client_signatures_name f' = client_signatures_name f
  ∧ ∀ (cid : N) (v : Verifier E),
      verifiers f !! cid = Some v → verifiers f' !! cid = Some v.

(** Lines 463-471: what runs inside the [try] before the endpoint, the
    pre-exec hook and the record of the client signature. *)
Definition before_endpoint (p : Passed) (pre_exec : option (PreExec E))
    (tx : Tx E) (st : St E) : option Exn * Tx E * St E :=
  let '(raised, tx, st) :=
    match pre_exec with
    | Some f =>
        let '(oe, tx, c) := f tx (ctx st) in
        (oe, tx, log EvPreExec (with_ctx (λ _, c) st))
    | None => (None, tx, st)
    end in
  match raised with
  | Some e => (Some e, tx, st)
  | None =>
      if p_should_record p then
        match p_signed_request p with
        | Some signed_request =>
            record_client_signature tx (p_caller_id p) signed_request st
        | None => (Some (StdException "bad optional access"), tx, st)
        end
      else (None, tx, st)
  end.

(** [raised_in_try p pre_exec tx st e tx']: in the iteration that starts in
    [st] with the transaction [tx], the exception [e] leaves the [try] of
    lines 461-520, with the transaction at [tx']: it is raised by the
    pre-exec hook or the signature record, by the execution of the endpoint,
    or by [commit]. *)
Inductive raised_in_try (p : Passed) (pre_exec : option (PreExec E))
    (tx : Tx E) (st : St E) (e : Exn) : Tx E → Prop :=
| raised_before tx0 st0 :
    before_endpoint p pre_exec tx (log EvAttempt st) = (Some e, tx0, st0) →
    raised_in_try p pre_exec tx st e tx0
| raised_by_endpoint tx0 st0 c tx1 w :
    before_endpoint p pre_exec tx (log EvAttempt st) = (None, tx0, st0) →
    execute_endpoint E (p_endpoint p) (ctx st0) tx0 (p_caller_id p) (world st0)
      = (Some e, c, tx1, w) →
    raised_in_try p pre_exec tx st e tx1
| raised_by_commit tx0 st0 c tx1 w tx2 w2 :
    before_endpoint p pre_exec tx (log EvAttempt st) = (None, tx0, st0) →
    execute_endpoint E (p_endpoint p) (ctx st0) tx0 (p_caller_id p) (world st0)
      = (None, c, tx1, w) →
    should_apply_writes c = true →
    commit E tx1 w = (inl e, tx2, w2) →
    raised_in_try p pre_exec tx st e tx2.

(** [lookup_forwarded_caller_cert] (lines 824-828) is handed the context
    and may write to it; the default of the class changes nothing.  This
    says that an override leaves the session's certificate alone. *)
Definition keeps_caller_cert : Prop :=
  ∀ (c : RpcContext) (tx : Tx E) (w : World E),
    caller_cert (session (lookup_forwarded_caller_cert E c tx w).2)
      = caller_cert (session c).

End Runs.

Arguments keeps_caller_cert : clear implicits.

(** ** The other entry points

    [process_forwarded], [process_bft] and [tick] (lines 716-819) call a few
    more members of the collaborators; they are the fields of [Ext]. *)

Record Ext (E : Env) := {
  Statistics : Type;
  (* kv::Tx::get_version and the put into the AFT requests map, which reads
     tx.get_req_id() *)
  get_version : Tx E → Z;
  put_aft_request :
    N → list Byte.byte → list Byte.byte → Tx E → option Exn * Tx E;
  (* kv::Consensus::Statistics and kv::Consensus::get_statistics *)
  default_statistics : Statistics;
  consensus_get_statistics : N → World E → Statistics;
  set_statistics_tx_count : N → Statistics → Statistics;
  (* EndpointRegistry::tick *)
  endpoints_tick : Z → Statistics → World E → World E }.

Arguments Statistics {E} _.
Arguments get_version {E} _ _.
Arguments put_aft_request {E} _ _ _ _ _.
Arguments default_statistics {E} _.
Arguments consensus_get_statistics {E} _ _ _.
Arguments set_statistics_tx_count {E} _ _ _.
Arguments endpoints_tick {E} _ _ _ _.

(** What an entry point that returns bytes hands back: its value, an
    exception that leaves it, the abort of the process, or a dereference of
    an empty optional or null pointer, of which C++ says nothing. *)
Inductive Reply (A : Type) :=
| Replied (a : A)
| Threw (what : string)
| ProcessAborted
| Undefined.

Arguments Replied {A} _.
Arguments Threw {A} _.
Arguments ProcessAborted {A}.
Arguments Undefined {A}.

Section Facade.
Context {E : Env} (X : Ext E).

(** The [PreExec] of [process_bft], lines 736-745. *)
Definition bft_pre_exec : PreExec E :=
  λ tx c,
    match original_caller (session c) with
    | Some caller_id =>
        let '(oe, tx) :=
          put_aft_request X caller_id (caller_cert (session c))
            (serialised_request c) tx in
        (oe, tx, c)
    | None => (Some (StdException "bad optional access"), tx, c)
    end.

(** Lines 720-752. *)
Definition process_bft (st : St E) : Reply (Response * Z) * St E :=
  let tx := create_tx E (world st) in
  let '(opened, st) := is_open tx st in
  if negb opened then (Threw "Transaction failed", st)
  else
    let st := update_consensus st in
    match original_caller (session (ctx st)) with
    | None => (Undefined, st)
    | Some caller_id =>
        let '(rep, tx, st) :=
          process_command tx caller_id (Some bft_pre_exec) st in
        match rep with
        | Responded r => (Replied (r, get_version X tx), st)
        | Pending => (Threw "bad optional access", st)
        | Aborted => (ProcessAborted, st)
        | Uncaught what => (Threw what, st)
        end
    end.

(** Lines 771-801. *)
Definition process_forwarded (st : St E) : Reply Response * St E :=
  match original_caller (session (ctx st)) with
  | None =>
      (Threw
         "Processing forwarded command with unitialised forwarded context",
       st)
  | Some caller_id =>
      let st := update_consensus st in
      match consensus (fe st) with
      | None => (Undefined, st)
      | Some cs =>
          if bool_decide (consensus_type E cs (world st) = CFT) then
            let tx := create_tx E (world st) in
            let '(rep, _, st) := process_command tx caller_id None st in
            match rep with
            | Responded r => (Replied r, st)
            | Pending => (Threw "Forwarded RPC cannot be forwarded", st)
            | Aborted => (ProcessAborted, st)
            | Uncaught what => (Threw what, st)
            end
          else
            let '(rep, st) := process_bft st in
            match rep with
            | Replied (r, _) => (Replied r, st)
            | Threw what => (Threw what, st)
            | ProcessAborted => (ProcessAborted, st)
            | Undefined => (Undefined, st)
            end
      end
  end.

(** The statistics [tick] hands to the registry. *)
Definition tick_statistics (st : St E) : Statistics X :=
  set_statistics_tx_count X (tx_count (fe st))
    match consensus (fe st) with
    | Some cs => consensus_get_statistics X cs (world st)
    | None => default_statistics X
    end.

(** Lines 803-819. *)
Definition tick (elapsed : Z) (st : St E) : St E :=
  let st := update_consensus st in
  let stats := tick_statistics st in
  let st := with_world (endpoints_tick X elapsed stats) st in
  with_fe (set_tx_count 0%N) st.

End Facade.

(** ** Everything the frontend can do *)

Section Reach.
Context {E : Env} (X : Ext E).

(** Lines 590-594; the pointer is modelled by whether it is set. *)
Definition set_cmd_forwarder (forwarder : bool) (st : St E) : St E :=
  with_fe (λ f,
    {| verifiers := verifiers f; is_open_ := is_open_ f;
       client_signatures_name := client_signatures_name f;
       consensus := consensus f; cmd_forwarder := forwarder;
       history := history f; tx_count := tx_count f;
       request_storing_disabled := request_storing_disabled f;
       service_identity := service_identity f |}) st.

(** Lines 32-35. *)
Definition disable_request_storing (st : St E) : St E :=
  with_fe (λ f,
    {| verifiers := verifiers f; is_open_ := is_open_ f;
       client_signatures_name := client_signatures_name f;
       consensus := consensus f; cmd_forwarder := cmd_forwarder f;
       history := history f; tx_count := tx_count f;
       request_storing_disabled := true;
       service_identity := service_identity f |}) st.

(** One step of the frontend's life: a call of a public member, a call of
    a private member or of one of the parts [process_command] is made of
    (so that what follows a verification inside a run is a sequence of
    steps), a change the caller makes to the request context it shares with
    the frontend (a new request included), or a change of the
    collaborators' state ([update_merkle_tree], lines 754-760, is one;
    [set_sig_intervals], lines 583-588, writes fields that are not
    modelled and is no step at all). *)
Inductive step : St E → St E → Prop :=
| step_ctx st (f : RpcContext → RpcContext) : step st (with_ctx f st)
| step_world st (f : World E → World E) : step st (with_world f st)
| step_open st (identity : option Pem) : step st (open identity st)
| step_is_open st (tx : Tx E) : step st (is_open tx st).2
| step_process st : step st (process st).2
| step_process_bft st : step st (process_bft X st).2
| step_process_forwarded st : step st (process_forwarded X st).2
| step_tick st (elapsed : Z) : step st (tick X elapsed st)
| step_set_cmd_forwarder st (forwarder : bool) :
    step st (set_cmd_forwarder forwarder st)
| step_disable_request_storing st : step st (disable_request_storing st)
| step_update_consensus st : step st (update_consensus st)
| step_update_history st : step st (update_history st)
| step_verify st (cert : list Byte.byte) (cid : N) (sr : SignedReq) :
    step st (verify_client_signature cert cid sr st).2
| step_process_command st (tx : Tx E) (caller_id : N)
    (pre_exec : option (PreExec E)) :
    step st (process_command tx caller_id pre_exec st).2
| step_update_metrics st (ep : EndpointDefinition) :
    step st (update_metrics_of ep st)
| step_jwt_gate st (ep : EndpointDefinition) (tx : Tx E) :
    step st (exit_state (jwt_gate ep tx st))
| step_executor st (p : Passed) (pre_exec : option (PreExec E)) (tx : Tx E) :
    step st (executor p pre_exec tx st).2
| step_forward st (ep : EndpointDefinition) (caller_id : N) :
    step st (forward_or_redirect_json ep caller_id st).2.

(** [later st st']: the frontend got from [st] to [st'] in any number of
    steps. *)
Inductive later (st : St E) : St E → Prop :=
| later_now : later st st
| later_step st' st'' : later st st' → step st' st'' → later st st''.

End Reach.

(** ** More observations *)

(** The part of the frontend an event belongs to. *)
Inductive Phase := Handles | Lifecycle | Gates | Forwarding | Execution | Distribution.

Definition phase (e : Event) : Phase :=
  match e with
  | EvSetConsensus _ | EvSetHistory _ => Handles
  | EvInitHandlers => Lifecycle
  | EvFindEndpoint | EvGetAllowedVerbs | EvIdentityCheck _
  | EvVerifyClientSignature _ _ => Gates
  | EvForwardCommand _ _ _ => Forwarding
  | EvAttempt | EvPreExec | EvRecordClientSignature _ | EvExecuteEndpoint _
  | EvCommit | EvTxReset | EvTryEmitSignature | EvAbort => Execution
  | EvAddRequest _ | EvSetReqId _ => Distribution
  end.

#[global] Instance Phase_eq_dec : EqDecision Phase.
Proof. solve_decision. Defined.

Definition in_phase (ph : Phase) (e : Event) : bool := bool_decide (phase e = ph).

(** Every event of [l] belongs to one of the phases [phs]. *)
Definition within (phs : list Phase) (l : list Event) : bool :=
  forallb (λ e, bool_decide (phase e ∈ phs)) l.

Definition count_phase (ph : Phase) (l : list Event) : nat :=
  length (List.filter (in_phase ph) l).

Section MoreRuns.
Context {E : Env}.

(** [lookup_forwarded_caller_cert] may replace the caller's certificate in
    the context; the overrides of the class leave the rest of the session
    alone.  This says so for [original_caller]. *)
Definition keeps_original_caller : Prop :=
  ∀ (c : RpcContext) (tx : Tx E) (w : World E),
    original_caller (session (lookup_forwarded_caller_cert E c tx w).2)
      = original_caller (session c).

(** The transaction and state after [n] iterations that all conflict. *)
Fixpoint after_conflicts (n : nat) (p : Passed) (pre_exec : option (PreExec E))
    (tx : Tx E) (st : St E) : Tx E * St E :=
  match n with
  | O => (tx, st)
  | S n =>
      match attempt p pre_exec tx st with
      | Retry tx st => after_conflicts n p pre_exec tx st
      | Done _ tx st => (tx, st)
      end
  end.

(** The request gets to the executor (line 450). *)
Definition reaches_executor (tx : Tx E) (caller_id : N) (st : St E) : bool :=
  match auth_pipeline tx caller_id st with
  | inr (p, st1) =>
      match dispatch_decision p st1 with
      | ExecuteLocally => true
      | ForwardOrRedirect => false
      end
  | inl _ => false
  end.

(** The calls of the lifecycle, and everything else the frontend serves. *)
Inductive Call :=
| CallOpen (identity : option Pem)
| CallIsOpen (tx : Tx E)
| CallProcess (c : RpcContext)
| CallProcessCommand (c : RpcContext) (tx : Tx E) (caller_id : N)
    (pre_exec : option (PreExec E)).

Definition call (k : Call) (st : St E) : St E :=
  match k with
  | CallOpen identity => open identity st
  | CallIsOpen tx => (is_open tx st).2
  | CallProcess c => (process (with_ctx (λ _, c) st)).2
  | CallProcessCommand c tx caller_id pre_exec =>
      (process_command tx caller_id pre_exec (with_ctx (λ _, c) st)).2
  end.

(** A sequence of calls, oldest first. *)
Definition calls_ (ks : list Call) (st : St E) : St E :=
  fold_left (λ st k, call k st) ks st.

(** 1 when the frontend is open, 0 when it is not. *)
Definition open_bit (st : St E) : nat := if is_open_ (fe st) then 1%nat else 0%nat.

(** The condition of lines 663-668, on the state [process] has after the
    lifecycle gate. *)
Definition should_bft_distribute (tx : Tx E) (st : St E) : bool :=
  match consensus (fe st) with
  | Some cs =>
      bool_decide (consensus_type E cs (world st) = BFT) &&
      negb match find_endpoint E tx (ctx st) (world st) with
           | Some ep => execute_locally (properties ep)
           | None => false
           end &&
      (execute_on_node (ctx st) || consensus_is_primary E cs (world st))
  | None => false
  end.

(** The fields of the frontend that only [open], [is_open] and the setters
    of the class write are the same in [f] and [f']. *)
Definition config_kept (f f' : Frontend E) : Prop :=
  is_open_ f' = is_open_ f
  ∧ service_identity f' = service_identity f
  ∧ consensus f' = consensus f
  ∧ cmd_forwarder f' = cmd_forwarder f
  ∧ client_signatures_name f' = client_signatures_name f
  ∧ request_storing_disabled f' = request_storing_disabled f.

(** Requests served one after the other through [process_command], each
    with its own context and transaction; [executed] counts those that get
    to the executor. *)
Definition Request : Type := RpcContext * Tx E * N * option (PreExec E).

Definition serve_one (q : Request) (st : St E) : St E :=
  let '(c, tx, caller_id, pre_exec) := q in
  (process_command tx caller_id pre_exec (with_ctx (λ _, c) st)).2.

Fixpoint serve (qs : list Request) (st : St E) : St E :=
  match qs with
  | [] => st
  | q :: qs => serve qs (serve_one q st)
  end.

Fixpoint executed (qs : list Request) (st : St E) : nat :=
  match qs with
  | [] => 0
  | (c, tx, caller_id, pre_exec) :: qs =>
      ((if reaches_executor tx caller_id (with_ctx (λ _, c) st) then 1 else 0)
       + executed qs (serve_one (c, tx, caller_id, pre_exec) st))%nat
  end.

End MoreRuns.

Arguments keeps_original_caller : clear implicits.

(** ** Concrete collaborators

    A scripted environment for running the frontend on concrete requests.
    The world counts the endpoint executions so far; a transaction carries
    its commit version, commit term and read version; a verifier is the
    certificate it was made from. *)

Module Scenario.

Record Script := {
  s_endpoint : option EndpointDefinition;
  s_allowed_verbs : list string;
  s_consensus : option ConsensusType;
  s_is_primary : bool;
  s_primary : N;
  s_has_certs : bool;
  s_digest_caller : N;
  s_resolve : option Pem;
  s_exec : nat → option Exn;
  s_commit : nat → Exn + CommitSuccess;
  s_versions : Z * Z * Z;
  s_forward : bool;
  s_nodes : N → option NodeInfo;
  s_accepts : list Byte.byte → bool }.

Definition env (s : Script) : Env := {|
  World := nat;
  Tx := Z * Z * Z;
  Verifier := list Byte.byte;
  INVALID_ID := 18446744073709551615%N;
  NoNode := 18446744073709551615%N;
  NoVersion := -9223372036854775808;
  required_signature_headers := ["(request-target)"; "digest"];
  create_tx := λ _, (0, 0, 0);
  get_consensus := λ _, match s_consensus s with Some _ => Some 1%N | None => None end;
  get_history := λ _, None;
  commit := λ tx w,
    (s_commit s w, match s_commit s w with inr OK => s_versions s | _ => tx end, w);
  commit_version := λ tx, tx.1.1;
  commit_term := λ tx, tx.1.2;
  get_read_version := λ tx, tx.2;
  reset := λ tx, tx;
  put_client_signature := λ _ _ _ tx, (None, tx);
  nodes_get := λ _ n, s_nodes s n;
  service_get_globally_committed := λ _, None;
  jwt_keys_get := λ _ _, None;
  jwt_key_issuer_get := λ _ _, None;
  consensus_primary := λ _ _, s_primary s;
  consensus_active_nodes := λ _ _, [];
  consensus_is_primary := λ _ _, s_is_primary s;
  consensus_type := λ _ _, default CFT (s_consensus s);
  consensus_get_committed_seqno := λ _ _, 0;
  try_emit_signature := λ _ w, w;
  add_request := λ _ _ _ _ _ _ w, (true, w);
  find_endpoint := λ _ _ _, s_endpoint s;
  get_allowed_verbs := λ _ _, s_allowed_verbs s;
  get_caller_id := λ _ _ _, 1%N;
  get_caller_id_by_digest := λ _ _ _, s_digest_caller s;
  has_certs := λ _, s_has_certs s;
  execute_endpoint := λ _ c tx _ w, (s_exec s w, c, tx, S w);
  set_consensus := λ _ w, w;
  set_history := λ _ w, w;
  init_handlers := λ w, w;
  invalid_caller_error_message := base_invalid_caller_error_message;
  lookup_forwarded_caller_cert := base_lookup_forwarded_caller_cert;
  resolve_caller_id := λ _ _ _, s_resolve s;
  forward_command := λ _ _ _ _ _ w, (s_forward s, w);
  make_verifier := λ cert, cert;
  verifier_verify := λ v _ _ _, s_accepts s v;
  extract_token := λ _, (None, "Missing authorization header");
  validate_token_signature := λ _ _, false |}.

Definition plain_properties : EndpointProperties := {|
  require_client_identity := false;
  require_client_signature := false;
  require_jwt_authentication := false;
  execute_locally := false;
  forwarding_required := Never |}.

Definition log_endpoint (fr : ForwardingRequired) : EndpointDefinition := {|
  dispatch := ("/log", "POST");
  properties := {|
    require_client_identity := false;
    require_client_signature := false;
    require_jwt_authentication := false;
    execute_locally := false;
    forwarding_required := fr |} |}.

Definition a_signed_request : SignedReq := {|
  sig := [Byte.x01]; req := [Byte.x02]; md := 6%N; key_id := "k" |}.

Definition a_session (forwarded : option N) : Session := {|
  caller_cert := [Byte.x0a];
  original_caller := forwarded;
  is_forwarding := false;
  client_session_id := 0%N |}.

Definition a_request (forwarded : option N) (signed : option SignedReq)
    (on_node : bool) : RpcContext := {|
  session := a_session forwarded;
  method := "/log";
  signed_request := signed;
  request_headers := [];
  request_index := 0%N;
  serialised_request := [];
  frame_format := 0%N;
  execute_on_node := on_node;
  is_create_request := false;
  apply_writes := true;
  response := {| status := 200; headers := ∅; body := "";
                 seqno := None; view := None; global_commit := None |} |}.

(** A script in which the endpoint ["/log"] exists and every commit
    succeeds at version 42 in term 3. *)
Definition script (fr : ForwardingRequired) (cons : option ConsensusType)
    (commits : nat → Exn + CommitSuccess) (execs : nat → option Exn)
    (resolve : option Pem) (accepts : list Byte.byte → bool) : Script := {|
  s_endpoint := Some (log_endpoint fr);
  s_allowed_verbs := [];
  s_consensus := cons;
  s_is_primary := false;
  s_primary := 2%N;
  s_has_certs := true;
  s_digest_caller := 7%N;
  s_resolve := resolve;
  s_exec := execs;
  s_commit := commits;
  s_versions := (42, 3, 41);
  s_forward := true;
  s_nodes := λ _, None;
  s_accepts := accepts |}.

Definition a_frontend (s : Script) (opened : bool) (forwarder : bool)
    : Frontend (env s) := {|
  verifiers := ∅;
  is_open_ := opened;
  client_signatures_name := "ccf.signatures";
  consensus := match s_consensus s with Some _ => Some 1%N | None => None end;
  cmd_forwarder := forwarder;
  history := None;
  tx_count := 0%N;
  request_storing_disabled := false;
  service_identity := None |}.

Definition a_state (s : Script) (opened forwarder : bool) (c : RpcContext)
    : St (env s) := {|
  fe := a_frontend s opened forwarder;
  ctx := c;
  metrics := ∅;
  world := 0%nat;
  trace := [] |}.

Definition tx0 : Z * Z * Z := (0, 0, 0).

Definition accept_all : list Byte.byte → bool := λ _, true.
Definition reject_all : list Byte.byte → bool := λ _, false.
Definition never_raises : nat → option Exn := λ _, None.
Definition always_ok : nat → Exn + CommitSuccess := λ _, inr OK.

(** Every commit conflicts. *)
Definition all_conflict : Script :=
  script Never None (λ _, inr CONFLICT) never_raises None accept_all.

(** No consensus; the commit succeeds. *)
Definition standalone : Script :=
  script Never None always_ok never_raises None accept_all.

(** A CFT backup serving an endpoint that is never forwarded. *)
Definition cft_backup : Script :=
  script Never (Some CFT) always_ok never_raises None accept_all.

(** A BFT backup serving an endpoint that is always forwarded. *)
Definition bft_backup : Script :=
  script Always (Some BFT) always_ok never_raises None accept_all.

(** The signer is known; [resolve_caller_id] is the default of the class. *)
Definition signer_unresolved : Script :=
  script Never None always_ok never_raises None accept_all.

(** The signer is known and [resolve_caller_id] yields a certificate. *)
Definition signer_resolved : Script :=
  script Never None always_ok never_raises
    (Some {| raw := [Byte.x0b] |}) accept_all.

(** The verifier rejects every signature. *)
Definition bad_signature : Script :=
  script Never None always_ok never_raises None reject_all.

(** The first execution races a compaction, the second one goes through. *)
Definition compaction_race : Script :=
  script Never None always_ok
    (λ n, match n with
          | O => Some (CompactedVersionConflict "compacted")
          | _ => None
          end)
    None accept_all.

(** The endpoint raises an [RpcException]. *)
Definition teapot : Script :=
  script Never None always_ok (λ _, Some (RpcException 418 "teapot"))
    None accept_all.

(** The verifier made from the certificate [0a] accepts, any other
    rejects. *)
Definition only_first : Script :=
  script Never None always_ok never_raises None
    (λ v, bool_decide (v = [Byte.x0a])).

(** A BFT backup whose nodes table knows the primary, node 2. *)
Definition with_directory : Script := {|
  s_endpoint := Some (log_endpoint Always);
  s_allowed_verbs := [];
  s_consensus := Some BFT;
  s_is_primary := false;
  s_primary := 2%N;
  s_has_certs := true;
  s_digest_caller := 7%N;
  s_resolve := None;
  s_exec := never_raises;
  s_commit := always_ok;
  s_versions := (42, 3, 41);
  s_forward := true;
  s_nodes := λ n,
    if bool_decide (n = 2%N)
    then Some {| pubhost := "10.0.0.2"; rpcport := "8080" |} else None;
  s_accepts := accept_all |}.

(** A CFT backup on which the commit answers [OK] without a version (the
    transaction's version is [NoVersion]). *)
Definition versionless_commit : Script := {|
  s_endpoint := Some (log_endpoint Never);
  s_allowed_verbs := [];
  s_consensus := Some CFT;
  s_is_primary := false;
  s_primary := 2%N;
  s_has_certs := true;
  s_digest_caller := 7%N;
  s_resolve := None;
  s_exec := never_raises;
  s_commit := always_ok;
  s_versions := (-9223372036854775808, 3, 41);
  s_forward := true;
  s_nodes := λ _, None;
  s_accepts := accept_all |}.

Definition plain_request : RpcContext := a_request None None false.
Definition signed_request_ : RpcContext :=
  a_request None (Some a_signed_request) false.
Definition forwarded_request : RpcContext := a_request (Some 5%N) None false.
Definition on_node_request : RpcContext := a_request None None true.

(** What the gates hand over for an unsigned request. *)
Definition unsigned_pass (fr : ForwardingRequired) (prim : bool) : Passed := {|
  p_endpoint := log_endpoint fr;
  p_caller_id := 1%N;
  p_is_primary := prim;
  p_signed_request := None;
  p_should_record := false |}.

(** Every commit fails to serialise. *)
Definition unserialisable : Script :=
  script Never None (λ _, inl (KvSerialiserException "ser")) never_raises
    None accept_all.

(** What the gates hand over for a signed request on a primary. *)
Definition signed_pass : Passed := {|
  p_endpoint := log_endpoint Never;
  p_caller_id := 7%N;
  p_is_primary := true;
  p_signed_request := Some a_signed_request;
  p_should_record := true |}.

End Scenario.

(** ** A deployment

    A second concrete set of collaborators: those of [Scenario], with a
    history, a service record and a JWT key store that can be scripted,
    and the members [process_bft] and [tick] call. *)

Module Deployment.

Record Site := {
  base : Scenario.Script;
  t_history : option N;
  t_adds : bool;
  t_service : option ServiceInfo;
  t_token : option JwtToken * string;
  t_key : option (list Byte.byte);
  t_issuer : option string;
  t_valid : bool }.

Definition site_env (d : Site) : Env :=
  let s := base d in {|
  World := nat;
  Tx := Z * Z * Z;
  Verifier := list Byte.byte;
  INVALID_ID := 18446744073709551615%N;
  NoNode := 18446744073709551615%N;
  NoVersion := -9223372036854775808;
  required_signature_headers := ["(request-target)"; "digest"];
  create_tx := λ _, (0, 0, 0);
  get_consensus :=
    λ _, match Scenario.s_consensus s with Some _ => Some 1%N | None => None end;
  get_history := λ _, t_history d;
  commit := λ tx w,
    (Scenario.s_commit s w,
     match Scenario.s_commit s w with
     | inr OK => Scenario.s_versions s
     | _ => tx
     end, w);
  commit_version := λ tx, tx.1.1;
  commit_term := λ tx, tx.1.2;
  get_read_version := λ tx, tx.2;
  reset := λ tx, tx;
  put_client_signature := λ _ _ _ tx, (None, tx);
  nodes_get := λ _ n, Scenario.s_nodes s n;
  service_get_globally_committed := λ _, t_service d;
  jwt_keys_get := λ _ _, t_key d;
  jwt_key_issuer_get := λ _ _, t_issuer d;
  consensus_primary := λ _ _, Scenario.s_primary s;
  consensus_active_nodes := λ _ _, [];
  consensus_is_primary := λ _ _, Scenario.s_is_primary s;
  consensus_type := λ _ _, default CFT (Scenario.s_consensus s);
  consensus_get_committed_seqno := λ _ _, 0;
  try_emit_signature := λ _ w, w;
  add_request := λ _ _ _ _ _ _ w, (t_adds d, w);
  find_endpoint := λ _ _ _, Scenario.s_endpoint s;
  get_allowed_verbs := λ _ _, Scenario.s_allowed_verbs s;
  get_caller_id := λ _ _ _, 1%N;
  get_caller_id_by_digest := λ _ _ _, Scenario.s_digest_caller s;
  has_certs := λ _, Scenario.s_has_certs s;
  execute_endpoint := λ _ c tx _ w, (Scenario.s_exec s w, c, tx, S w);
  set_consensus := λ _ w, w;
  set_history := λ _ w, w;
  init_handlers := λ w, w;
  invalid_caller_error_message := base_invalid_caller_error_message;
  lookup_forwarded_caller_cert := base_lookup_forwarded_caller_cert;
  resolve_caller_id := λ _ _ _, Scenario.s_resolve s;
  forward_command := λ _ _ _ _ _ w, (Scenario.s_forward s, w);
  make_verifier := λ cert, cert;
  verifier_verify := λ v _ _ _, Scenario.s_accepts s v;
  extract_token := λ _, t_token d;
  validate_token_signature := λ _ _, t_valid d |}.

(** Statistics are a pair: the transaction count and the committed world. *)
Definition site_ext (d : Site) : Ext (site_env d) :=
  Build_Ext (site_env d)
    (* Statistics *) (N * nat)
    (* get_version *) (λ tx : Z * Z * Z, tx.1.1)
    (* put_aft_request *) (λ _ _ _ (tx : Z * Z * Z), (None, tx))
    (* default_statistics *) (0%N, 0%nat)
    (* consensus_get_statistics *) (λ _ (w : nat), (0%N, w))
    (* set_statistics_tx_count *) (λ n stats, (n, stats.2))
    (* endpoints_tick *) (λ _ _ (w : nat), w).

Definition site_frontend (d : Site) (opened forwarder : bool)
    (identity : option Pem) : Frontend (site_env d) := {|
  verifiers := ∅;
  is_open_ := opened;
  client_signatures_name := "ccf.signatures";
  consensus :=
    match Scenario.s_consensus (base d) with Some _ => Some 1%N | None => None end;
  cmd_forwarder := forwarder;
  history := None;
  tx_count := 0%N;
  request_storing_disabled := false;
  service_identity := identity |}.

Definition site_state (d : Site) (opened forwarder : bool)
    (identity : option Pem) (c : RpcContext) : St (site_env d) := {|
  fe := site_frontend d opened forwarder identity;
  ctx := c;
  metrics := ∅;
  world := 0%nat;
  trace := [] |}.

(** A site that adds nothing to the script. *)
Definition bare (s : Scenario.Script) : Site := {|
  base := s;
  t_history := None;
  t_adds := true;
  t_service := None;
  t_token := (None, "Missing authorization header");
  t_key := None;
  t_issuer := None;
  t_valid := false |}.

(** An endpoint ["/log"] with the given requirements. *)
Definition guarded_endpoint (identity signature jwt : bool)
    (fr : ForwardingRequired) : EndpointDefinition := {|
  dispatch := ("/log", "POST");
  properties := {|
    require_client_identity := identity;
    require_client_signature := signature;
    require_jwt_authentication := jwt;
    execute_locally := false;
    forwarding_required := fr |} |}.

Definition serving (ep : option EndpointDefinition) (verbs : list string)
    (cons : option ConsensusType) (prim : bool)
    (commits : nat → Exn + CommitSuccess) : Scenario.Script := {|
  Scenario.s_endpoint := ep;
  Scenario.s_allowed_verbs := verbs;
  Scenario.s_consensus := cons;
  Scenario.s_is_primary := prim;
  Scenario.s_primary := 2%N;
  Scenario.s_has_certs := true;
  Scenario.s_digest_caller := 7%N;
  Scenario.s_resolve := None;
  Scenario.s_exec := Scenario.never_raises;
  Scenario.s_commit := commits;
  Scenario.s_versions := (42, 3, 41);
  Scenario.s_forward := true;
  Scenario.s_nodes := λ _, None;
  Scenario.s_accepts := Scenario.accept_all |}.

(** No endpoint matches; the path allows GET and POST. *)
Definition no_such_path : Site :=
  bare (serving None ["GET"; "POST"] None false Scenario.always_ok).

(** The endpoint requires a client identity. *)
Definition members_only : Site :=
  bare (serving (Some (guarded_endpoint true false false Never)) [] None false
          Scenario.always_ok).

(** The endpoint requires a client signature. *)
Definition signed_only : Site :=
  bare (serving (Some (guarded_endpoint false true false Never)) [] None false
          Scenario.always_ok).

(** The endpoint requires a JWT; the request carries a valid one. *)
Definition a_token : JwtToken :=
  {| kid := "key-1"; jwt_header := "h"; jwt_payload := "p" |}.

Definition with_jwt : Site := {|
  base := serving (Some (guarded_endpoint false false true Never)) [] None false
            Scenario.always_ok;
  t_history := None;
  t_adds := true;
  t_service := None;
  t_token := (Some a_token, "");
  t_key := Some [Byte.x07];
  t_issuer := Some "issuer";
  t_valid := true |}.

(** A CFT backup with an endpoint that is always forwarded. *)
Definition cft_forwarding : Site :=
  bare (serving (Some (guarded_endpoint false false false Always)) []
          (Some CFT) false Scenario.always_ok).

(** A BFT primary with a history that takes requests. *)
Definition bft_primary : Site := {|
  base := serving (Some (guarded_endpoint false false false Never)) []
            (Some BFT) true Scenario.always_ok;
  t_history := Some 9%N;
  t_adds := true;
  t_service := None;
  t_token := (None, "Missing authorization header");
  t_key := None;
  t_issuer := None;
  t_valid := false |}.

(** The commits made in worlds 1 and 2 conflict, the next one succeeds. *)
Definition two_conflicts : Site :=
  bare (serving (Some (guarded_endpoint false false false Never)) [] None false
          (λ w, match w with
                | 1%nat | 2%nat => inr CONFLICT
                | _ => inr OK
                end)).

(** The service is recorded as open under the identity the node holds. *)
Definition the_identity : Pem := {| raw := [Byte.x53] |}.

Definition opening : Site := {|
  base := serving (Some (guarded_endpoint false false false Never)) [] None false
            Scenario.always_ok;
  t_history := None;
  t_adds := true;
  t_service := Some {| service_cert := the_identity; service_status := OPEN |};
  t_token := (None, "Missing authorization header");
  t_key := None;
  t_issuer := None;
  t_valid := false |}.

(** The endpoint requires a client identity and a client signature. *)
Definition members_signed_only : Site :=
  bare (serving (Some (guarded_endpoint true true false Never)) [] None false
          Scenario.always_ok).

End Deployment.

(** ** Properties *)

Section Properties.
Context {E : Env}.

Implicit Types (st : St E) (tx : Tx E) (p : Passed) (pre_exec : option (PreExec E)).
Implicit Types (ep : EndpointDefinition).

(** *** Traces grow at the head *)

Lemma count_attempts_app (l k : list Event) :
  count_attempts (l ++ k) = (count_attempts l + count_attempts k)%nat.
Proof.
  induction l as [|e l IH]; [done|].
  destruct e; simpl; rewrite IH; done.
Qed.

Lemma verifications_app (l k : list Event) :
  verifications (l ++ k) = verifications l ++ verifications k.
Proof. apply omap_app. Qed.

Lemma callers_app (l k : list Event) : callers (l ++ k) = callers l ++ callers k.
Proof. apply omap_app. Qed.

Lemma quiet_nil c : quiet c [].
Proof. repeat split. constructor. Qed.

Lemma quiet_app c l k : quiet c l → quiet c k → quiet c (l ++ k).
Proof.
  intros (Hl1 & Hl2 & Hl3) (Hk1 & Hk2 & Hk3). repeat split.
  - rewrite count_attempts_app. lia.
  - rewrite verifications_app, Hl2, Hk2. done.
  - rewrite callers_app. apply Forall_app. done.
Qed.

Ltac quiet_events :=
  first [ by (exists []; split; [done | apply quiet_nil])
        | by (eexists [_]; split; [done | repeat split; repeat constructor])
        | by (eexists [_; _]; split; [done | repeat split; repeat constructor])
        | by (eexists [_; _; _]; split; [done | repeat split; repeat constructor])
        | by (eexists [_; _; _; _]; split;
              [done | repeat split; repeat constructor]) ].

Lemma run_endpoint_trace p pre_exec tx st :
  ∃ new, trace (run_endpoint p pre_exec tx st).2 = new ++ trace st
         ∧ quiet (p_caller_id p) new.
Proof.
  unfold run_endpoint, record_client_signature.
  repeat case_match; simplify_eq; simpl; quiet_events.
Qed.

Lemma try_block_trace p pre_exec tx st :
  ∃ new, trace (try_state (try_block p pre_exec tx st)) = new ++ trace st
         ∧ quiet (p_caller_id p) new.
Proof.
  unfold try_block.
  destruct (run_endpoint_trace p pre_exec tx st) as (new & Hnew & Hq).
  destruct (run_endpoint p pre_exec tx st) as [[oe tx1] st1]. simpl in Hnew.
  assert (∀ t2, (∃ k, t2 = k ++ trace st1 ∧ quiet (p_caller_id p) k) →
                ∃ k, t2 = k ++ trace st ∧ quiet (p_caller_id p) k) as Hstep.
  { intros t2 (k & Hk & Hqk). exists (k ++ new). split.
    - rewrite Hk, Hnew, app_assoc. done.
    - apply quiet_app; done. }
  unfold commit_ok, respond, update_metrics_of.
  repeat case_match; simplify_eq; simpl; apply Hstep; quiet_events.
Qed.

Lemma attempt_trace p pre_exec tx st :
  ∃ new, trace (attempt_state (attempt p pre_exec tx st)) = new ++ trace st
         ∧ count_attempts new = 1%nat ∧ verifications new = []
         ∧ Forall (λ c, c = p_caller_id p) (callers new).
Proof.
  unfold attempt.
  destruct (try_block_trace p pre_exec tx (log EvAttempt st))
    as (new & Hnew & Hc & Hv & Hf).
  assert (∀ k, quiet (p_caller_id p) k →
            count_attempts (k ++ new ++ [EvAttempt]) = 1%nat
            ∧ verifications (k ++ new ++ [EvAttempt]) = []
            ∧ Forall (λ c, c = p_caller_id p) (callers (k ++ new ++ [EvAttempt])))
    as Hstep.
  { intros k (Hk1 & Hk2 & Hk3). repeat split.
    - rewrite !count_attempts_app, Hk1, Hc. done.
    - rewrite !verifications_app, Hk2, Hv. done.
    - rewrite !callers_app. apply Forall_app; split; [done|].
      apply Forall_app; split; [done|]. constructor. }
  destruct (try_block p pre_exec tx (log EvAttempt st)) as [e tx1 st1|o tx1 st1|tx1 st1];
    simpl in Hnew.
  - destruct e; simpl; unfold respond, update_metrics_of; simpl.
    + exists ([EvTxReset] ++ new ++ [EvAttempt]). split.
      * rewrite Hnew. simpl. rewrite <- app_assoc. done.
      * apply Hstep. repeat split; repeat constructor.
    + exists ([] ++ new ++ [EvAttempt]). split.
      * rewrite Hnew. simpl. rewrite <- app_assoc. done.
      * apply Hstep, quiet_nil.
    + exists ([] ++ new ++ [EvAttempt]). split.
      * rewrite Hnew. simpl. rewrite <- app_assoc. done.
      * apply Hstep, quiet_nil.
    + exists ([EvAbort] ++ new ++ [EvAttempt]). split.
      * rewrite Hnew. simpl. rewrite <- app_assoc. done.
      * apply Hstep. repeat split; repeat constructor.
    + exists ([] ++ new ++ [EvAttempt]). split.
      * rewrite Hnew. simpl. rewrite <- app_assoc. done.
      * apply Hstep, quiet_nil.
  - exists ([] ++ new ++ [EvAttempt]). split.
    + simpl. rewrite Hnew. simpl. rewrite <- app_assoc. done.
    + apply Hstep, quiet_nil.
  - exists ([] ++ new ++ [EvAttempt]). split.
    + simpl. rewrite Hnew. simpl. rewrite <- app_assoc. done.
    + apply Hstep, quiet_nil.
Qed.

(** The loop starts at most [remaining] attempts. *)
Lemma attempt_loop_trace (remaining : nat) p pre_exec tx st :
  ∃ new, trace (attempt_loop remaining p pre_exec tx st).2 = new ++ trace st
         ∧ (count_attempts new ≤ remaining)%nat ∧ verifications new = []
         ∧ Forall (λ c, c = p_caller_id p) (callers new).
Proof.
  revert tx st. induction remaining as [|n IH]; intros tx st.
  - exists []. repeat split; simpl; [lia | constructor].
  - simpl. destruct (attempt_trace p pre_exec tx st) as (k & Hk & Hc & Hv & Hf).
    destruct (attempt p pre_exec tx st) as [tx1 st1|o tx1 st1]; simpl in Hk.
    + destruct (IH tx1 st1) as (k' & Hk' & Hc' & Hv' & Hf').
      exists (k' ++ k). repeat split.
      * rewrite Hk', Hk, app_assoc. done.
      * rewrite count_attempts_app. lia.
      * rewrite verifications_app, Hv, Hv'. done.
      * rewrite callers_app. apply Forall_app. done.
    + exists k. repeat split; [done | lia | done | done].
Qed.

Lemma try_block_keeps_metrics p pre_exec tx st :
  match try_block p pre_exec tx st with
  | Raised _ _ st' | Conflicted _ st' => metrics st' = metrics st
  | Returned _ _ _ => True
  end.
Proof.
  unfold try_block, run_endpoint, record_client_signature, commit_ok, respond.
  repeat case_match; simplify_eq; simpl; done.
Qed.

(** When every iteration conflicts the loop leaves through lines 564-567,
    having started [remaining] attempts and left the metrics alone. *)
Lemma attempt_loop_conflicts (remaining : nat) p pre_exec tx st :
  conflicts_throughout remaining p pre_exec tx st = true →
  ∃ tx' st',
    attempt_loop remaining p pre_exec tx st
      = ((conflict_exit st').1, tx', (conflict_exit st').2)
    ∧ metrics st' = metrics st
    ∧ count_attempts (trace st') = (remaining + count_attempts (trace st))%nat.
Proof.
  revert tx st. induction remaining as [|n IH]; intros tx st Hall.
  - exists tx, st. simpl. done.
  - simpl in Hall |- *.
    pose proof (try_block_keeps_metrics p pre_exec tx (log EvAttempt st)) as Hm.
    pose proof (attempt_trace p pre_exec tx st) as (k & Hk & Hc & _).
    unfold attempt in Hk |- *.
    destruct (try_block p pre_exec tx (log EvAttempt st))
      as [e tx1 st1|o tx1 st1|tx1 st1]; [destruct e| |]; try done.
    + destruct (IH _ _ Hall) as (tx' & st' & Hloop & Hmet & Hcount).
      exists tx', st'. split; [done|]. split.
      * rewrite Hmet. simpl. done.
      * rewrite Hcount. simpl attempt_state in Hk.
        rewrite Hk, count_attempts_app. simpl. lia.
    + destruct (IH _ _ Hall) as (tx' & st' & Hloop & Hmet & Hcount).
      exists tx', st'. split; [done|]. split.
      * rewrite Hmet. done.
      * rewrite Hcount. simpl attempt_state in Hk.
        rewrite Hk, count_attempts_app. simpl. lia.
Qed.

(** *** The gates *)

Lemma lookup_endpoint_inr tx st ep st1 :
  lookup_endpoint tx st = inr (ep, st1) →
  find_endpoint E tx (ctx st) (world st) = Some ep
  ∧ st1 = on_metrics ep incr_calls (log EvFindEndpoint st).
Proof.
  unfold lookup_endpoint. simpl.
  destruct (find_endpoint E tx (ctx st) (world st)) as [ep'|];
    [|destruct (get_allowed_verbs E (ctx st) (world st))]; simpl; intros H;
    simplify_eq. done.
Qed.

Lemma lookup_endpoint_inl tx st o st1 :
  lookup_endpoint tx st = inl (o, st1) →
  find_endpoint E tx (ctx st) (world st) = None
  ∧ metrics st1 = metrics st ∧ fe st1 = fe st ∧ world st1 = world st
  ∧ trace st1 = EvGetAllowedVerbs :: EvFindEndpoint :: trace st
  ∧ ∃ r, o = Responded r
         ∧ (status r = HTTP_STATUS_NOT_FOUND
            ∨ status r = HTTP_STATUS_METHOD_NOT_ALLOWED).
Proof.
  unfold lookup_endpoint, respond. simpl.
  destruct (find_endpoint E tx (ctx st) (world st)) as [ep'|];
    [|destruct (get_allowed_verbs E (ctx st) (world st))]; simpl; intros H;
    simplify_eq; repeat split; eauto.
Qed.

Lemma early_gates_trace tx (caller_id : N) st :
  ∃ new, trace (exit_state (early_gates tx caller_id st)) = new ++ trace st
         ∧ quiet (effective_caller tx caller_id st) new.
Proof.
  unfold early_gates, effective_caller, get_signed_request.
  destruct (lookup_endpoint tx st) as [[o st1]|[ep st1]] eqn:Hlook.
  - apply lookup_endpoint_inl in Hlook as (_ & _ & _ & _ & Ht & _).
    simpl. rewrite Ht. quiet_events.
  - apply lookup_endpoint_inr in Hlook as [_ ->].
    unfold identity_override, identity_gate, respond, update_metrics_of. simpl.
    repeat case_match; simplify_eq; simpl; quiet_events.
Qed.

Lemma early_gates_inr tx (caller_id : N) st ep sr c prim st1 :
  early_gates tx caller_id st = inr (ep, sr, c, prim, st1) →
  find_endpoint E tx (ctx st) (world st) = Some ep
  ∧ sr = get_signed_request (ctx st)
  ∧ c = effective_caller tx caller_id st
  ∧ prim = compute_is_primary st1
  ∧ fe st1 = fe st ∧ world st1 = world st
  ∧ metrics st1 = <[dispatch ep := incr_calls (get_metrics ep (metrics st))]> (metrics st).
Proof.
  unfold early_gates, effective_caller, get_signed_request.
  destruct (lookup_endpoint tx st) as [[o st0]|[ep0 st0]] eqn:Hlook; [done|].
  apply lookup_endpoint_inr in Hlook as [Hfind ->].
  unfold identity_override, identity_gate, respond, update_metrics_of. simpl.
  repeat case_match; simplify_eq; simpl; intros; simplify_eq; done.
Qed.

Lemma signature_gate_trace ep (sr : option SignedReq) (c : N) (prim : bool) st :
  ∃ new, trace (exit_state (signature_gate ep sr c prim st)) = new ++ trace st
         ∧ count_attempts new = 0%nat
         ∧ Forall (λ c', c' = c) (callers new)
         ∧ verifications new =
             if bool_decide (is_Some sr) && must_verify st
             then [(caller_cert (session (ctx st)), c)] else [].
Proof.
  unfold signature_gate, verify_client_signature, respond, update_metrics_of.
  destruct sr as [sr|]; simpl; [|by (exists []; repeat split; constructor)].
  destruct (must_verify st); simpl;
    repeat case_match; simplify_eq; simpl;
    first [ by (exists []; repeat split; constructor)
          | by (eexists [_]; repeat split; repeat constructor) ].
Qed.

Lemma jwt_gate_trace ep tx st :
  trace (exit_state (jwt_gate ep tx st)) = trace st.
Proof.
  unfold jwt_gate, respond, update_metrics_of.
  repeat case_match; simplify_eq; simpl; done.
Qed.

Lemma forward_or_redirect_json_trace ep (c : N) st :
  ∃ new, trace (forward_or_redirect_json ep c st).2 = new ++ trace st
         ∧ quiet c new.
Proof.
  unfold forward_or_redirect_json, could_not_forward, respond, update_metrics_of.
  repeat case_match; simplify_eq; simpl; quiet_events.
Qed.

Lemma auth_pipeline_trace tx (caller_id : N) st :
  ∃ new, trace (exit_state (auth_pipeline tx caller_id st)) = new ++ trace st
         ∧ count_attempts new = 0%nat
         ∧ Forall (λ c, c = effective_caller tx caller_id st) (callers new).
Proof.
  unfold auth_pipeline.
  destruct (early_gates_trace tx caller_id st) as (k1 & Hk1 & Hc1 & _ & Hf1).
  destruct (early_gates tx caller_id st)
    as [[o st1]|[[[[ep sr] c] prim] st1]] eqn:Hearly; simpl in Hk1.
  - exists k1. done.
  - apply early_gates_inr in Hearly as (_ & _ & -> & _).
    destruct (signature_gate_trace ep sr (effective_caller tx caller_id st) prim st1)
      as (k2 & Hk2 & Hc2 & Hf2 & _).
    destruct (signature_gate ep sr (effective_caller tx caller_id st) prim st1)
      as [[o st2]|[rec st2]]; simpl in Hk2.
    + exists (k2 ++ k1). simpl. rewrite Hk2, Hk1, app_assoc. repeat split.
      * rewrite count_attempts_app. lia.
      * rewrite callers_app. apply Forall_app. done.
    + pose proof (jwt_gate_trace ep tx st2) as Hk3.
      destruct (jwt_gate ep tx st2) as [[o st3]|[j st3]]; simpl in Hk3 |- *.
      * exists (k2 ++ k1). rewrite Hk3, Hk2, Hk1, app_assoc. repeat split.
        -- rewrite count_attempts_app. lia.
        -- rewrite callers_app. apply Forall_app. done.
      * exists ((EvSetHistory (get_history E (world st3)) :: k2) ++ k1).
        rewrite Hk3, Hk2, Hk1. simpl. rewrite app_assoc. repeat split.
        -- rewrite count_attempts_app. lia.
        -- rewrite callers_app. apply Forall_app. done.
Qed.

Lemma auth_pipeline_inr tx (caller_id : N) st p st1 :
  auth_pipeline tx caller_id st = inr (p, st1) →
  p_caller_id p = effective_caller tx caller_id st
  ∧ find_endpoint E tx (ctx st) (world st) = Some (p_endpoint p)
  ∧ p_signed_request p = get_signed_request (ctx st).
Proof.
  unfold auth_pipeline.
  destruct (early_gates tx caller_id st)
    as [[o st0]|[[[[ep sr] c] prim] st0]] eqn:Hearly; [done|].
  apply early_gates_inr in Hearly as (Hfind & -> & -> & _).
  repeat case_match; intros; simplify_eq; simpl; auto.
Qed.

(** Whichever way [process_command] is left, it has started at most
    [max_attempts] attempts and used no caller id but the effective one. *)
Lemma process_command_trace tx (caller_id : N) pre_exec st :
  ∃ new, trace (process_command tx caller_id pre_exec st).2 = new ++ trace st
         ∧ (count_attempts new ≤ max_attempts)%nat
         ∧ Forall (λ c, c = effective_caller tx caller_id st) (callers new).
Proof.
  unfold process_command.
  destruct (auth_pipeline_trace tx caller_id st) as (k1 & Hk1 & Hc1 & Hf1).
  destruct (auth_pipeline tx caller_id st) as [[o st1]|[p st1]] eqn:Hauth;
    simpl in Hk1.
  - exists k1. repeat split; [done | lia | done].
  - apply auth_pipeline_inr in Hauth as (Hcid & _).
    destruct (dispatch_decision p st1).
    + unfold executor.
      destruct (attempt_loop_trace max_attempts p pre_exec tx
                  (with_fe (λ f, set_tx_count (size_t_incr (tx_count f)) f) st1))
        as (k2 & Hk2 & Hc2 & _ & Hf2).
      exists (k2 ++ k1). rewrite Hk2. simpl. rewrite Hk1, app_assoc.
      repeat split.
      * rewrite count_attempts_app. lia.
      * rewrite Hcid in Hf2. rewrite callers_app. apply Forall_app. done.
    + destruct (forward_or_redirect_json_trace (p_endpoint p) (p_caller_id p)
                  (with_ctx (set_is_forwarding true) st1))
        as (k2 & Hk2 & Hc2 & _ & Hf2).
      destruct (forward_or_redirect_json (p_endpoint p) (p_caller_id p)
                  (with_ctx (set_is_forwarding true) st1)) as [o st2].
      simpl in Hk2 |- *. exists (k2 ++ k1). rewrite Hk2, Hk1, app_assoc.
      repeat split.
      * rewrite count_attempts_app. lia.
      * rewrite Hcid in Hf2. rewrite callers_app. apply Forall_app. done.
Qed.

Lemma format_nat_max_attempts : format_nat max_attempts = "30".
Proof. reflexivity. Qed.

(** *** C1: the retry loop is bounded *)

(** C1.  A request that reaches the transactional executor (it passed the
    gates and is executed locally) makes at most 30 attempts; if every
    attempt ends in a KV [CONFLICT] or a [CompactedVersionConflict], exactly
    30 attempts are made and the request ends with HTTP 409 and the body
    "Transaction continued to conflict after 30 attempts.". *)
Theorem retry_loop_bounded tx (caller_id : N) pre_exec st p st1 :
  auth_pipeline tx caller_id st = inr (p, st1) →
  dispatch_decision p st1 = ExecuteLocally →
  let r := process_command tx caller_id pre_exec st in
  (∃ new, trace r.2 = new ++ trace st ∧ (count_attempts new ≤ 30)%nat)
  ∧ (conflicts_throughout max_attempts p pre_exec tx (enter_executor st1) = true →
     ∃ resp, r.1.1 = Responded resp
             ∧ status resp = 409
             ∧ body resp =
                 "Transaction continued to conflict after 30 attempts."
             ∧ count_attempts (trace r.2)
                 = (30 + count_attempts (trace st1))%nat).
Proof.
  intros Hauth Hlocal r. split.
  - destruct (process_command_trace tx caller_id pre_exec st) as (new & H & Hc & _).
    exists new. done.
  - intros Hall. subst r. unfold process_command. rewrite Hauth, Hlocal.
    unfold executor. fold (enter_executor st1).
    destruct (attempt_loop_conflicts _ _ _ _ _ Hall)
      as (tx' & st' & -> & _ & Hcount).
    eexists. split; [done|]. simpl. repeat split. done.
Qed.

(** *** C2: the lifecycle gate *)

Lemma update_consensus_quiet st :
  metrics (update_consensus st) = metrics st
  ∧ ctx (update_consensus st) = ctx st
  ∧ ∃ new, trace (update_consensus st) = new ++ trace st
           ∧ Forall (λ e, is_lookup_or_write e = false) new.
Proof.
  unfold update_consensus. case_bool_decide; simpl.
  - repeat split. eexists [_]. split; [done|]. repeat constructor.
  - repeat split. exists []. split; [done|]. constructor.
Qed.

(** The gate answers [false] exactly when the flag is down and the
    globally committed service record does not open it. *)
Lemma is_open_false tx st :
  (is_open tx st).1 = false ↔
  is_open_ (fe st) = false
  ∧ ¬ ∃ s i, service_get_globally_committed E tx = Some s
             ∧ service_identity (fe st) = Some i
             ∧ service_status s = OPEN ∧ service_cert s = i.
Proof.
  unfold is_open. destruct (is_open_ (fe st)) eqn:Hflag; simpl.
  - rewrite Hflag. split; [done | intros [? _]; done].
  - destruct (service_get_globally_committed E tx) as [s|];
      [destruct (service_identity (fe st)) as [i|]|]; simpl.
    + destruct (bool_decide (service_status s = OPEN)) eqn:Hs;
        [destruct (bool_decide (service_cert s = i)) eqn:Hc|]; simpl.
      * apply bool_decide_eq_true in Hs, Hc. split; [done|].
        intros [_ Hno]. exfalso. apply Hno. exists s, i. done.
      * apply bool_decide_eq_false in Hc. rewrite Hflag. split; [|done].
        intros _. split; [done|]. intros (s' & i' & ? & ? & ? & ?).
        simplify_eq; done.
      * apply bool_decide_eq_false in Hs. rewrite Hflag. split; [|done].
        intros _. split; [done|]. intros (s' & i' & ? & ? & ? & ?).
        simplify_eq; done.
    + rewrite Hflag. split; [|done]. intros _. split; [done|].
      intros (s' & i' & ? & ? & ? & ?). simplify_eq.
    + rewrite Hflag. split; [|done]. intros _. split; [done|].
      intros (s' & i' & ? & ? & ? & ?). simplify_eq.
Qed.

(** C2.  When the lifecycle gate finds the frontend not open, [process]
    answers HTTP 404 "Frontend is not open." and does nothing else: the
    metrics are unchanged, and since the consensus handle was refreshed no
    call left the class, so no endpoint was looked up and nothing was
    written to the KV. *)
Theorem process_not_open st :
  (is_open (create_tx E (world (update_consensus st))) (update_consensus st)).1
    = false →
  let r := process st in
  (∃ resp, r.1 = Responded resp
           ∧ status resp = 404 ∧ body resp = "Frontend is not open.")
  ∧ metrics r.2 = metrics st
  ∧ fe r.2 = fe (update_consensus st)
  ∧ world r.2 = world (update_consensus st)
  ∧ trace r.2 = trace (update_consensus st)
  ∧ ∃ new, trace r.2 = new ++ trace st
           ∧ Forall (λ e, is_lookup_or_write e = false) new.
Proof.
  intros Hclosed r. subst r. unfold process.
  destruct (update_consensus_quiet st) as (Hm & Hc & new & Hnew & Hq).
  set (st0 := update_consensus st) in *.
  set (tx := create_tx E (world st0)) in *.
  assert (is_open tx st0 = (false, st0)) as ->.
  { pose proof Hclosed as Hflag. apply is_open_false in Hflag as [Hflag Hno].
    unfold is_open in Hclosed |- *. rewrite Hflag in Hclosed |- *. simpl in *.
    repeat case_match; simplify_eq; simpl in *; try done; by rewrite Hflag. }
  simpl. repeat split; try done.
  - eexists. repeat split.
  - exists new. done.
Qed.

(** *** C5: seqno and view of a committed request *)

Lemma run_endpoint_keeps_fe p pre_exec tx st :
  fe (run_endpoint p pre_exec tx st).2 = fe st.
Proof.
  unfold run_endpoint, record_client_signature.
  repeat case_match; simplify_eq; simpl; done.
Qed.

(** C5 (amended).  In the attempt in which the endpoint returns, asks for
    its writes to be applied and [commit] answers [OK], the request ends
    with a response.  When a consensus is set and the reported version (the
    commit version if that is non-zero, the read version otherwise) is not
    [kv::NoVersion], the response's seqno is that version and its view is
    the transaction's commit term; without a consensus, or when the
    reported version is [kv::NoVersion], seqno and view are not set: they
    are what the endpoint left in the context. *)
Theorem commit_ok_reports_version p pre_exec tx st tx1 st1 tx2 w2 :
  run_endpoint p pre_exec tx (log EvAttempt st) = (None, tx1, st1) →
  should_apply_writes (ctx st1) = true →
  commit E tx1 (world st1) = (inr OK, tx2, w2) →
  ∃ resp st',
    attempt p pre_exec tx st = Done (Responded resp) tx2 st'
    ∧ (∀ n, attempt_loop (S n) p pre_exec tx st = (Responded resp, tx2, st'))
    ∧ (is_Some (consensus (fe st)) → reported_version tx2 ≠ NoVersion E →
       seqno resp = Some (reported_version tx2)
       ∧ view resp = Some (commit_term E tx2))
    ∧ (consensus (fe st) = None ∨ reported_version tx2 = NoVersion E →
       seqno resp = seqno (response (ctx st1))
       ∧ view resp = view (response (ctx st1))).
Proof.
  intros Hrun Hwrites Hcommit.
  pose proof (run_endpoint_keeps_fe p pre_exec tx (log EvAttempt st)) as Hfe.
  rewrite Hrun in Hfe. simpl in Hfe.
  assert (∃ resp st', attempt p pre_exec tx st = Done (Responded resp) tx2 st'
            ∧ (is_Some (consensus (fe st)) → reported_version tx2 ≠ NoVersion E →
               seqno resp = Some (reported_version tx2)
               ∧ view resp = Some (commit_term E tx2))
            ∧ (consensus (fe st) = None ∨ reported_version tx2 = NoVersion E →
               seqno resp = seqno (response (ctx st1))
               ∧ view resp = view (response (ctx st1))))
    as (resp & st' & Hattempt & Hset & Hunset).
  { unfold attempt, try_block. rewrite Hrun, Hwrites. simpl. rewrite Hcommit.
    unfold commit_ok, respond. simpl. rewrite Hfe.
    fold (reported_version tx2).
    destruct (consensus (fe st)) as [cs|]; simpl.
    - case_bool_decide as Hver; simpl.
      + repeat case_match; simplify_eq; simpl; eexists _, _;
          (split; [done|]); (split; [done|]); intros [?|?]; done.
      + repeat case_match; simplify_eq; simpl; eexists _, _;
          (split; [done|]); (split; [|done]); intros _ Hne;
          exfalso; apply Hne; apply dec_stable; done.
    - eexists _, _. split; [done|]. split; [|done]. intros [? ?]. done. }
  exists resp, st'. split; [done|]. split; [|done].
  intros n. simpl. rewrite Hattempt. done.
Qed.

(** Without a consensus the [OK] case leaves seqno and view as they were. *)
Lemma commit_ok_without_consensus ep tx st :
  consensus (fe st) = None →
  ∃ resp, (commit_ok ep tx st).1 = Responded resp
          ∧ seqno resp = seqno (response (ctx st))
          ∧ view resp = view (response (ctx st)).
Proof.
  intros Hnone. unfold commit_ok, respond. rewrite Hnone. simpl.
  eexists. repeat split.
Qed.

(** *** C6: forwarding of [Always] endpoints under BFT *)

(** C6 (amended).  On a non-primary replica under BFT consensus, a request
    that passed the gates, is not flagged [execute_on_node] and targets an
    endpoint whose [forwarding_required] is [Always] is forwarded or
    redirected, whatever [session.is_forwarding] is. *)
Theorem bft_always_forwards tx (caller_id : N) pre_exec st p st1 (cs : N) :
  auth_pipeline tx caller_id st = inr (p, st1) →
  consensus (fe st1) = Some cs →
  consensus_type E cs (world st1) = BFT →
  p_is_primary p = false →
  forwarding_required (properties (p_endpoint p)) = Always →
  execute_on_node (ctx st1) = false →
  dispatch_decision p st1 = ForwardOrRedirect
  ∧ process_command tx caller_id pre_exec st =
      let '(o, st2) :=
        forward_or_redirect_json (p_endpoint p) (p_caller_id p)
          (with_ctx (set_is_forwarding true) st1) in
      (o, tx, st2).
Proof.
  intros Hauth Hcons Htype Hrole Halways Hnode.
  assert (dispatch_decision p st1 = ForwardOrRedirect) as Hd.
  { unfold dispatch_decision. rewrite Hcons, Htype, Hrole, Halways, Hnode. done. }
  split; [done|]. unfold process_command. rewrite Hauth, Hd. done.
Qed.

(** With [execute_on_node] set, the same request is executed locally. *)
Lemma bft_execute_on_node_is_local p st (cs : N) :
  consensus (fe st) = Some cs →
  consensus_type E cs (world st) = BFT →
  execute_on_node (ctx st) = true →
  dispatch_decision p st = ExecuteLocally.
Proof.
  intros Hcons Htype Hnode. unfold dispatch_decision.
  rewrite Hcons, Htype, Hnode. simpl. rewrite andb_false_r. done.
Qed.

(** *** C7: forward or redirect *)

(** C7 (amended).  With a forwarder configured and a request that did not
    arrive forwarded: a successful [forward_command] yields no response, and
    when no primary is known the response is HTTP 500 "RPC could not be
    forwarded to unknown primary.".  Otherwise the response is HTTP 307; it
    carries the Location header "<pubhost>:<rpcport>" of the primary when the
    nodes table has an entry for it, and no Location header is set when it
    has none. *)
Theorem forward_or_redirect_cases ep (c : N) st :
  let r := forward_or_redirect_json ep c st in
  (forwardable st = true →
     (∀ cs w,
        consensus (fe st) = Some cs →
        consensus_primary E cs (world st) ≠ NoNode E →
        forward_command E (ctx st) (consensus_primary E cs (world st))
          (consensus_active_nodes E cs (world st)) c
          (get_cert_to_forward st (Some ep)) (world st) = (true, w) →
        r.1 = Pending)
     ∧ ((consensus (fe st) = None
         ∨ ∃ cs, consensus (fe st) = Some cs
                 ∧ consensus_primary E cs (world st) = NoNode E) →
        ∃ resp, r.1 = Responded resp ∧ status resp = 500
                ∧ body resp = "RPC could not be forwarded to unknown primary."))
  ∧ (forwardable st = false →
     ∃ resp, r.1 = Responded resp ∧ status resp = 307
       ∧ (∀ cs info,
            consensus (fe st) = Some cs →
            nodes_get E (create_tx E (world st))
              (consensus_primary E cs (world st)) = Some info →
            headers resp !! LOCATION
              = Some (pubhost info +:+ ":" +:+ rpcport info))
       ∧ ((consensus (fe st) = None
           ∨ ∃ cs, consensus (fe st) = Some cs
                   ∧ nodes_get E (create_tx E (world st))
                       (consensus_primary E cs (world st)) = None) →
          headers resp = headers (response (ctx st)))).
Proof.
  intros r. subst r. unfold forwardable, forward_or_redirect_json.
  split; intros ->.
  - split.
    + intros cs w -> Hprimary ->. rewrite bool_decide_eq_true_2 by done. done.
    + intros [-> | (cs & -> & ->)].
      * unfold could_not_forward, respond. simpl. eexists. repeat split.
      * rewrite bool_decide_eq_false_2 by (intros H; by apply H).
        unfold could_not_forward, respond. simpl. eexists. repeat split.
  - unfold respond. simpl. eexists. split; [done|]. split.
    + destruct (consensus (fe st)) as [cs|]; [|done].
      destruct (nodes_get E (create_tx E (world st))
                  (consensus_primary E cs (world st))); done.
    + split.
      * intros cs info -> ->. simpl. apply lookup_insert_eq.
      * intros [-> | (cs & -> & ->)]; done.
Qed.

(** *** C9: exceptions in the executor *)

Lemma run_endpoint_before p pre_exec tx st :
  run_endpoint p pre_exec tx st
  = match before_endpoint p pre_exec tx st with
    | (Some e, tx0, st0) => (Some e, tx0, st0)
    | (None, tx0, st0) =>
        let '(raised, c, tx1, w) :=
          execute_endpoint E (p_endpoint p) (ctx st0) tx0 (p_caller_id p)
            (world st0) in
        (raised, tx1,
         log (EvExecuteEndpoint (p_caller_id p))
           (with_world (λ _, w) (with_ctx (λ _, c) st0)))
    end.
Proof.
  unfold run_endpoint, before_endpoint.
  repeat case_match; simplify_eq; done.
Qed.

(** What is raised inside the [try] leaves it. *)
Lemma raised_leaves_try p pre_exec tx st e tx' :
  raised_in_try p pre_exec tx st e tx' →
  ∃ st', try_block p pre_exec tx (log EvAttempt st) = Raised e tx' st'.
Proof.
  unfold try_block. rewrite run_endpoint_before.
  intros [tx0 st0 Hb|tx0 st0 c tx1 w Hb Hx|tx0 st0 c tx1 w tx2 w2 Hb Hx Hw Hc];
    rewrite Hb.
  - eauto.
  - rewrite Hx. eauto.
  - rewrite Hx. simpl. rewrite Hw. simpl. rewrite Hc. eauto.
Qed.

(** Nothing else does. *)
Lemma try_raised p pre_exec tx st e tx' st' :
  try_block p pre_exec tx (log EvAttempt st) = Raised e tx' st' →
  raised_in_try p pre_exec tx st e tx'.
Proof.
  unfold try_block. rewrite run_endpoint_before.
  destruct (before_endpoint p pre_exec tx (log EvAttempt st))
    as [[[e0|] tx0] st0] eqn:Hb.
  - intros H. simplify_eq. eapply raised_before. done.
  - destruct (execute_endpoint E (p_endpoint p) (ctx st0) tx0 (p_caller_id p)
                (world st0)) as [[[[e1|] c] tx1] w] eqn:Hx.
    + intros H. simplify_eq. eapply raised_by_endpoint; done.
    + simpl. destruct (should_apply_writes c) eqn:Hw; simpl.
      * destruct (commit E tx1 w) as [[[e2|r] tx2] w2] eqn:Hc.
        -- intros H. simplify_eq. eapply raised_by_commit; done.
        -- unfold commit_ok, respond. destruct r; simpl;
             repeat case_match; intros ?; simplify_eq.
      * unfold respond. intros H. simplify_eq.
Qed.

(** C9 (amended).  When the pre-exec hook, the signature record, the
    execution of the endpoint or [commit] raises inside the [try] of an
    iteration: [KvSerialiserException] aborts the process and no response
    is produced; [CompactedVersionConflict] resets the transaction and the
    loop goes on with the next iteration; every other exception ends the
    request with a response ([RpcException] with its status and message,
    [JsonParseError] with 400, any other with 500 and the exception
    message).  The executor aborts the process only in an iteration in
    which [KvSerialiserException] was raised. *)
Theorem exceptions_classified p pre_exec tx st :
  (∀ e tx1,
     raised_in_try p pre_exec tx st e tx1 →
     match e with
     | KvSerialiserException _ =>
         ∃ st', ∀ n, attempt_loop (S n) p pre_exec tx st = (Aborted, tx1, st')
     | CompactedVersionConflict _ =>
         ∃ st', ∀ n, attempt_loop (S n) p pre_exec tx st
                     = attempt_loop n p pre_exec (reset E tx1) st'
     | RpcException s what =>
         ∃ resp st',
           (∀ n, attempt_loop (S n) p pre_exec tx st = (Responded resp, tx1, st'))
           ∧ status resp = s ∧ body resp = what
     | JsonParseError pointer what =>
         ∃ resp st',
           (∀ n, attempt_loop (S n) p pre_exec tx st = (Responded resp, tx1, st'))
           ∧ status resp = 400
           ∧ body resp = "At " +:+ pointer +:+ ":" +:+ newline_tab +:+ what
     | StdException what =>
         ∃ resp st',
           (∀ n, attempt_loop (S n) p pre_exec tx st = (Responded resp, tx1, st'))
           ∧ status resp = 500 ∧ body resp = what
     end)
  ∧ (∀ n tx' st',
       attempt_loop n p pre_exec tx st = (Aborted, tx', st') →
       ∃ tx0 st0 what,
         raised_in_try p pre_exec tx0 st0 (KvSerialiserException what) tx').
Proof.
  split.
  - intros e tx1 Hraised.
    apply raised_leaves_try in Hraised as [st1 Htry].
    assert (∀ n, attempt_loop (S n) p pre_exec tx st
                 = match attempt p pre_exec tx st with
                   | Retry tx st => attempt_loop n p pre_exec tx st
                   | Done o tx st => (o, tx, st)
                   end) as Hloop by done.
    unfold attempt in Hloop. rewrite Htry in Hloop.
    destruct e; unfold respond in Hloop; simpl in Hloop; eauto.
  - intros n. revert tx st. induction n as [|n IH]; intros tx st tx' st'.
    + simpl. unfold conflict_exit, respond. intros H. simplify_eq.
    + simpl. unfold attempt.
      destruct (try_block p pre_exec tx (log EvAttempt st))
        as [e tx1 st1|o tx1 st1|tx1 st1] eqn:Htry.
      * destruct e; unfold respond; simpl; intros H; simplify_eq.
        -- apply IH in H. done.
        -- apply try_raised in Htry. eauto.
      * intros H. simplify_eq. exfalso. revert Htry.
        unfold try_block, commit_ok, respond.
        repeat case_match; simplify_eq; simpl; intros ?; simplify_eq.
      * intros H. apply IH in H. done.
Qed.

(** *** C3: the signer's identity overrides the session's *)

Lemma effective_caller_signed tx (c0 : N) st (sr : SignedReq) :
  get_signed_request (ctx st) = Some sr →
  get_caller_id_by_digest E tx (key_id sr) (world st) ≠ INVALID_ID E →
  effective_caller tx c0 st = get_caller_id_by_digest E tx (key_id sr) (world st).
Proof.
  intros Hsr Hcid. unfold effective_caller, identity_override. rewrite Hsr.
  rewrite bool_decide_eq_true_2 by done.
  destruct (resolve_caller_id E _ tx (world st)); done.
Qed.

Lemma early_gates_ignore_session_caller tx (c0 c0' : N) st (sr : SignedReq) :
  get_signed_request (ctx st) = Some sr →
  get_caller_id_by_digest E tx (key_id sr) (world st) ≠ INVALID_ID E →
  early_gates tx c0 st = early_gates tx c0' st.
Proof.
  intros Hsr Hcid. unfold early_gates.
  destruct (lookup_endpoint tx st) as [[o st1]|[ep st1]] eqn:Hlook; [done|].
  apply lookup_endpoint_inr in Hlook as [_ ->]. simpl.
  unfold identity_override. rewrite Hsr. simpl.
  rewrite bool_decide_eq_true_2 by done. done.
Qed.

(** *** C4: when the client signature is verified *)

Lemma must_verify_spec st :
  must_verify st = true ↔
  is_create_request (ctx st) = false ∧ ¬ cft_forwarded st.
Proof.
  unfold must_verify, cft_forwarded.
  destruct (is_create_request (ctx st)); simpl; [split; [done | intros [? _]; done]|].
  destruct (consensus (fe st)) as [cs|]; simpl.
  - case_bool_decide as Hcft; simpl.
    + case_bool_decide as Hfwd; simpl.
      * split; [done|]. intros [_ Hno]. exfalso. apply Hno. eauto.
      * split; [|done]. intros _. split; [done|]. intros [_ ?]. done.
    + split; [|done]. intros _. split; [done|].
      intros [(cs' & ? & ?) _]. simplify_eq.
  - split; [|done]. intros _. split; [done|].
    intros [(cs' & ? & ?) _]. simplify_eq.
Qed.

Lemma signature_gate_refuses ep (s : SignedReq) (c : N) (prim : bool) st :
  must_verify st = true →
  (verify_client_signature (caller_cert (session (ctx st))) c s st).1 = false →
  ∃ resp st', signature_gate ep (Some s) c prim st = inl (Responded resp, st')
              ∧ status resp = 401
              ∧ headers resp !! WWW_AUTHENTICATE = Some (signature_challenge (E := E))
              ∧ body resp = "Failed to verify client signature".
Proof.
  intros Hmust Hfail. unfold signature_gate. rewrite Hmust.
  destruct (verify_client_signature _ c s st) as [ok st1]. simpl in Hfail.
  subst ok. unfold respond. simpl. eexists _, _. split; [done|].
  split; [done|]. split; [apply lookup_insert_eq | done].
Qed.

(** The verifications of a whole run are those of the signature gate. *)
Lemma process_command_verifications tx (caller_id : N) pre_exec st :
  ∃ new, trace (process_command tx caller_id pre_exec st).2 = new ++ trace st
    ∧ verifications new =
        match early_gates tx caller_id st with
        | inl _ => []
        | inr (_, sr, c, _, st1) =>
            if bool_decide (is_Some sr) && must_verify st1
            then [(caller_cert (session (ctx st1)), c)] else []
        end.
Proof.
  unfold process_command, auth_pipeline.
  destruct (early_gates_trace tx caller_id st) as (k1 & Hk1 & _ & Hv1 & _).
  destruct (early_gates tx caller_id st)
    as [[o st1]|[[[[ep sr] c] prim] st1]]; simpl in Hk1.
  { exists k1. done. }
  destruct (signature_gate_trace ep sr c prim st1) as (k2 & Hk2 & _ & _ & Hv2).
  destruct (signature_gate ep sr c prim st1) as [[o st2]|[rec st2]];
    simpl in Hk2.
  { exists (k2 ++ k1). simpl. rewrite Hk2, Hk1, app_assoc. split; [done|].
    rewrite verifications_app, Hv1, app_nil_r. done. }
  pose proof (jwt_gate_trace ep tx st2) as Hk3.
  destruct (jwt_gate ep tx st2) as [[o st3]|[j st3]]; simpl in Hk3.
  { exists (k2 ++ k1). simpl. rewrite Hk3, Hk2, Hk1, app_assoc. split; [done|].
    rewrite verifications_app, Hv1, app_nil_r. done. }
  set (p := {| p_endpoint := ep; p_caller_id := c; p_is_primary := prim;
               p_signed_request := sr; p_should_record := rec |}).
  assert (∀ st4 k4, trace st4 = k4 ++ trace (update_history st3) →
                    verifications k4 = [] →
            ∃ new, trace st4 = new ++ trace st
              ∧ verifications new =
                  if bool_decide (is_Some sr) && must_verify st1
                  then [(caller_cert (session (ctx st1)), c)] else []) as Hrest.
  { intros st4 k4 Hk4 Hv4.
    exists (k4 ++ [EvSetHistory (get_history E (world st3))] ++ k2 ++ k1).
    split.
    - rewrite Hk4. simpl. rewrite Hk3, Hk2, Hk1.
      rewrite <- !app_assoc. simpl. rewrite <- !app_assoc. done.
    - rewrite !verifications_app, Hv4, Hv2, Hv1. simpl. apply app_nil_r. }
  destruct (dispatch_decision p (update_history st3)).
  - unfold executor.
    destruct (attempt_loop_trace max_attempts p pre_exec tx
                (with_fe (λ f, set_tx_count (size_t_incr (tx_count f)) f)
                   (update_history st3)))
      as (k4 & Hk4 & _ & Hv4 & _).
    apply (Hrest _ k4); done.
  - destruct (forward_or_redirect_json_trace ep c
                (with_ctx (set_is_forwarding true) (update_history st3)))
      as (k4 & Hk4 & _ & Hv4 & _).
    simpl p_endpoint. simpl p_caller_id.
    destruct (forward_or_redirect_json ep c
                (with_ctx (set_is_forwarding true) (update_history st3)))
      as [o st4].
    apply (Hrest _ k4); done.
Qed.

(** C4.  A request stopped before the signature gate never has its
    signature verified.  For a request that reaches the gate,
    [verify_client_signature] is invoked (once, with the session's
    certificate and the effective caller id) if and only if a signed request
    is present, the request is not a create-request and it is not a
    CFT-forwarded request; when it is invoked and fails, the response is
    HTTP 401 with the body "Failed to verify client signature" and the
    header WWW-Authenticate: Signature realm="Signed request access",
    headers="h1 h2 ...", the required signature headers joined by a
    space. *)
Theorem verification_iff_guard tx (caller_id : N) pre_exec st :
  let r := process_command tx caller_id pre_exec st in
  ∃ new, trace r.2 = new ++ trace st ∧
    match early_gates tx caller_id st with
    | inl _ => verifications new = []
    | inr (_, sr, c, _, st1) =>
        (verifications new ≠ [] ↔
           is_Some sr ∧ is_create_request (ctx st1) = false ∧ ¬ cft_forwarded st1)
        ∧ (verifications new = []
           ∨ verifications new = [(caller_cert (session (ctx st1)), c)])
        ∧ (∀ s, sr = Some s →
             is_create_request (ctx st1) = false → ¬ cft_forwarded st1 →
             (verify_client_signature (caller_cert (session (ctx st1))) c s st1).1
               = false →
             ∃ resp, r.1.1 = Responded resp ∧ status resp = 401
                     ∧ headers resp !! WWW_AUTHENTICATE
                         = Some ("Signature realm=" +:+ dquote +:+
                                 "Signed request access" +:+ dquote +:+
                                 ", headers=" +:+ dquote +:+
                                 join " " (required_signature_headers E) +:+
                                 dquote)
                     ∧ body resp = "Failed to verify client signature")
    end.
Proof.
  intros r. subst r.
  destruct (process_command_verifications tx caller_id pre_exec st)
    as (new & Hnew & Hv).
  exists new. split; [done|].
  unfold process_command, auth_pipeline.
  destruct (early_gates tx caller_id st)
    as [[o st1]|[[[[ep sr] c] prim] st1]]; [done|].
  rewrite Hv. split; [|split].
  - destruct sr as [s|]; simpl.
    + destruct (must_verify st1) eqn:Hmust.
      * apply must_verify_spec in Hmust as [? ?]. split; [eauto|done].
      * split; [done|]. intros (_ & Hc & Hf).
        assert (must_verify st1 = true) by (apply must_verify_spec; done).
        congruence.
    + split; [done|]. intros ([? ?] & _). done.
  - destruct (bool_decide (is_Some sr) && must_verify st1); eauto.
  - intros s -> Hcreate Hfwd Hfail.
    assert (must_verify st1 = true) as Hmust by (apply must_verify_spec; done).
    destruct (signature_gate_refuses ep s c prim st1 Hmust Hfail)
      as (resp & st' & -> & Hs & Hh & Hb).
    exists resp. split; [done|]. split; [done|]. split; [exact Hh | exact Hb].
Qed.

(** *** C3: the certificate and the gates *)

(** For a known signer the gates of lines 249-341 stop the request only
    when no endpoint is found or when the forwarded caller is not known;
    past them the session carries the signer's certificate. *)
Lemma early_gates_signed tx (c0 : N) st (sr : SignedReq) :
  get_signed_request (ctx st) = Some sr →
  get_caller_id_by_digest E tx (key_id sr) (world st) ≠ INVALID_ID E →
  is_Some (find_endpoint E tx (ctx st) (world st)) →
  (original_caller (session (ctx st)) = None →
   ∃ ep prim st1,
     early_gates tx c0 st
       = inr (ep, Some sr,
              get_caller_id_by_digest E tx (key_id sr) (world st), prim, st1))
  ∧ (original_caller (session (ctx st)) = None ∨ keeps_caller_cert E →
     caller_cert (session (ctx (exit_state (early_gates tx c0 st))))
       = match resolve_caller_id E
                 (get_caller_id_by_digest E tx (key_id sr) (world st)) tx
                 (world st) with
         | Some pem => raw pem
         | None => caller_cert (session (ctx st))
         end).
Proof.
  intros Hsr Hcid [ep Hfind]. unfold early_gates.
  destruct (lookup_endpoint tx st) as [[o st0]|[ep0 st0]] eqn:Hlook.
  { apply lookup_endpoint_inl in Hlook as [Hnone _]. congruence. }
  apply lookup_endpoint_inr in Hlook as [Hfind0 ->].
  change (get_signed_request (ctx (on_metrics ep0 incr_calls (log EvFindEndpoint st))))
    with (get_signed_request (ctx st)).
  rewrite Hsr. unfold identity_override.
  change (world (on_metrics ep0 incr_calls (log EvFindEndpoint st)))
    with (world st).
  rewrite bool_decide_eq_true_2 by done.
  set (cid := get_caller_id_by_digest E tx (key_id sr) (world st)) in *.
  rewrite (bool_decide_eq_true_2 (is_Some (Some sr))) by eauto.
  rewrite andb_false_r.
  unfold identity_gate, respond, update_metrics_of.
  split.
  - intros Horig.
    destruct (resolve_caller_id E cid tx (world st)) as [pem|]; simpl;
      rewrite Horig; rewrite (bool_decide_eq_false_2 (cid = INVALID_ID E)) by done;
      destruct (require_client_identity (properties ep0) && has_certs E (world st));
      simpl; eauto.
  - intros Hkeep.
    destruct (resolve_caller_id E cid tx (world st)) as [pem|]; simpl;
      destruct (require_client_identity (properties ep0) && has_certs E (world st));
      simpl; try done.
    all: rewrite (bool_decide_eq_false_2 (cid = INVALID_ID E)) by done.
    all: destruct (original_caller (session (ctx st))) as [oc|] eqn:Horig;
      simpl; [|done].
    all: destruct Hkeep as [?|Hkeep]; [done|].
    all: match goal with
         | |- context [lookup_forwarded_caller_cert E ?c ?t ?w] =>
             pose proof (Hkeep c t w) as Hk;
             destruct (lookup_forwarded_caller_cert E c t w) as [found c'];
             simpl in Hk; destruct found; simpl; done
         end.
Qed.

Lemma late_gates_keep_session ep (sr : option SignedReq) (c : N) (prim : bool)
    tx st :
  session (ctx (exit_state (signature_gate ep sr c prim st))) = session (ctx st)
  ∧ session (ctx (exit_state (jwt_gate ep tx st))) = session (ctx st).
Proof.
  unfold signature_gate, verify_client_signature, jwt_gate, respond,
    update_metrics_of.
  split; repeat case_match; simplify_eq; simpl; done.
Qed.

Lemma auth_pipeline_session tx (c0 : N) st :
  session (ctx (exit_state (auth_pipeline tx c0 st)))
  = session (ctx (exit_state (early_gates tx c0 st))).
Proof.
  unfold auth_pipeline.
  destruct (early_gates tx c0 st) as [[o st1]|[[[[ep sr] c] prim] st1]];
    [done|]. simpl.
  destruct (late_gates_keep_session ep sr c prim tx st1) as [Hs _].
  destruct (signature_gate ep sr c prim st1) as [[o st2]|[rec st2]];
    simpl in Hs |- *; [done|].
  destruct (late_gates_keep_session ep sr c prim tx st2) as [_ Hj].
  destruct (jwt_gate ep tx st2) as [[o st3]|[j st3]]; simpl in Hj |- *;
    congruence.
Qed.

(** C3 (amended).  For a request carrying a signed request whose key id
    resolves to a caller id other than [INVALID_ID]: the session-derived
    caller id has no influence on [process_command]; every use of a caller
    id in the run (identity check, signature verification, signature
    record, endpoint execution, forwarding) is made with the resolved id,
    and so is what the gates hand to the executor; the override precedes
    the identity check, so a request that did not arrive forwarded is not
    stopped by it, whatever the session-derived id; and when an endpoint is
    found, the session's [caller_cert] on leaving the gates, and the
    certificate the signature is verified against, is the one
    [resolve_caller_id] yields for that id when it yields one and the
    session's own otherwise, as long as the request did not arrive
    forwarded or [lookup_forwarded_caller_cert] leaves the certificate
    alone. *)
Theorem signed_caller_overrides tx (c0 : N) pre_exec st (sr : SignedReq) (cid : N) :
  get_signed_request (ctx st) = Some sr →
  get_caller_id_by_digest E tx (key_id sr) (world st) = cid →
  cid ≠ INVALID_ID E →
  let r := process_command tx c0 pre_exec st in
  let cert :=
    match resolve_caller_id E cid tx (world st) with
    | Some pem => raw pem
    | None => caller_cert (session (ctx st))
    end in
  (∀ c0', process_command tx c0' pre_exec st = r)
  ∧ (∃ new, trace r.2 = new ++ trace st
       ∧ Forall (λ c, c = cid) (callers new)
       ∧ (original_caller (session (ctx st)) = None ∨ keeps_caller_cert E →
          Forall (λ v, v = (cert, cid)) (verifications new)))
  ∧ (∀ p st1, auth_pipeline tx c0 st = inr (p, st1) → p_caller_id p = cid)
  ∧ (is_Some (find_endpoint E tx (ctx st) (world st)) →
     (original_caller (session (ctx st)) = None →
      ∃ ep prim st1, early_gates tx c0 st = inr (ep, Some sr, cid, prim, st1))
     ∧ (original_caller (session (ctx st)) = None ∨ keeps_caller_cert E →
        caller_cert (session (ctx (exit_state (auth_pipeline tx c0 st))))
          = cert)).
Proof.
  intros Hsr Hcid Hvalid r cert. subst cid cert.
  split; [|split; [|split]].
  - intros c0'. subst r. unfold process_command, auth_pipeline.
    rewrite (early_gates_ignore_session_caller tx c0' c0 st sr) by done. done.
  - destruct (process_command_trace tx c0 pre_exec st) as (new & Hnew & _ & Hf).
    exists new. split; [done|].
    rewrite (effective_caller_signed tx c0 st sr) in Hf by done.
    split; [done|]. intros Hkeep.
    destruct (process_command_verifications tx c0 pre_exec st)
      as (new' & Hnew' & Hv).
    assert (new' = new) as ->.
    { apply (app_inv_tail (trace st)). subst r. congruence. }
    rewrite Hv.
    destruct (early_gates tx c0 st)
      as [[o st1]|[[[[ep sr'] c] prim] st1]] eqn:Hearly; [constructor|].
    pose proof Hearly as Hinr.
    apply early_gates_inr in Hinr as (Hfind & _ & -> & _).
    destruct (bool_decide (is_Some sr') && must_verify st1); [|constructor].
    constructor; [|constructor].
    rewrite (effective_caller_signed tx c0 st sr) by done.
    destruct (early_gates_signed tx c0 st sr Hsr Hvalid) as [_ Hcert]; [eauto|].
    rewrite Hearly in Hcert. simpl in Hcert. rewrite Hcert by done. done.
  - intros p st1 Hauth. apply auth_pipeline_inr in Hauth as (-> & _).
    apply effective_caller_signed; done.
  - intros Hfind.
    destruct (early_gates_signed tx c0 st sr Hsr Hvalid Hfind) as [Hpass Hcert].
    split; [done|]. intros Hkeep.
    rewrite auth_pipeline_session. apply Hcert, Hkeep.
Qed.

(** *** C8: metrics on the retry-exhaustion exit *)

(** The exit of lines 564-567 answers 409, a status of class 4, and leaves
    every counter as the loop found it: [update_metrics] is not called. *)
Lemma conflict_exit_skips_metrics p pre_exec tx st :
  conflicts_throughout max_attempts p pre_exec tx (enter_executor st) = true →
  let r := executor p pre_exec tx st in
  ∃ resp, r.1.1 = Responded resp ∧ status resp = 409
          ∧ Z.quot (status resp) 100 = 4
          ∧ metrics r.2 = metrics st.
Proof.
  intros Hall r. subst r. unfold executor. fold (enter_executor st).
  destruct (attempt_loop_conflicts _ _ _ _ _ Hall) as (tx' & st' & -> & Hm & _).
  simpl. eexists. repeat split. done.
Qed.

(** *** Metrics at every exit *)

Lemma accounted_after_calls ep (ms : gmap (string * string) Metrics)
    (m : Metrics) (o : Outcome) st' :
  accounted ep (<[dispatch ep := m]> ms) o st' →
  match o with
  | Responded r =>
      r = serialise_response (ctx st')
      ∧ metrics st' = <[dispatch ep := update_metrics (ctx st') m]> ms
  | _ => metrics st' = <[dispatch ep := m]> ms
  end.
Proof.
  unfold accounted, get_metrics. destruct o; try done.
  rewrite lookup_insert_eq, insert_insert_eq. done.
Qed.

Lemma signature_gate_metrics ep (sr : option SignedReq) (c : N) (prim : bool) st :
  match signature_gate ep sr c prim st with
  | inl (o, st') => accounted ep (metrics st) o st'
  | inr (_, st') => metrics st' = metrics st
  end.
Proof.
  unfold signature_gate, verify_client_signature, respond, update_metrics_of,
    accounted.
  repeat case_match; simplify_eq; simpl; done.
Qed.

Lemma jwt_gate_metrics ep tx st :
  match jwt_gate ep tx st with
  | inl (o, st') => accounted ep (metrics st) o st'
  | inr (_, st') => metrics st' = metrics st
  end.
Proof.
  unfold jwt_gate, respond, update_metrics_of, accounted.
  repeat case_match; simplify_eq; simpl; done.
Qed.

Lemma forward_or_redirect_json_metrics ep (c : N) st :
  accounted ep (metrics st) (forward_or_redirect_json ep c st).1
    (forward_or_redirect_json ep c st).2.
Proof.
  unfold forward_or_redirect_json, could_not_forward, respond,
    update_metrics_of, accounted.
  repeat case_match; simpl in *; simplify_eq; simpl; done.
Qed.

Lemma try_block_metrics p pre_exec tx st :
  match try_block p pre_exec tx st with
  | Returned o _ st' =>
      (∃ r, o = Responded r) ∧ accounted (p_endpoint p) (metrics st) o st'
  | Raised _ _ st' | Conflicted _ st' => metrics st' = metrics st
  end.
Proof.
  unfold try_block, run_endpoint, record_client_signature, commit_ok, respond,
    update_metrics_of, accounted.
  repeat case_match; simplify_eq; simpl; eauto.
Qed.

Lemma attempt_metrics p pre_exec tx st :
  match attempt p pre_exec tx st with
  | Retry _ st' => metrics st' = metrics st
  | Done o _ st' => accounted (p_endpoint p) (metrics st) o st'
  end.
Proof.
  unfold attempt.
  pose proof (try_block_metrics p pre_exec tx (log EvAttempt st)) as H.
  destruct (try_block p pre_exec tx (log EvAttempt st))
    as [e tx1 st1|o tx1 st1|tx1 st1]; simpl in H.
  - destruct e; unfold respond, update_metrics_of, accounted; simpl;
      rewrite ?H; done.
  - destruct H as [_ H]. done.
  - done.
Qed.

(** The loop either conflicts throughout and leaves the metrics alone, or
    leaves through an exit that went through [update_metrics]. *)
Lemma attempt_loop_metrics (remaining : nat) p pre_exec tx st :
  if conflicts_throughout remaining p pre_exec tx st then
    metrics (attempt_loop remaining p pre_exec tx st).2 = metrics st
  else
    accounted (p_endpoint p) (metrics st)
      (attempt_loop remaining p pre_exec tx st).1.1
      (attempt_loop remaining p pre_exec tx st).2.
Proof.
  revert tx st. induction remaining as [|n IH]; intros tx st; [done|].
  simpl. pose proof (attempt_metrics p pre_exec tx st) as Hm.
  unfold attempt in Hm |- *.
  destruct (try_block p pre_exec tx (log EvAttempt st))
    as [e tx1 st1|o tx1 st1|tx1 st1]; [destruct e| |]; simpl in Hm |- *;
    try done.
  - specialize (IH (reset E tx1) (log EvTxReset st1)).
    simpl in Hm. rewrite <- Hm. done.
  - specialize (IH tx1 st1). rewrite <- Hm. done.
Qed.

Lemma early_gates_metrics tx (caller_id : N) st :
  match early_gates tx caller_id st with
  | inl (o, st') =>
      match find_endpoint E tx (ctx st) (world st) with
      | None => metrics st' = metrics st
      | Some ep =>
          accounted ep
            (<[dispatch ep := incr_calls (get_metrics ep (metrics st))]>
               (metrics st)) o st'
      end
  | inr _ => True
  end.
Proof.
  unfold early_gates.
  destruct (lookup_endpoint tx st) as [[o st1]|[ep st1]] eqn:Hlook.
  - apply lookup_endpoint_inl in Hlook as (-> & Hm & _). done.
  - apply lookup_endpoint_inr in Hlook as [-> ->].
    unfold identity_override, identity_gate, respond, update_metrics_of,
      accounted. simpl.
    repeat case_match; simplify_eq; simpl; done.
Qed.

(** The metrics after [process_command], at every exit. *)
Lemma process_command_metrics tx (caller_id : N) pre_exec st :
  let r := process_command tx caller_id pre_exec st in
  match find_endpoint E tx (ctx st) (world st) with
  | None => metrics r.2 = metrics st
  | Some ep =>
      let counted :=
        <[dispatch ep := incr_calls (get_metrics ep (metrics st))]> (metrics st) in
      if exhausts tx caller_id pre_exec st then metrics r.2 = counted
      else accounted ep counted r.1.1 r.2
  end.
Proof.
  intros r. subst r. unfold exhausts, process_command, auth_pipeline.
  pose proof (early_gates_metrics tx caller_id st) as Hearly.
  destruct (early_gates tx caller_id st)
    as [[o st1]|[[[[ep sr] c] prim] st1]] eqn:Hgates.
  { destruct (find_endpoint E tx (ctx st) (world st)); done. }
  apply early_gates_inr in Hgates as (-> & _ & _ & _ & _ & _ & Hm1).
  clear Hearly.
  pose proof (signature_gate_metrics ep sr c prim st1) as Hsig.
  destruct (signature_gate ep sr c prim st1) as [[o st2]|[rec st2]].
  { rewrite Hm1 in Hsig. done. }
  pose proof (jwt_gate_metrics ep tx st2) as Hjwt.
  destruct (jwt_gate ep tx st2) as [[o st3]|[j st3]].
  { rewrite Hsig, Hm1 in Hjwt. done. }
  rewrite Hsig, Hm1 in Hjwt. clear Hsig Hm1.
  set (p := {| p_endpoint := ep; p_caller_id := c; p_is_primary := prim;
               p_signed_request := sr; p_should_record := rec |}).
  destruct (dispatch_decision p (update_history st3)).
  - unfold executor. fold (enter_executor (update_history st3)).
    pose proof (attempt_loop_metrics max_attempts p pre_exec tx
                  (enter_executor (update_history st3))) as Hloop.
    simpl metrics in Hloop. rewrite Hjwt in Hloop. done.
  - pose proof (forward_or_redirect_json_metrics ep c
                  (with_ctx (set_is_forwarding true) (update_history st3)))
      as Hfwd.
    simpl metrics in Hfwd. rewrite Hjwt in Hfwd. simpl p_endpoint.
    simpl p_caller_id.
    destruct (forward_or_redirect_json ep c
                (with_ctx (set_is_forwarding true) (update_history st3))).
    done.
Qed.

(** [calls] moves exactly once when the endpoint is found and no counter
    moves when it is not; for every response other than the
    retry-exhaustion exit, [errors] moves exactly when the status is of
    class 4 and [failures] exactly when it is of class 5. *)
Lemma metrics_follow_status tx (caller_id : N) pre_exec st :
  let r := process_command tx caller_id pre_exec st in
  match find_endpoint E tx (ctx st) (world st) with
  | None => metrics r.2 = metrics st
  | Some ep =>
      let m := get_metrics ep (metrics st) in
      let m' := get_metrics ep (metrics r.2) in
      calls m' = size_t_incr (calls m)
      ∧ ∀ resp, r.1.1 = Responded resp →
          exhausts tx caller_id pre_exec st = false →
          errors m' = (if Z.quot (status resp) 100 =? 4
                       then size_t_incr (errors m) else errors m)
          ∧ failures m' = (if Z.quot (status resp) 100 =? 5
                           then size_t_incr (failures m) else failures m)
  end.
Proof.
  intros r. pose proof (process_command_metrics tx caller_id pre_exec st) as H.
  fold r in H. simpl in H.
  destruct (find_endpoint E tx (ctx st) (world st)) as [ep|]; [|done].
  simpl. destruct (exhausts tx caller_id pre_exec st).
  - rewrite H. unfold get_metrics at 1. rewrite lookup_insert_eq. simpl.
    split; [done|]. intros; done.
  - apply accounted_after_calls in H.
    destruct (r.1.1) as [resp| | |].
    + destruct H as [-> H].
      assert (get_metrics ep (metrics r.2)
              = update_metrics (ctx r.2) (incr_calls (get_metrics ep (metrics st))))
        as ->.
      { rewrite H. unfold get_metrics at 1. rewrite lookup_insert_eq. done. }
      unfold update_metrics, get_response_status. split.
      * destruct (Z.quot (status (response (ctx r.2))) 100 =? 4); [done|].
        destruct (Z.quot (status (response (ctx r.2))) 100 =? 5); done.
      * intros resp0 [= <-] _. unfold serialise_response.
        destruct (Z.quot (status (response (ctx r.2))) 100 =? 4) eqn:H4.
        -- apply Z.eqb_eq in H4. rewrite H4. done.
        -- destruct (Z.quot (status (response (ctx r.2))) 100 =? 5); done.
    + rewrite H. unfold get_metrics at 1. rewrite lookup_insert_eq.
      split; [done|]. intros; done.
    + rewrite H. unfold get_metrics at 1. rewrite lookup_insert_eq.
      split; [done|]. intros; done.
    + rewrite H. unfold get_metrics at 1. rewrite lookup_insert_eq.
      split; [done|]. intros; done.
Qed.

(** *** C10: the verifier cache *)

Lemma cache_kept_refl (f : Frontend E) : cache_kept f f.
Proof. split; done. Qed.

Lemma cache_kept_trans (f g h : Frontend E) :
  cache_kept f g → cache_kept g h → cache_kept f h.
Proof.
  intros [Hn1 Hv1] [Hn2 Hv2]. split; [congruence|].
  intros cid v Hv. apply Hv2, Hv1, Hv.
Qed.

Lemma cache_kept_eq (f g : Frontend E) : g = f → cache_kept f g.
Proof. intros ->. apply cache_kept_refl. Qed.

Lemma verify_client_signature_keeps (cert : list Byte.byte) (cid : N)
    (sr : SignedReq) st :
  cache_kept (fe st) (fe (verify_client_signature cert cid sr st).2).
Proof.
  unfold verify_client_signature. simpl.
  case_bool_decide; simpl; [apply cache_kept_refl|].
  destruct (verifiers (fe st) !! cid) as [v0|] eqn:Hcid; simpl;
    (split; [done|]); intros cid' v Hv; simpl; [done|].
  rewrite lookup_insert_ne; [done|]. intros ->. congruence.
Qed.

Lemma verify_client_signature_hit (cert : list Byte.byte) (cid : N)
    (sr : SignedReq) st (v : Verifier E) :
  verifiers (fe st) !! cid = Some v →
  (verify_client_signature cert cid sr st).1
    = (if bool_decide (client_signatures_name (fe st) = "") then false
       else verifier_verify E v (req sr) (sig sr) (md sr))
  ∧ verifiers (fe (verify_client_signature cert cid sr st).2) = verifiers (fe st).
Proof.
  unfold verify_client_signature. simpl. intros Hv.
  case_bool_decide; simpl; [done|]. rewrite Hv. done.
Qed.

Lemma early_gates_keeps_fe tx (caller_id : N) st :
  fe (exit_state (early_gates tx caller_id st)) = fe st.
Proof.
  unfold early_gates.
  destruct (lookup_endpoint tx st) as [[o st1]|[ep st1]] eqn:Hlook.
  - apply lookup_endpoint_inl in Hlook as (_ & _ & Hfe & _). done.
  - apply lookup_endpoint_inr in Hlook as [_ ->].
    unfold identity_override, identity_gate, respond, update_metrics_of. simpl.
    repeat case_match; simplify_eq; simpl; done.
Qed.

Lemma signature_gate_keeps ep (sr : option SignedReq) (c : N) (prim : bool) st :
  cache_kept (fe st) (fe (exit_state (signature_gate ep sr c prim st))).
Proof.
  unfold signature_gate.
  destruct sr as [s|]; [|apply cache_kept_refl].
  destruct (must_verify st); [|apply cache_kept_refl].
  pose proof (verify_client_signature_keeps (caller_cert (session (ctx st)))
                c s st) as Hkeep.
  destruct (verify_client_signature _ c s st) as [ok st1]. simpl in Hkeep.
  destruct ok; done.
Qed.

Lemma jwt_gate_keeps_fe ep tx st : fe (exit_state (jwt_gate ep tx st)) = fe st.
Proof.
  unfold jwt_gate, respond, update_metrics_of.
  repeat case_match; simplify_eq; simpl; done.
Qed.

Lemma forward_or_redirect_json_keeps_fe ep (c : N) st :
  fe (forward_or_redirect_json ep c st).2 = fe st.
Proof.
  unfold forward_or_redirect_json, could_not_forward, respond, update_metrics_of.
  repeat case_match; simplify_eq; simpl; done.
Qed.

Lemma attempt_keeps_fe p pre_exec tx st :
  fe (attempt_state (attempt p pre_exec tx st)) = fe st.
Proof.
  unfold attempt, try_block.
  pose proof (run_endpoint_keeps_fe p pre_exec tx (log EvAttempt st)) as H.
  destruct (run_endpoint p pre_exec tx (log EvAttempt st)) as [[oe tx1] st1].
  simpl in H. unfold commit_ok, respond, update_metrics_of.
  repeat case_match; simplify_eq; simpl; done.
Qed.

Lemma attempt_loop_keeps_fe (remaining : nat) p pre_exec tx st :
  fe (attempt_loop remaining p pre_exec tx st).2 = fe st.
Proof.
  revert tx st. induction remaining as [|n IH]; intros tx st; [done|].
  simpl. pose proof (attempt_keeps_fe p pre_exec tx st) as H.
  destruct (attempt p pre_exec tx st) as [tx1 st1|o tx1 st1]; simpl in H.
  - rewrite IH. done.
  - done.
Qed.

(** No path of [process_command] evicts or replaces a cached verifier. *)
Lemma process_command_keeps tx (caller_id : N) pre_exec st :
  cache_kept (fe st) (fe (process_command tx caller_id pre_exec st).2).
Proof.
  unfold process_command, auth_pipeline.
  pose proof (early_gates_keeps_fe tx caller_id st) as H1.
  destruct (early_gates tx caller_id st)
    as [[o st1]|[[[[ep sr] c] prim] st1]]; simpl in H1.
  { simpl. rewrite H1. apply cache_kept_refl. }
  rewrite <- H1.
  pose proof (signature_gate_keeps ep sr c prim st1) as H2.
  destruct (signature_gate ep sr c prim st1) as [[o st2]|[rec st2]];
    simpl in H2; [done|].
  apply (cache_kept_trans _ _ _ H2).
  pose proof (jwt_gate_keeps_fe ep tx st2) as H3.
  destruct (jwt_gate ep tx st2) as [[o st3]|[j st3]]; simpl in H3.
  { simpl. rewrite H3. apply cache_kept_refl. }
  rewrite <- H3.
  destruct (dispatch_decision _ (update_history st3)).
  - unfold executor. rewrite attempt_loop_keeps_fe. split; done.
  - pose proof (forward_or_redirect_json_keeps_fe ep c
                  (with_ctx (set_is_forwarding true) (update_history st3))) as H4.
    simpl p_endpoint. simpl p_caller_id.
    destruct (forward_or_redirect_json ep c
                (with_ctx (set_is_forwarding true) (update_history st3))).
    simpl in H4 |- *. rewrite H4. split; done.
Qed.

Lemma process_keeps st : cache_kept (fe st) (fe (process st).2).
Proof.
  unfold process.
  assert (cache_kept (fe st) (fe (update_consensus st))) as H0.
  { unfold update_consensus. case_bool_decide; split; done. }
  apply (cache_kept_trans _ _ _ H0).
  set (st0 := update_consensus st). set (tx := create_tx E (world st0)).
  assert (cache_kept (fe st0) (fe (is_open tx st0).2)) as H1.
  { unfold is_open. repeat case_match; split; done. }
  destruct (is_open tx st0) as [opened st1]. simpl in H1.
  apply (cache_kept_trans _ _ _ H1).
  destruct opened; simpl; [|split; done].
  repeat case_match; simplify_eq; simpl; try (split; done).
  all: match goal with
       | H : process_command ?t ?c ?pre ?s = _ |- _ =>
           pose proof (process_command_keeps t c pre s) as Hpc;
           rewrite H in Hpc
       end.
  all: exact Hpc.
Qed.

Lemma update_consensus_keeps st : cache_kept (fe st) (fe (update_consensus st)).
Proof. unfold update_consensus. case_bool_decide; split; done. Qed.

Lemma is_open_keeps tx st : cache_kept (fe st) (fe (is_open tx st).2).
Proof. unfold is_open. repeat case_match; split; done. Qed.

Lemma open_keeps (identity : option Pem) st :
  cache_kept (fe st) (fe (open identity st)).
Proof. unfold open. repeat case_match; split; done. Qed.

Lemma executor_keeps p pre_exec tx st :
  cache_kept (fe st) (fe (executor p pre_exec tx st).2).
Proof. unfold executor. rewrite attempt_loop_keeps_fe. split; done. Qed.

Lemma process_bft_keeps (X : Ext E) st :
  cache_kept (fe st) (fe (process_bft X st).2).
Proof.
  unfold process_bft.
  pose proof (is_open_keeps (create_tx E (world st)) st) as H1.
  destruct (is_open (create_tx E (world st)) st) as [opened st1]. simpl in H1.
  destruct opened; simpl; [|done].
  apply (cache_kept_trans _ _ _ H1).
  apply (cache_kept_trans _ _ _ (update_consensus_keeps st1)).
  destruct (original_caller (session (ctx (update_consensus st1))))
    as [caller_id|]; [|apply cache_kept_refl].
  pose proof (process_command_keeps (create_tx E (world st)) caller_id
                (Some (bft_pre_exec X)) (update_consensus st1)) as H2.
  destruct (process_command _ caller_id _ (update_consensus st1))
    as [[rep tx'] st2]. simpl in H2. destruct rep; done.
Qed.

Lemma process_forwarded_keeps (X : Ext E) st :
  cache_kept (fe st) (fe (process_forwarded X st).2).
Proof.
  unfold process_forwarded.
  destruct (original_caller (session (ctx st))) as [caller_id|];
    [|apply cache_kept_refl].
  apply (cache_kept_trans _ _ _ (update_consensus_keeps st)).
  set (st0 := update_consensus st).
  destruct (consensus (fe st0)) as [cs|]; [|apply cache_kept_refl].
  case_bool_decide.
  - pose proof (process_command_keeps (create_tx E (world st0)) caller_id None
                  st0) as H2.
    destruct (process_command _ caller_id None st0) as [[rep tx'] st2].
    simpl in H2. destruct rep; done.
  - pose proof (process_bft_keeps X st0) as H2.
    destruct (process_bft X st0) as [rep st2]. simpl in H2.
    destruct rep as [[r v]| | |]; done.
Qed.

Lemma tick_keeps (X : Ext E) (elapsed : Z) st :
  cache_kept (fe st) (fe (tick X elapsed st)).
Proof.
  unfold tick. apply (cache_kept_trans _ _ _ (update_consensus_keeps st)).
  split; done.
Qed.

Lemma step_keeps (X : Ext E) st st' :
  step X st st' → cache_kept (fe st) (fe st').
Proof.
  intros [s f|s f|s i|s tx|s|s|s|s el|s b|s|s|s|s cert cid sr|s tx c pre|s ep
          |s ep tx|s p pre tx|s ep c].
  - split; done.
  - split; done.
  - apply open_keeps.
  - apply is_open_keeps.
  - apply process_keeps.
  - apply process_bft_keeps.
  - apply process_forwarded_keeps.
  - apply tick_keeps.
  - split; done.
  - split; done.
  - apply update_consensus_keeps.
  - split; done.
  - apply verify_client_signature_keeps.
  - apply process_command_keeps.
  - split; done.
  - rewrite jwt_gate_keeps_fe. apply cache_kept_refl.
  - apply executor_keeps.
  - rewrite forward_or_redirect_json_keeps_fe. apply cache_kept_refl.
Qed.

Lemma later_keeps (X : Ext E) st st' :
  later X st st' → cache_kept (fe st) (fe st').
Proof.
  induction 1 as [|st' st'' _ IH Hstep].
  - apply cache_kept_refl.
  - apply (cache_kept_trans _ _ _ IH), (step_keeps X _ _ Hstep).
Qed.

Lemma later_trans (X : Ext E) st st' st'' :
  later X st st' → later X st' st'' → later X st st''.
Proof.
  intros H1 H2. induction H2 as [|s s' _ IH Hstep]; [done|].
  eapply later_step; done.
Qed.

(** What follows the signature gate's verification inside a run of
    [process_command] is a sequence of steps. *)
Lemma run_after_verification tx (c0 : N) pre_exec st ep (sr : SignedReq)
    (c : N) (prim : bool) st1 (X : Ext E) :
  early_gates tx c0 st = inr (ep, Some sr, c, prim, st1) →
  must_verify st1 = true →
  later X (verify_client_signature (caller_cert (session (ctx st1))) c sr st1).2
    (process_command tx c0 pre_exec st).2.
Proof.
  intros Hearly Hmust. unfold process_command, auth_pipeline.
  rewrite Hearly. unfold signature_gate. rewrite Hmust.
  destruct (verify_client_signature (caller_cert (session (ctx st1))) c sr st1)
    as [ok st2]. destruct ok; simpl.
  - pose proof (step_jwt_gate X st2 ep tx) as Hj.
    destruct (jwt_gate ep tx st2) as [[o st3]|[j st3]]; simpl in Hj |- *.
    + eapply later_step; [apply later_now | exact Hj].
    + assert (later X st2 (update_history st3)) as Hl.
      { eapply later_step; [|apply step_update_history].
        eapply later_step; [apply later_now | exact Hj]. }
      destruct (dispatch_decision _ (update_history st3)).
      * eapply later_step; [exact Hl | apply step_executor].
      * pose proof (step_forward X
                      (with_ctx (set_is_forwarding true) (update_history st3))
                      ep c) as Hf.
        simpl p_endpoint. simpl p_caller_id.
        destruct (forward_or_redirect_json ep c
                    (with_ctx (set_is_forwarding true) (update_history st3)))
          as [o st4]. simpl in Hf |- *.
        eapply later_step; [|exact Hf].
        eapply later_step; [exact Hl | apply step_ctx].
  - unfold respond. simpl.
    eapply later_step; [|apply step_update_metrics].
    eapply later_step; [apply later_now | apply step_ctx].
Qed.

(** C10.  Once [verify_client_signature] has run for a caller id (with a
    signatures table configured, so that the call reached the cache),
    standalone or as the signature gate of a request, then whatever the
    frontend does later (the rest of that request, further verifications,
    [open], [is_open], [process], [process_command], [process_bft],
    [process_forwarded], [tick], the setters, new request contexts, changes
    in the collaborators), a call for that caller id verifies with the
    verifier made from the first call's certificate: the certificate
    presented is ignored, so two calls that differ only in the certificate
    agree, and the cached entry is never evicted or replaced. *)
Theorem verifier_cached_from_first_cert (X : Ext E) (cert0 : list Byte.byte)
    (cid : N) (sr0 : SignedReq) st st2 :
  client_signatures_name (fe st) ≠ "" →
  verifiers (fe st) !! cid = None →
  later X (verify_client_signature cert0 cid sr0 st).2 st2 →
  verifiers (fe st2) !! cid = Some (make_verifier E cert0)
  ∧ ∀ (cert cert' : list Byte.byte) (sr : SignedReq),
      (verify_client_signature cert cid sr st2).1
        = verifier_verify E (make_verifier E cert0) (req sr) (sig sr) (md sr)
      ∧ (verify_client_signature cert cid sr st2).1
        = (verify_client_signature cert' cid sr st2).1
      ∧ verifiers (fe (verify_client_signature cert cid sr st2).2)
        = verifiers (fe st2).
Proof.
  intros Hname Hmiss Hlater.
  set (st1 := (verify_client_signature cert0 cid sr0 st).2) in *.
  assert (verifiers (fe st1) !! cid = Some (make_verifier E cert0)) as H1.
  { subst st1. unfold verify_client_signature. simpl.
    rewrite bool_decide_eq_false_2 by done. simpl. rewrite Hmiss. simpl.
    apply lookup_insert_eq. }
  assert (client_signatures_name (fe st1) = client_signatures_name (fe st)) as Hn1.
  { apply verify_client_signature_keeps. }
  destruct (later_keeps X _ _ Hlater) as [Hn2 Hkeep].
  pose proof (Hkeep _ _ H1) as H2.
  assert (client_signatures_name (fe st2) ≠ "") as Hname2 by congruence.
  split; [done|]. intros cert cert' sr.
  destruct (verify_client_signature_hit cert cid sr st2 _ H2) as [-> ->].
  destruct (verify_client_signature_hit cert' cid sr st2 _ H2) as [-> _].
  rewrite bool_decide_eq_false_2 by done. done.
Qed.

End Properties.

(** ** The theorems at concrete requests *)

Section Witnesses.
Import Scenario.

Lemma retry_loop_bounded_witness :
  ∃ resp,
    (process_command (E := env all_conflict) tx0 1%N None
       (a_state all_conflict true false plain_request)).1.1 = Responded resp
    ∧ status resp = 409
    ∧ body resp = "Transaction continued to conflict after 30 attempts.".
Proof.
  destruct (retry_loop_bounded (E := env all_conflict) tx0 1%N None
              (a_state all_conflict true false plain_request)
              (unsigned_pass Never true)
              (update_history
                 (on_metrics (log_endpoint Never) incr_calls
                    (log EvFindEndpoint
                       (a_state all_conflict true false plain_request)))))
    as [_ H]; [vm_compute; reflexivity | vm_compute; reflexivity |].
  destruct H as (resp & H1 & H2 & H3 & _); [vm_compute; reflexivity|].
  exists resp. split; [exact H1|]. split; [exact H2 | exact H3].
Defined.

Lemma process_not_open_witness :
  ∃ resp,
    (process (E := env standalone)
       (a_state standalone false false plain_request)).1 = Responded resp
    ∧ status resp = 404 ∧ body resp = "Frontend is not open."
    ∧ metrics (process (E := env standalone)
                 (a_state standalone false false plain_request)).2 = ∅.
Proof.
  destruct (process_not_open (E := env standalone)
              (a_state standalone false false plain_request))
    as ((resp & H1 & H2 & H3) & Hm & _); [vm_compute; reflexivity|].
  exists resp. split; [exact H1|]. split; [exact H2|]. split; [exact H3|].
  exact Hm.
Defined.

Lemma verifier_cached_from_first_cert_witness :
  let X := Deployment.site_ext (Deployment.bare only_first) in
  let st0 := Deployment.site_state (Deployment.bare only_first) true false None signed_request_ in
  let st1 := (process_command (E := Deployment.site_env (Deployment.bare only_first)) tx0 1%N None
                st0).2 in
  let st2 :=
    tick X 10
      (process_forwarded X
         (with_ctx (λ _, forwarded_request)
            (open None (disable_request_storing st1)))).2 in
  verifications (trace st1) = [([Byte.x0a], 7%N)]
  ∧ (verify_client_signature [Byte.x0e] 7%N a_signed_request st2).1 = true
  ∧ (verify_client_signature [Byte.x0e] 7%N a_signed_request st2).1
    = (verify_client_signature [Byte.x0f] 7%N a_signed_request st2).1.
Proof.
  intros X st0 st1 st2.
  split; [vm_compute; reflexivity|].
  set (g := on_metrics (log_endpoint Never) incr_calls (log EvFindEndpoint st0)).
  assert (early_gates (E := Deployment.site_env (Deployment.bare only_first)) tx0 1%N st0
          = inr (log_endpoint Never, Some a_signed_request, 7%N, true, g))
    as Hearly by (vm_compute; reflexivity).
  destruct (verifier_cached_from_first_cert X [Byte.x0a] 7%N a_signed_request
              g st2) as [_ H].
  - vm_compute. discriminate.
  - vm_compute. reflexivity.
  - eapply later_step; [|apply step_tick].
    eapply later_step; [|apply step_process_forwarded].
    eapply later_step; [|apply step_ctx].
    eapply later_step; [|apply step_open].
    eapply later_step; [|apply step_disable_request_storing].
    apply (run_after_verification (E := Deployment.site_env (Deployment.bare only_first)) tx0 1%N
             None st0 _ a_signed_request 7%N _ _ X Hearly).
    vm_compute. reflexivity.
  - destruct (H [Byte.x0e] [Byte.x0f] a_signed_request) as (H1 & H2 & _).
    split; [exact H1 | exact H2].
Defined.

Lemma commit_ok_reports_version_witness :
  (∃ resp st',
     attempt (E := env cft_backup) (unsigned_pass Never false) None tx0
       (a_state cft_backup true false plain_request)
       = Done (E := env cft_backup) (Responded resp) (42, 3, 41) st'
     ∧ seqno resp = Some 42 ∧ view resp = Some 3)
  ∧ (∃ resp st',
       attempt (E := env standalone) (unsigned_pass Never true) None tx0
         (a_state standalone true false plain_request)
         = Done (E := env standalone) (Responded resp) (42, 3, 41) st'
       ∧ seqno resp = None ∧ view resp = None).
Proof.
  split.
  - edestruct (commit_ok_reports_version (E := env cft_backup)
                 (unsigned_pass Never false) None tx0
                 (a_state cft_backup true false plain_request)
                 tx0
                 (log (EvExecuteEndpoint 1%N)
                    (with_world (E := env cft_backup) (λ _, 1%nat)
                       (log EvAttempt
                          (a_state cft_backup true false plain_request))))
                 (42, 3, 41) 1%nat)
      as (resp & st' & H1 & _ & H2 & _);
      [vm_compute; reflexivity | vm_compute; reflexivity
      | vm_compute; reflexivity |].
    exists resp, st'. split; [exact H1|].
    apply H2; [vm_compute; eauto | vm_compute; discriminate].
  - edestruct (commit_ok_reports_version (E := env standalone)
                 (unsigned_pass Never true) None tx0
                 (a_state standalone true false plain_request)
                 tx0
                 (log (EvExecuteEndpoint 1%N)
                    (with_world (E := env standalone) (λ _, 1%nat)
                       (log EvAttempt
                          (a_state standalone true false plain_request))))
                 (42, 3, 41) 1%nat)
      as (resp & st' & H1 & _ & _ & H3);
      [vm_compute; reflexivity | vm_compute; reflexivity
      | vm_compute; reflexivity |].
    exists resp, st'. split; [exact H1|].
    apply H3. left. vm_compute. reflexivity.
Defined.

Lemma bft_always_forwards_witness :
  ∃ resp,
    (process_command (E := env bft_backup) tx0 1%N None
       (a_state bft_backup true false plain_request)).1.1 = Responded resp
    ∧ status resp = 307.
Proof.
  destruct (bft_always_forwards (E := env bft_backup) tx0 1%N None
              (a_state bft_backup true false plain_request)
              (unsigned_pass Always false)
              (update_history
                 (on_metrics (log_endpoint Always) incr_calls
                    (log EvFindEndpoint
                       (a_state bft_backup true false plain_request))))
              1%N)
    as [_ H];
    [vm_compute; reflexivity | vm_compute; reflexivity | vm_compute; reflexivity
    | vm_compute; reflexivity | vm_compute; reflexivity | vm_compute; reflexivity |].
  rewrite H. vm_compute. eexists. split; reflexivity.
Defined.

Lemma forward_or_redirect_cases_witness :
  ∃ resp,
    (forward_or_redirect_json (E := env with_directory) (log_endpoint Always)
       1%N (a_state with_directory true false forwarded_request)).1
      = Responded resp
    ∧ status resp = 307
    ∧ headers resp !! LOCATION = Some "10.0.0.2:8080".
Proof.
  destruct (forward_or_redirect_cases (E := env with_directory)
              (log_endpoint Always) 1%N
              (a_state with_directory true false forwarded_request))
    as [_ H].
  destruct H as (resp & H1 & H2 & H3 & _); [vm_compute; reflexivity|].
  exists resp. split; [exact H1|]. split; [exact H2|].
  apply (H3 1%N {| pubhost := "10.0.0.2"; rpcport := "8080" |});
    vm_compute; reflexivity.
Defined.

Lemma exceptions_classified_witness :
  (process_command (E := env unserialisable) tx0 1%N None
     (a_state unserialisable true false signed_request_)).1.1 = Aborted
  ∧ (∃ st', ∀ n,
       attempt_loop (E := env unserialisable) (S n) signed_pass None tx0
         (a_state unserialisable true false signed_request_)
       = (Aborted, tx0, st'))
  ∧ ∃ resp st',
      attempt_loop (E := env teapot) 30 (unsigned_pass Never true) None tx0
        (a_state teapot true false plain_request)
      = (Responded resp, tx0, st')
      ∧ status resp = 418 ∧ body resp = "teapot".
Proof.
  split; [vm_compute; reflexivity|]. split.
  - destruct (exceptions_classified (E := env unserialisable) signed_pass
                None tx0 (a_state unserialisable true false signed_request_))
      as [H _].
    apply (H (KvSerialiserException "ser") tx0).
    eapply (raised_by_commit (E := env unserialisable)); vm_compute; reflexivity.
  - destruct (exceptions_classified (E := env teapot) (unsigned_pass Never true)
                None tx0 (a_state teapot true false plain_request)) as [H _].
    destruct (H (RpcException 418 "teapot") tx0) as (resp & st' & H1 & H2 & H3).
    { eapply (raised_by_endpoint (E := env teapot)); vm_compute; reflexivity. }
    exists resp, st'. split; [apply (H1 29%nat)|]. split; [exact H2 | exact H3].
Defined.

Lemma signed_caller_overrides_witness :
  let st := a_state signer_resolved true false signed_request_ in
  (∀ c0',
     process_command (E := env signer_resolved) tx0 c0' None st
     = process_command (E := env signer_resolved) tx0 1%N None st)
  ∧ caller_cert
      (session
         (ctx (exit_state (auth_pipeline (E := env signer_resolved) tx0 1%N st))))
    = [Byte.x0b]
  ∧ verifications
      (trace (process_command (E := env signer_resolved) tx0 1%N None st).2)
    = [([Byte.x0b], 7%N)].
Proof.
  intros st.
  destruct (signed_caller_overrides (E := env signer_resolved) tx0 1%N None st
              a_signed_request 7%N)
    as (H1 & _ & _ & H4);
    [reflexivity | reflexivity | vm_compute; discriminate |].
  split; [exact H1|]. split; [|vm_compute; reflexivity].
  destruct H4 as [_ H4]; [vm_compute; eauto|].
  apply H4. left. reflexivity.
Defined.

Lemma verification_iff_guard_witness :
  ∃ resp,
    (process_command (E := env bad_signature) tx0 1%N None
       (a_state bad_signature true false signed_request_)).1.1 = Responded resp
    ∧ status resp = 401
    ∧ headers resp !! WWW_AUTHENTICATE
        = Some ("Signature realm=" +:+ dquote +:+ "Signed request access" +:+
                dquote +:+ ", headers=" +:+ dquote +:+
                "(request-target) digest" +:+ dquote)
    ∧ body resp = "Failed to verify client signature".
Proof.
  destruct (verification_iff_guard (E := env bad_signature) tx0 1%N None
              (a_state bad_signature true false signed_request_))
    as (new & _ & H).
  destruct (early_gates (E := env bad_signature) tx0 1%N
              (a_state bad_signature true false signed_request_))
    as [[o st1]|[[[[ep sr] c] prim] st1]] eqn:Hearly;
    vm_compute in Hearly; [discriminate|].
  injection Hearly as <- <- <- <- <-.
  destruct H as (_ & _ & H).
  apply (H a_signed_request); [reflexivity | reflexivity | | vm_compute; reflexivity].
  intros [(cs & Hcs & _) _]. vm_compute in Hcs. discriminate.
Defined.

(** ** Where the code departs from the stated behaviour *)

(** C3.  The signer resolves to caller 7 but [resolve_caller_id] (the
    default of the class) yields no certificate: the session's
    [caller_cert] is not replaced, and the signature is verified for caller
    7 against the session's certificate. *)
Lemma unresolved_signer_keeps_session_cert :
  let st := a_state signer_unresolved true false signed_request_ in
  let r := process_command (E := env signer_unresolved) tx0 1%N None st in
  get_signed_request (ctx st) = Some a_signed_request
  ∧ get_caller_id_by_digest (env signer_unresolved) tx0
      (key_id a_signed_request) (world st) = 7%N
  ∧ 7%N ≠ INVALID_ID (env signer_unresolved)
  ∧ resolve_caller_id (env signer_unresolved) 7%N tx0 (world st) = None
  ∧ caller_cert (session (ctx r.2)) = caller_cert (session (ctx st))
  ∧ verifications (trace r.2) = [([Byte.x0a], 7%N)].
Proof. vm_compute. repeat split; try reflexivity. discriminate. Qed.

(** C5.  Without a consensus, a request that applies its writes and whose
    commit answers [OK] at version 42 in term 3 is answered with neither
    seqno nor view; so is, with a consensus, a request whose commit answers
    [OK] with the version [NoVersion]. *)
Lemma standalone_commit_reports_no_seqno :
  let st := a_state standalone true false plain_request in
  let r := process_command (E := env standalone) tx0 1%N None st in
  let st' := a_state versionless_commit true false plain_request in
  let r' := process_command (E := env versionless_commit) tx0 1%N None st' in
  (consensus (fe st) = None
   ∧ should_apply_writes (ctx r.2) = true
   ∧ commit (env standalone) tx0 1%nat = (inr OK, (42, 3, 41), 1%nat)
   ∧ commit_version (env standalone) r.1.2 = 42
   ∧ commit_term (env standalone) r.1.2 = 3
   ∧ trace r.2
       = [EvCommit; EvExecuteEndpoint 1%N; EvAttempt; EvSetHistory None;
          EvFindEndpoint]
   ∧ ∃ resp, r.1.1 = Responded resp ∧ status resp = 200
             ∧ seqno resp = None ∧ view resp = None)
  ∧ (consensus (fe st') = Some 1%N
     ∧ should_apply_writes (ctx r'.2) = true
     ∧ (commit (env versionless_commit) tx0 1%nat).1.1 = inr OK
     ∧ commit_version (env versionless_commit) r'.1.2
         = NoVersion (env versionless_commit)
     ∧ commit_term (env versionless_commit) r'.1.2 = 3
     ∧ ∃ resp, r'.1.1 = Responded resp ∧ status resp = 200
               ∧ seqno resp = None ∧ view resp = None).
Proof. vm_compute. repeat split; eexists; repeat split. Qed.

(** C6.  On a BFT backup, a request flagged [execute_on_node] to an
    endpoint whose [forwarding_required] is [Always] is executed locally:
    nothing is forwarded, [session.is_forwarding] stays false and the
    response is that of the committed endpoint. *)
Lemma bft_always_on_node_runs_locally :
  let st := a_state bft_backup true true on_node_request in
  let r := process_command (E := env bft_backup) tx0 1%N None st in
  consensus (fe st) = Some 1%N
  ∧ consensus_type (env bft_backup) 1%N (world st) = BFT
  ∧ compute_is_primary st = false
  ∧ find_endpoint (env bft_backup) tx0 (ctx st) (world st)
      = Some (log_endpoint Always)
  ∧ forwarding_required (properties (log_endpoint Always)) = Always
  ∧ execute_on_node (ctx st) = true
  ∧ trace r.2
      = [EvCommit; EvExecuteEndpoint 1%N; EvAttempt; EvSetHistory None;
         EvFindEndpoint]
  ∧ is_forwarding (session (ctx r.2)) = false
  ∧ ∃ resp, r.1.1 = Responded resp ∧ status resp = 200
            ∧ seqno resp = Some 42.
Proof. vm_compute. repeat split. eexists. repeat split. Qed.

(** C7.  A request that arrived forwarded is redirected with HTTP 307, but
    the nodes table has no entry for the primary: the response carries no
    Location header. *)
Lemma redirect_without_location :
  let st := a_state bft_backup true true forwarded_request in
  let r :=
    forward_or_redirect_json (E := env bft_backup) (log_endpoint Always) 5%N st in
  cmd_forwarder (fe st) = true
  ∧ original_caller (session (ctx st)) = Some 5%N
  ∧ consensus_primary (env bft_backup) 1%N (world st) = 2%N
  ∧ nodes_get (env bft_backup) (create_tx (env bft_backup) (world st)) 2%N = None
  ∧ ∃ resp, r.1 = Responded resp ∧ status resp = 307
            ∧ headers resp !! LOCATION = None.
Proof. vm_compute. repeat split. eexists. repeat split. Qed.

(** C9.  The first execution of the endpoint raises
    [CompactedVersionConflict]: the request is not ended (and not answered
    with 500); the loop makes a second attempt, which commits, and the
    response is 200. *)
Lemma compaction_conflict_is_retried :
  let st := a_state compaction_race true false plain_request in
  let r := process_command (E := env compaction_race) tx0 1%N None st in
  (execute_endpoint (env compaction_race) (log_endpoint Never) plain_request
     tx0 1%N 0%nat).1.1.1 = Some (CompactedVersionConflict "compacted")
  ∧ trace r.2
      = [EvCommit; EvExecuteEndpoint 1%N; EvAttempt; EvTxReset;
         EvExecuteEndpoint 1%N; EvAttempt; EvSetHistory None; EvFindEndpoint]
  ∧ count_attempts (trace r.2) = 2%nat
  ∧ ∃ resp, r.1.1 = Responded resp ∧ status resp = 200.
Proof. vm_compute. repeat split. eexists. repeat split. Qed.

(** C8.  Thirty conflicting commits: the response is 409, a status of class
    4, yet the endpoint's [errors] counter is still 0; only [calls] moved.
    An endpoint that raises [RpcException] with status 418 leaves through a
    sibling exit, which does count the error. *)
Lemma exhausted_retries_not_counted :
  let r := process_command (E := env all_conflict) tx0 1%N None
             (a_state all_conflict true false plain_request) in
  let r' := process_command (E := env teapot) tx0 1%N None
              (a_state teapot true false plain_request) in
  (∃ resp, r.1.1 = Responded resp ∧ status resp = 409
           ∧ Z.quot (status resp) 100 = 4)
  ∧ get_metrics (log_endpoint Never) (metrics r.2)
      = {| calls := 1; errors := 0; failures := 0 |}
  ∧ (∃ resp, r'.1.1 = Responded resp ∧ status resp = 418)
  ∧ get_metrics (log_endpoint Never) (metrics r'.2)
      = {| calls := 1; errors := 1; failures := 0 |}.
Proof. vm_compute. repeat split; eexists; repeat split. Qed.

End Witnesses.

(** ** Further properties of the frontend *)

Section Further.
Context {E : Env}.

Implicit Types (st : St E) (tx : Tx E) (p : Passed) (pre_exec : option (PreExec E)).
Implicit Types (ep : EndpointDefinition).

(** *** Metrics *)

Lemma quot_100_is (s k : Z) :
  0 < k → (Z.quot s 100 = k ↔ 100 * k ≤ s ≤ 100 * k + 99).
Proof. intros Hk. Z.quot_rem_to_equations. lia. Qed.

Lemma size_t_incr_moves (n : N) : size_t_incr n ≠ n.
Proof.
  unfold size_t_incr.
  change (2 ^ 64)%N with 18446744073709551616%N. intros H.
  pose proof (N.mod_upper_bound (n + 1) 18446744073709551616 ltac:(lia)) as Hb.
  destruct (N.lt_ge_cases (n + 1) 18446744073709551616) as [Hlt|Hge].
  - rewrite N.mod_small in H by done. lia.
  - rewrite <- H in Hge.
    assert ((n + 1) mod 18446744073709551616 + 1 = 18446744073709551616)%N
      as Htop by lia.
    rewrite H in Htop. rewrite Htop in H. vm_compute in H. lia.
Qed.

(** X1.  [update_metrics] never touches [calls]; it moves [errors], by one,
    exactly for the statuses 400..499 and [failures], by one, exactly for
    the statuses 500..599; every other status, negative ones included,
    leaves the metrics as they were. *)
Theorem update_metrics_by_class (c : RpcContext) (m : Metrics) :
  let s := get_response_status c in
  let m' := update_metrics c m in
  calls m' = calls m
  ∧ errors m' = (if bool_decide (400 ≤ s ≤ 499) then size_t_incr (errors m)
                 else errors m)
  ∧ failures m' = (if bool_decide (500 ≤ s ≤ 599) then size_t_incr (failures m)
                   else failures m)
  ∧ (m' = m ↔ ¬ 400 ≤ s ≤ 599).
Proof.
  intros s m'. subst m'. unfold update_metrics. fold s.
  pose proof (quot_100_is s 4 ltac:(lia)) as H4.
  pose proof (quot_100_is s 5 ltac:(lia)) as H5.
  destruct (Z.quot s 100 =? 4) eqn:E4; [apply Z.eqb_eq in E4|apply Z.eqb_neq in E4].
  - assert (400 ≤ s ≤ 499) as Hs by (apply H4 in E4; lia).
    rewrite bool_decide_eq_true_2 by done.
    rewrite bool_decide_eq_false_2 by lia. simpl. repeat split; try done.
    + intros Heq. exfalso. apply (size_t_incr_moves (errors m)).
      destruct m; simpl in *. congruence.
    + intros Hn. lia.
  - assert (¬ 400 ≤ s ≤ 499) as Hs by (intros ?; apply E4, H4; lia).
    rewrite (bool_decide_eq_false_2 (400 ≤ s ≤ 499)) by done.
    destruct (Z.quot s 100 =? 5) eqn:E5;
      [apply Z.eqb_eq in E5|apply Z.eqb_neq in E5].
    + assert (500 ≤ s ≤ 599) as Hs' by (apply H5 in E5; lia).
      rewrite bool_decide_eq_true_2 by done. simpl. repeat split; try done.
      * intros Heq. exfalso. apply (size_t_incr_moves (failures m)).
        destruct m; simpl in *. congruence.
      * intros Hn. lia.
    + assert (¬ 500 ≤ s ≤ 599) as Hs' by (intros ?; apply E5, H5; lia).
      rewrite bool_decide_eq_false_2 by done. repeat split; try done. lia.
Qed.

(** *** Phases of a run *)

Lemma within_app (phs : list Phase) (l k : list Event) :
  within phs (l ++ k) = within phs l && within phs k.
Proof. apply forallb_app. Qed.

Lemma count_phase_app (ph : Phase) (l k : list Event) :
  count_phase ph (l ++ k) = (count_phase ph l + count_phase ph k)%nat.
Proof. unfold count_phase. rewrite List.filter_app, length_app. done. Qed.

Lemma within_count_0 (phs : list Phase) (ph : Phase) (l : list Event) :
  within phs l = true → bool_decide (ph ∈ phs) = false →
  count_phase ph l = 0%nat.
Proof.
  intros Hw Hph. apply bool_decide_eq_false in Hph.
  induction l as [|e l IH]; [done|].
  simpl in Hw. apply andb_prop in Hw as [He Hl]. apply bool_decide_eq_true in He.
  unfold count_phase, in_phase. simpl.
  rewrite bool_decide_eq_false_2 by (intros Heq; rewrite Heq in He; done).
  apply IH, Hl.
Qed.

Ltac phase_events :=
  first [ by (exists [])
        | by (eexists [_]) | by (eexists [_; _]) | by (eexists [_; _; _])
        | by (eexists [_; _; _; _]) ].

Lemma early_gates_phase tx (caller_id : N) st :
  ∃ new, trace (exit_state (early_gates tx caller_id st)) = new ++ trace st
         ∧ within [Gates] new = true.
Proof.
  unfold early_gates.
  destruct (lookup_endpoint tx st) as [[o st1]|[ep st1]] eqn:Hlook.
  - apply lookup_endpoint_inl in Hlook as (_ & _ & _ & _ & Ht & _).
    simpl. rewrite Ht. phase_events.
  - apply lookup_endpoint_inr in Hlook as [_ ->].
    unfold identity_override, identity_gate, respond, update_metrics_of. simpl.
    repeat case_match; simplify_eq; simpl; phase_events.
Qed.

Lemma signature_gate_phase ep (sr : option SignedReq) (c : N) (prim : bool) st :
  ∃ new, trace (exit_state (signature_gate ep sr c prim st)) = new ++ trace st
         ∧ within [Gates] new = true.
Proof.
  unfold signature_gate, verify_client_signature, respond, update_metrics_of.
  repeat case_match; simplify_eq; simpl; phase_events.
Qed.

Lemma auth_pipeline_phase tx (caller_id : N) st :
  ∃ new, trace (exit_state (auth_pipeline tx caller_id st)) = new ++ trace st
         ∧ within [Gates; Handles] new = true.
Proof.
  assert (∀ l, within [Gates] l = true → within [Gates; Handles] l = true) as Hweak.
  { intros l Hl. induction l as [|e l IH]; [done|]. simpl in *.
    apply andb_prop in Hl as [He Hl]. rewrite IH by done.
    apply bool_decide_eq_true in He. rewrite bool_decide_eq_true_2; [done|].
    apply list_elem_of_singleton in He. rewrite He. left. }
  unfold auth_pipeline.
  destruct (early_gates_phase tx caller_id st) as (k1 & Hk1 & Hw1).
  destruct (early_gates tx caller_id st)
    as [[o st1]|[[[[ep sr] c] prim] st1]]; simpl in Hk1.
  { exists k1. split; [done|]. apply Hweak, Hw1. }
  destruct (signature_gate_phase ep sr c prim st1) as (k2 & Hk2 & Hw2).
  destruct (signature_gate ep sr c prim st1) as [[o st2]|[rec st2]];
    simpl in Hk2.
  { exists (k2 ++ k1). simpl. rewrite Hk2, Hk1, app_assoc. split; [done|].
    rewrite within_app, !Hweak; done. }
  pose proof (jwt_gate_trace ep tx st2) as Hk3.
  destruct (jwt_gate ep tx st2) as [[o st3]|[j st3]]; simpl in Hk3 |- *.
  { exists (k2 ++ k1). rewrite Hk3, Hk2, Hk1, app_assoc. split; [done|].
    rewrite within_app, !Hweak; done. }
  exists ((EvSetHistory (get_history E (world st3)) :: k2) ++ k1).
  rewrite Hk3, Hk2, Hk1. simpl. rewrite app_assoc. split; [done|].
  rewrite within_app. rewrite !Hweak by done. done.
Qed.

Lemma forward_or_redirect_json_phase ep (c : N) st :
  ∃ new, trace (forward_or_redirect_json ep c st).2 = new ++ trace st
         ∧ within [Forwarding] new = true ∧ (length new ≤ 1)%nat
         ∧ ((forward_or_redirect_json ep c st).1 = Pending → length new = 1%nat).
Proof.
  unfold forward_or_redirect_json, could_not_forward, respond, update_metrics_of.
  repeat case_match; simplify_eq; simpl;
    first [ by (exists []; repeat split; simpl; first [done | lia])
          | by (eexists [_]; repeat split; simpl; first [done | lia]) ].
Qed.

Lemma run_endpoint_phase p pre_exec tx st :
  ∃ new, trace (run_endpoint p pre_exec tx st).2 = new ++ trace st
         ∧ within [Execution] new = true.
Proof.
  unfold run_endpoint, record_client_signature.
  repeat case_match; simplify_eq; simpl; phase_events.
Qed.

Lemma try_block_phase p pre_exec tx st :
  ∃ new, trace (try_state (try_block p pre_exec tx st)) = new ++ trace st
         ∧ within [Execution] new = true.
Proof.
  unfold try_block.
  destruct (run_endpoint_phase p pre_exec tx st) as (new & Hnew & Hw).
  destruct (run_endpoint p pre_exec tx st) as [[oe tx1] st1]. simpl in Hnew.
  assert (∀ t2, (∃ k, t2 = k ++ trace st1 ∧ within [Execution] k = true) →
                ∃ k, t2 = k ++ trace st ∧ within [Execution] k = true) as Hstep.
  { intros t2 (k & Hk & Hwk). exists (k ++ new). split.
    - rewrite Hk, Hnew, app_assoc. done.
    - rewrite within_app, Hwk, Hw. done. }
  unfold commit_ok, respond, update_metrics_of.
  repeat case_match; simplify_eq; simpl; apply Hstep; phase_events.
Qed.

Lemma attempt_phase p pre_exec tx st :
  ∃ new, trace (attempt_state (attempt p pre_exec tx st)) = new ++ trace st
         ∧ within [Execution] new = true.
Proof.
  unfold attempt.
  destruct (try_block_phase p pre_exec tx (log EvAttempt st)) as (new & Hnew & Hw).
  assert (∀ t2, (∃ k, t2 = k ++ trace (try_state
                       (try_block p pre_exec tx (log EvAttempt st)))
                      ∧ within [Execution] k = true) →
                ∃ k, t2 = k ++ trace st ∧ within [Execution] k = true) as Hstep.
  { intros t2 (k & Hk & Hwk). exists (k ++ new ++ [EvAttempt]). split.
    - rewrite Hk, Hnew. simpl. rewrite <- !app_assoc. done.
    - rewrite !within_app, Hwk, Hw. done. }
  destruct (try_block p pre_exec tx (log EvAttempt st))
    as [e tx1 st1|o tx1 st1|tx1 st1]; simpl in Hstep |- *.
  - destruct e; unfold respond, update_metrics_of; simpl; apply Hstep;
      phase_events.
  - apply Hstep. phase_events.
  - apply Hstep. phase_events.
Qed.

Lemma attempt_loop_phase (remaining : nat) p pre_exec tx st :
  ∃ new, trace (attempt_loop remaining p pre_exec tx st).2 = new ++ trace st
         ∧ within [Execution] new = true.
Proof.
  revert tx st. induction remaining as [|n IH]; intros tx st.
  - exists []. done.
  - simpl. destruct (attempt_phase p pre_exec tx st) as (k & Hk & Hw).
    destruct (attempt p pre_exec tx st) as [tx1 st1|o tx1 st1]; simpl in Hk.
    + destruct (IH tx1 st1) as (k' & Hk' & Hw').
      exists (k' ++ k). rewrite Hk', Hk, app_assoc, within_app, Hw, Hw'. done.
    + exists k. done.
Qed.

(** *** What a run hands back *)

Lemma early_gates_exit tx (caller_id : N) st o st' :
  early_gates tx caller_id st = inl (o, st') →
  o = Responded (serialise_response (ctx st')).
Proof.
  unfold early_gates, lookup_endpoint, identity_override, identity_gate, respond.
  repeat case_match; simplify_eq; simpl; intros; simplify_eq; done.
Qed.

Lemma signature_gate_exit ep (sr : option SignedReq) (c : N) (prim : bool) st o st' :
  signature_gate ep sr c prim st = inl (o, st') →
  o = Responded (serialise_response (ctx st')).
Proof.
  unfold signature_gate, respond.
  repeat case_match; simplify_eq; simpl; intros; simplify_eq; done.
Qed.

Lemma jwt_gate_exit ep tx st o st' :
  jwt_gate ep tx st = inl (o, st') →
  o = Responded (serialise_response (ctx st'))
  ∨ o = Uncaught "bad optional access".
Proof.
  unfold jwt_gate, respond.
  repeat case_match; simplify_eq; simpl; intros; simplify_eq; eauto.
Qed.

Lemma auth_pipeline_exit tx (caller_id : N) st o st' :
  auth_pipeline tx caller_id st = inl (o, st') →
  o = Responded (serialise_response (ctx st'))
  ∨ o = Uncaught "bad optional access".
Proof.
  unfold auth_pipeline.
  destruct (early_gates tx caller_id st)
    as [[o1 st1]|[[[[ep sr] c] prim] st1]] eqn:H1.
  { intros ?. simplify_eq. left. eapply early_gates_exit, H1. }
  destruct (signature_gate ep sr c prim st1) as [[o2 st2]|[rec st2]] eqn:H2.
  { intros ?. simplify_eq. left. eapply signature_gate_exit, H2. }
  destruct (jwt_gate ep tx st2) as [[o3 st3]|[j st3]] eqn:H3; [|done].
  intros ?. simplify_eq. eapply jwt_gate_exit, H3.
Qed.

Lemma attempt_outcome p pre_exec tx st o tx' st' :
  attempt p pre_exec tx st = Done o tx' st' →
  o = Responded (serialise_response (ctx st')) ∨ o = Aborted.
Proof.
  unfold attempt.
  pose proof (try_block_metrics p pre_exec tx (log EvAttempt st)) as Hm.
  destruct (try_block p pre_exec tx (log EvAttempt st))
    as [e tx1 st1|o1 tx1 st1|tx1 st1]; [destruct e| |]; unfold respond; simpl;
    intros ?; simplify_eq; eauto.
  destruct Hm as [[r ->] [-> _]]. eauto.
Qed.

Lemma attempt_loop_outcome (remaining : nat) p pre_exec tx st :
  let r := attempt_loop remaining p pre_exec tx st in
  r.1.1 = Responded (serialise_response (ctx r.2)) ∨ r.1.1 = Aborted.
Proof.
  revert tx st. induction remaining as [|n IH]; intros tx st; simpl.
  - left. done.
  - destruct (attempt p pre_exec tx st) as [tx1 st1|o tx1 st1] eqn:Ha.
    + apply IH.
    + simpl. eapply attempt_outcome, Ha.
Qed.

Lemma process_command_phases tx (caller_id : N) pre_exec st :
  let r := process_command tx caller_id pre_exec st in
  ∃ new, trace r.2 = new ++ trace st
    ∧ count_phase Lifecycle new = 0%nat
    ∧ count_phase Distribution new = 0%nat
    ∧ (count_phase Forwarding new ≤ 1)%nat
    ∧ (if reaches_executor tx caller_id st
       then count_phase Forwarding new = 0%nat
       else count_phase Execution new = 0%nat)
    ∧ (r.1.1 = Pending →
       count_phase Forwarding new = 1%nat
       ∧ count_phase Execution new = 0%nat
       ∧ is_forwarding (session (ctx r.2)) = true).
Proof.
  intros r. subst r. unfold reaches_executor, process_command.
  destruct (auth_pipeline_phase tx caller_id st) as (g & Hg & Hwg).
  assert (∀ ph, bool_decide (ph ∈ [Gates; Handles]) = false → count_phase ph g = 0%nat) as Hg0.
  { intros ph Hph. eapply within_count_0; done. }
  destruct (auth_pipeline tx caller_id st) as [[o st1]|[p st1]] eqn:Hauth;
    simpl in Hg.
  - assert (o ≠ Pending) as Hnp.
    { intros ->. apply auth_pipeline_exit in Hauth as [?|?]; done. }
    exists g. simpl. split; [done|]. rewrite (Hg0 Lifecycle), (Hg0 Distribution), (Hg0 Forwarding), (Hg0 Execution) by done.
    split; [done|]. split; [done|]. split; [lia|]. split; [done|]. done.
  - destruct (dispatch_decision p st1).
    + unfold executor.
      destruct (attempt_loop_phase max_attempts p pre_exec tx
                  (with_fe (λ f, set_tx_count (size_t_incr (tx_count f)) f) st1))
        as (k & Hk & Hwk).
      pose proof (attempt_loop_outcome max_attempts p pre_exec tx
                  (with_fe (λ f, set_tx_count (size_t_incr (tx_count f)) f) st1))
        as Ho.
      assert (∀ ph, bool_decide (ph ∈ [Execution]) = false → count_phase ph k = 0%nat) as Hk0.
      { intros ph Hph. eapply within_count_0; done. }
      set (lp := attempt_loop max_attempts p pre_exec tx _) in *.
      simpl in Hk, Ho.
      exists (k ++ g). rewrite Hk, Hg, app_assoc.
      rewrite !count_phase_app.
      rewrite (Hg0 Lifecycle), (Hg0 Distribution), (Hg0 Forwarding), (Hg0 Execution) by done.
      rewrite (Hk0 Lifecycle), (Hk0 Distribution), (Hk0 Forwarding) by done.
      split; [done|]. split; [done|]. split; [done|]. split; [lia|].
      split; [done|].
      intros Hp. rewrite Hp in Ho. destruct Ho; done.
    + destruct (forward_or_redirect_json_phase (p_endpoint p) (p_caller_id p)
                  (with_ctx (set_is_forwarding true) st1))
        as (k & Hk & Hwk & Hlen & Hpend).
      assert (fe_ctx_kept :
        (forward_or_redirect_json (p_endpoint p) (p_caller_id p)
           (with_ctx (set_is_forwarding true) st1)).1 = Pending →
        is_forwarding (session (ctx
          (forward_or_redirect_json (p_endpoint p) (p_caller_id p)
             (with_ctx (set_is_forwarding true) st1)).2)) = true).
      { unfold forward_or_redirect_json, could_not_forward, respond.
        repeat case_match; simplify_eq; simpl; done. }
      assert (∀ ph, bool_decide (ph ∈ [Forwarding]) = false → count_phase ph k = 0%nat) as Hk0.
      { intros ph Hph. eapply within_count_0; done. }
      assert (count_phase Forwarding k = length k) as Hall.
      { clear -Hwk. induction k as [|e k IH]; [done|]. simpl in Hwk.
        apply andb_prop in Hwk as [He Hk]. apply bool_decide_eq_true in He.
        apply list_elem_of_singleton in He.
        unfold count_phase, in_phase in *. simpl.
        rewrite bool_decide_eq_true_2 by done. simpl. rewrite IH; done. }
      destruct (forward_or_redirect_json (p_endpoint p) (p_caller_id p)
                  (with_ctx (set_is_forwarding true) st1)) as [o st2].
      simpl in *. exists (k ++ g). rewrite Hk, Hg, app_assoc.
      rewrite !count_phase_app.
      rewrite (Hg0 Lifecycle), (Hg0 Distribution), (Hg0 Forwarding), (Hg0 Execution) by done.
      rewrite (Hk0 Lifecycle), (Hk0 Distribution), (Hk0 Execution) by done.
      rewrite Hall.
      split; [done|]. split; [done|]. split; [done|]. split; [lia|].
      split; [done|].
      intros Hp. rewrite Hpend by done. split; [done|]. split; [done|].
      apply fe_ctx_kept, Hp.
Qed.

(** X7.  In one run of [process_command] the endpoint is executed or the
    request is forwarded, never both: a request that does not get to the
    executor starts no attempt, executes nothing and writes nothing; one
    that does is not forwarded; [forward_command] is called at most once;
    and the request is left pending only when that call was made, with
    [session.is_forwarding] set. *)
Theorem execute_or_forward tx (caller_id : N) pre_exec st :
  let r := process_command tx caller_id pre_exec st in
  ∃ new, trace r.2 = new ++ trace st
    ∧ count_phase Lifecycle new = 0%nat
    ∧ count_phase Distribution new = 0%nat
    ∧ (count_phase Forwarding new ≤ 1)%nat
    ∧ (if reaches_executor tx caller_id st
       then count_phase Forwarding new = 0%nat
       else count_phase Execution new = 0%nat)
    ∧ (r.1.1 = Pending →
       count_phase Forwarding new = 1%nat
       ∧ count_phase Execution new = 0%nat
       ∧ is_forwarding (session (ctx r.2)) = true).
Proof. apply process_command_phases. Qed.

(** *** The gates, exit by exit *)

(** X2.  A request for which no endpoint is found is answered at once: 404
    with a text content type and "Unknown path: <method>" when no verb is
    allowed on the path, 405 with an Allow header and a body listing the
    allowed verbs otherwise.  No counter moves, the frontend, the
    collaborators and the transaction are untouched. *)
Theorem unknown_endpoint tx (caller_id : N) pre_exec st :
  find_endpoint E tx (ctx st) (world st) = None →
  let r := process_command tx caller_id pre_exec st in
  let verbs := get_allowed_verbs E (ctx st) (world st) in
  (∃ resp, r.1.1 = Responded resp
     ∧ (verbs = [] →
        status resp = 404 ∧ headers resp !! CONTENT_TYPE = Some TEXT
        ∧ body resp = "Unknown path: " +:+ method (ctx st))
     ∧ (verbs ≠ [] →
        status resp = 405 ∧ headers resp !! ALLOW = Some (join ", " verbs)
        ∧ body resp =
            "Allowed methods for '" +:+ method (ctx st) +:+ "' are: " +:+
            join ", " verbs))
  ∧ r.1.2 = tx ∧ metrics r.2 = metrics st ∧ fe r.2 = fe st
  ∧ world r.2 = world st
  ∧ trace r.2 = EvGetAllowedVerbs :: EvFindEndpoint :: trace st.
Proof.
  intros Hfind r verbs. subst r verbs.
  unfold process_command, auth_pipeline, early_gates, lookup_endpoint, respond.
  simpl. rewrite Hfind.
  destruct (get_allowed_verbs E (ctx st) (world st)) as [|v verbs] eqn:Hverbs;
    simpl.
  - split; [|done]. eexists. split; [done|]. split; [|done].
    intros _. repeat split. apply lookup_insert_eq.
  - split; [|done]. eexists. split; [done|]. split; [done|].
    intros _. repeat split. apply lookup_insert_eq.
Qed.

Lemma lookup_endpoint_found tx st ep :
  find_endpoint E tx (ctx st) (world st) = Some ep →
  lookup_endpoint tx st
    = inr (ep, on_metrics ep incr_calls (log EvFindEndpoint st)).
Proof. intros Hfind. unfold lookup_endpoint. simpl. rewrite Hfind. done. Qed.

Lemma early_gates_override tx (caller_id : N) st ep :
  find_endpoint E tx (ctx st) (world st) = Some ep →
  ∃ st1,
    identity_override
      (get_signed_request (ctx (on_metrics ep incr_calls (log EvFindEndpoint st))))
      tx caller_id (on_metrics ep incr_calls (log EvFindEndpoint st))
      = (effective_caller tx caller_id st, st1)
    ∧ fe st1 = fe st ∧ world st1 = world st
    ∧ trace st1 = EvFindEndpoint :: trace st
    ∧ metrics st1 =
        <[dispatch ep := incr_calls (get_metrics ep (metrics st))]> (metrics st)
    ∧ method (ctx st1) = method (ctx st)
    ∧ original_caller (session (ctx st1)) = original_caller (session (ctx st)).
Proof.
  intros Hfind. unfold effective_caller, identity_override. simpl.
  repeat case_match; simplify_eq; simpl; eexists; (split; [reflexivity|]); done.
Qed.

(** X3.  An endpoint that requires a client identity, on a registry that
    holds certificates, refuses a caller whose effective id is
    [INVALID_ID]: HTTP 403 with the frontend's invalid-caller message; the
    call and the error are counted, and nothing but the lookup and the
    identity check has happened. *)
Theorem invalid_caller_refused tx (caller_id : N) pre_exec st ep :
  find_endpoint E tx (ctx st) (world st) = Some ep →
  require_client_identity (properties ep) = true →
  has_certs E (world st) = true →
  effective_caller tx caller_id st = INVALID_ID E →
  let r := process_command tx caller_id pre_exec st in
  let m := get_metrics ep (metrics st) in
  (∃ resp, r.1.1 = Responded resp ∧ status resp = 403
           ∧ body resp = invalid_caller_error_message E)
  ∧ get_metrics ep (metrics r.2)
      = {| calls := size_t_incr (calls m);
           errors := size_t_incr (errors m); failures := failures m |}
  ∧ trace r.2 = EvIdentityCheck (INVALID_ID E) :: EvFindEndpoint :: trace st.
Proof.
  intros Hfind Hreq Hcerts Hinv r m. subst r m.
  unfold process_command, auth_pipeline, early_gates.
  rewrite (lookup_endpoint_found tx st ep Hfind). cbv beta iota zeta.
  destruct (early_gates_override tx caller_id st ep Hfind)
    as (st1 & -> & Hfe & Hw & Ht & Hm & _).
  rewrite Hinv. unfold identity_gate. rewrite Hreq, Hw, Hcerts. simpl.
  rewrite (bool_decide_eq_true_2 (INVALID_ID E = INVALID_ID E)) by done.
  assert (∀ (b : bool) (s : St E),
            (let '(unknown_forwarded, s') := (b, s) in (unknown_forwarded || true, s'))
            = (true, s)) as Hor by (intros [] ?; done).
  unfold respond, update_metrics_of, on_metrics, get_metrics.
  repeat case_match; simplify_eq; simpl in *; simplify_eq; simpl;
    rewrite ?orb_true_r in *; simplify_eq; simpl;
    (split; [eexists; done|]);
    rewrite ?Hm, ?Ht, ?lookup_insert_eq; simpl; rewrite ?lookup_insert_eq;
    try done.
Qed.

(** The identity check reads the context and the collaborators only. *)
Lemma identity_gate_frame ep tx (c : N) st st0 :
  ctx st0 = ctx st → world st0 = world st →
  (identity_gate ep tx c st0).1 = (identity_gate ep tx c st).1
  ∧ ctx (identity_gate ep tx c st0).2 = ctx (identity_gate ep tx c st).2
  ∧ metrics (identity_gate ep tx c st0).2 = metrics st0
  ∧ fe (identity_gate ep tx c st0).2 = fe st0
  ∧ trace (identity_gate ep tx c st0).2
    = (if require_client_identity (properties ep) && has_certs E (world st)
       then [EvIdentityCheck c] else []) ++ trace st0.
Proof.
  intros Hc Hw. unfold identity_gate. simpl. rewrite Hc, Hw.
  destruct (require_client_identity (properties ep) && has_certs E (world st));
    simpl; [|done].
  destruct (original_caller (session (ctx st))); simpl; [|done].
  destruct (lookup_forwarded_caller_cert E (ctx st) tx (world st)); done.
Qed.

(** X4.  An endpoint that requires a client signature refuses an unsigned
    request that passed the identity requirement, whether or not an
    identity check was made: HTTP 401 with the header WWW-Authenticate:
    Signature realm="Signed request access", headers="h1 h2 ..." (the
    required signature headers joined by a space) and the body
    "'<method>' RPC must be signed"; the call and the error are counted;
    no signature is verified, nothing is executed or forwarded. *)
Theorem unsigned_request_refused tx (caller_id : N) pre_exec st ep :
  find_endpoint E tx (ctx st) (world st) = Some ep →
  require_client_signature (properties ep) = true →
  get_signed_request (ctx st) = None →
  (identity_gate ep tx caller_id st).1 = false →
  let r := process_command tx caller_id pre_exec st in
  let m := get_metrics ep (metrics st) in
  (∃ resp, r.1.1 = Responded resp ∧ status resp = 401
           ∧ headers resp !! WWW_AUTHENTICATE
               = Some ("Signature realm=" +:+ dquote +:+
                       "Signed request access" +:+ dquote +:+
                       ", headers=" +:+ dquote +:+
                       join " " (required_signature_headers E) +:+ dquote)
           ∧ body resp
               = "'" +:+ method (ctx (identity_gate ep tx caller_id st).2) +:+
                 "' RPC must be signed")
  ∧ get_metrics ep (metrics r.2)
      = {| calls := size_t_incr (calls m);
           errors := size_t_incr (errors m); failures := failures m |}
  ∧ trace r.2
    = (if require_client_identity (properties ep) && has_certs E (world st)
       then [EvIdentityCheck caller_id] else [])
      ++ EvFindEndpoint :: trace st.
Proof.
  intros Hfind Hsig Hnone Hid r m. subst r m.
  unfold process_command, auth_pipeline, early_gates.
  rewrite (lookup_endpoint_found tx st ep Hfind). cbv beta iota zeta.
  change (get_signed_request (ctx (on_metrics ep incr_calls (log EvFindEndpoint st))))
    with (get_signed_request (ctx st)).
  rewrite Hnone. unfold identity_override.
  destruct (identity_gate_frame ep tx caller_id st
              (on_metrics ep incr_calls (log EvFindEndpoint st)) eq_refl eq_refl)
    as (H1 & H2 & H3 & H4 & H5).
  destruct (identity_gate ep tx caller_id
              (on_metrics ep incr_calls (log EvFindEndpoint st)))
    as [refused st1]. simpl in H1, H2, H3, H4, H5.
  rewrite Hid in H1. subst refused. rewrite Hsig. simpl.
  rewrite H2, H3, H5. unfold get_metrics. simpl.
  rewrite !lookup_insert_eq. simpl.
  split; [|done]. eexists. split; [done|]. split; [done|].
  split; [apply lookup_insert_eq | done].
Qed.

(** X5.  The JWT gate of an endpoint that requires JWT authentication lets
    a request through exactly when a bearer token was extracted without an
    error, its signing key is in the keys table, the signature validates
    and the key has an issuer; the [Jwt] then carries that issuer and the
    token's header and payload.  Every response the gate itself gives is a
    401 with the Bearer challenge, counted as an error.  A validated token
    whose key has no issuer raises instead of answering. *)
Theorem jwt_gate_sound ep tx st :
  require_jwt_authentication (properties ep) = true →
  (∀ (j : option Jwt) st',
     jwt_gate ep tx st = inr (j, st') ↔
     ∃ t key issuer,
       extract_token E (request_headers (ctx st)) = (Some t, "")
       ∧ jwt_keys_get E tx (kid t) = Some key
       ∧ validate_token_signature E t key = true
       ∧ jwt_key_issuer_get E tx (kid t) = Some issuer
       ∧ j = Some {| key_issuer := issuer; header := jwt_header t;
                     payload := jwt_payload t |}
       ∧ st' = st)
  ∧ (∀ resp st',
       jwt_gate ep tx st = inl (Responded resp, st') →
       status resp = 401
       ∧ headers resp !! WWW_AUTHENTICATE = Some bearer_challenge
       ∧ errors (get_metrics ep (metrics st'))
           = size_t_incr (errors (get_metrics ep (metrics st))))
  ∧ (∀ t key reason,
       extract_token E (request_headers (ctx st)) = (Some t, reason) →
       jwt_keys_get E tx (kid t) = Some key →
       validate_token_signature E t key = true →
       jwt_key_issuer_get E tx (kid t) = None →
       jwt_gate ep tx st = inl (Uncaught "bad optional access", st)).
Proof.
  intros Hreq. unfold jwt_gate. rewrite Hreq. split; [|split].
  - intros j st'. split.
    + destruct (extract_token E (request_headers (ctx st))) as [[t|] reason];
        unfold respond;
        repeat case_match; simplify_eq; simpl; intros ?; simplify_eq.
      * match goal with
        | H : negb (bool_decide (_ = "")) = false |- _ =>
            apply negb_false_iff, bool_decide_eq_true in H; subst
        end.
        match goal with
        | H : negb _ = false |- _ => apply negb_false_iff in H
        end.
        eexists _, _, _. repeat split; done.
    + intros (t & key & issuer & -> & -> & -> & -> & -> & ->). simpl. done.
  - intros resp st'.
    destruct (extract_token E (request_headers (ctx st))) as [[t|] reason];
      unfold respond, update_metrics_of, on_metrics, get_metrics;
      repeat case_match; simplify_eq; simpl; intros ?; simplify_eq; simpl;
      rewrite ?lookup_insert_eq; simpl; rewrite ?lookup_insert_eq; done.
  - intros t key reason -> -> -> ->. simpl. done.
Qed.

(** X6.  A signed request gets past the signature gate with
    [should_record_client_signature] equal to [is_primary]; when the guard
    asks for verification this means that a signatures table is configured
    and that the verifier cached for the caller accepted the signature.  A
    frontend without a signatures table refuses every signed request that
    the guard sends to verification, with 401 and without touching the
    verifier cache.  An unsigned request passes and is never recorded. *)
Theorem signature_gate_sound ep (s : SignedReq) (c : N) (prim : bool) st :
  (∀ (rec : bool) st',
     signature_gate ep (Some s) c prim st = inr (rec, st') →
     rec = prim
     ∧ (must_verify st = true →
        client_signatures_name (fe st) ≠ ""
        ∧ ∃ v, verifiers (fe st') !! c = Some v
               ∧ verifier_verify E v (req s) (sig s) (md s) = true))
  ∧ (must_verify st = true → client_signatures_name (fe st) = "" →
     ∃ resp st',
       signature_gate ep (Some s) c prim st = inl (Responded resp, st')
       ∧ status resp = 401 ∧ verifiers (fe st') = verifiers (fe st))
  ∧ signature_gate ep None c prim st = inr (false, st).
Proof.
  unfold signature_gate, verify_client_signature. split; [|split; [|done]].
  - intros rec st'. simpl.
    destruct (must_verify st); simpl.
    + case_bool_decide as Hname; simpl; [done|].
      destruct (verifiers (fe st) !! c) as [v|] eqn:Hv; simpl;
        destruct (verifier_verify E _ (req s) (sig s) (md s)) eqn:Hok; simpl;
        intros ?; simplify_eq; simpl.
      * split; [done|]. intros _. split; [done|]. eauto.
      * split; [done|]. intros _. split; [done|].
        eexists. split; [apply lookup_insert_eq | done].
    + intros ?. simplify_eq. done.
  - intros -> Hname. simpl. rewrite bool_decide_eq_true_2 by done. simpl.
    unfold respond. simpl. eexists _, _. done.
Qed.


(** *** Forwarded requests *)

Lemma early_gates_keeps_caller tx (caller_id : N) st ep sr c prim st1 :
  keeps_original_caller E →
  early_gates tx caller_id st = inr (ep, sr, c, prim, st1) →
  original_caller (session (ctx st1)) = original_caller (session (ctx st)).
Proof.
  intros Hkeep. unfold early_gates.
  destruct (lookup_endpoint tx st) as [[o st0]|[ep0 st0]] eqn:Hlook; [done|].
  apply lookup_endpoint_inr in Hlook as [_ ->].
  unfold identity_override, identity_gate, respond. simpl.
  repeat case_match; simplify_eq; simpl; intros; simplify_eq; simpl; try done.
  all: match goal with
       | H : lookup_forwarded_caller_cert E ?c ?t ?w = (_, _) |- _ =>
           pose proof (Hkeep c t w) as K; rewrite H in K; simpl in K;
           rewrite K; simpl; try done
       end.
Qed.

Lemma auth_pipeline_keeps_caller tx (caller_id : N) st p st1 :
  keeps_original_caller E →
  auth_pipeline tx caller_id st = inr (p, st1) →
  original_caller (session (ctx st1)) = original_caller (session (ctx st)).
Proof.
  intros Hkeep. unfold auth_pipeline.
  destruct (early_gates tx caller_id st)
    as [[o1 st0]|[[[[ep sr] c] prim] st0]] eqn:H1; [done|].
  apply (early_gates_keeps_caller _ _ _ _ _ _ _ _ Hkeep) in H1. rewrite <- H1.
  unfold signature_gate, verify_client_signature, jwt_gate, respond.
  repeat case_match; simplify_eq; simpl; intros; simplify_eq; simpl; done.
Qed.

Lemma redirect_only ep (c : N) st :
  forwardable st = false →
  (forward_or_redirect_json ep c st).1
    = Responded (serialise_response (ctx (forward_or_redirect_json ep c st).2))
  ∧ trace (forward_or_redirect_json ep c st).2 = trace st.
Proof.
  unfold forwardable, forward_or_redirect_json, respond. intros ->.
  repeat case_match; simplify_eq; simpl; done.
Qed.

Lemma process_command_forwarded tx (caller_id : N) pre_exec st :
  keeps_original_caller E →
  is_Some (original_caller (session (ctx st))) →
  let r := process_command tx caller_id pre_exec st in
  r.1.1 ≠ Pending
  ∧ ∃ new, trace r.2 = new ++ trace st ∧ count_phase Forwarding new = 0%nat.
Proof.
  intros Hkeep Hfwd r. subst r. unfold process_command.
  destruct (auth_pipeline_phase tx caller_id st) as (g & Hg & Hwg).
  pose proof (within_count_0 _ Forwarding _ Hwg eq_refl) as Hg0.
  destruct (auth_pipeline tx caller_id st) as [[o st1]|[p st1]] eqn:Hauth;
    simpl in Hg.
  - split.
    + simpl. intros ->.
      apply auth_pipeline_exit in Hauth as [?|?]; done.
    + exists g. done.
  - apply (auth_pipeline_keeps_caller _ _ _ _ _ Hkeep) in Hauth.
    destruct (dispatch_decision p st1).
    + unfold executor.
      destruct (attempt_loop_phase max_attempts p pre_exec tx
                  (with_fe (λ f, set_tx_count (size_t_incr (tx_count f)) f) st1))
        as (k & Hk & Hwk).
      pose proof (within_count_0 _ Forwarding _ Hwk eq_refl) as Hk0.
      pose proof (attempt_loop_outcome max_attempts p pre_exec tx
                  (with_fe (λ f, set_tx_count (size_t_incr (tx_count f)) f) st1))
        as Ho.
      set (lp := attempt_loop max_attempts p pre_exec tx _) in *.
      simpl in Hk, Ho. split.
      * intros Hp. rewrite Hp in Ho. destruct Ho; done.
      * exists (k ++ g). rewrite Hk, Hg, app_assoc.
        rewrite count_phase_app, Hk0, Hg0. done.
    + assert (forwardable (with_ctx (set_is_forwarding true) st1) = false) as Hnf.
      { unfold forwardable. simpl. rewrite Hauth.
        rewrite (bool_decide_eq_true_2 _ Hfwd). apply andb_false_r. }
      destruct (redirect_only (p_endpoint p) (p_caller_id p) _ Hnf) as [Ho Ht].
      destruct (forward_or_redirect_json (p_endpoint p) (p_caller_id p)
                  (with_ctx (set_is_forwarding true) st1)) as [o st2].
      simpl in *. split; [by rewrite Ho|].
      exists g. rewrite Ht, Hg, Hg0. done.
Qed.


(** Whatever [process_command] hands back is a snapshot of the final
    context, pending, the abort, or the exception of the JWT gate. *)
Lemma process_command_outcome tx (caller_id : N) pre_exec st :
  let r := process_command tx caller_id pre_exec st in
  r.1.1 = Responded (serialise_response (ctx r.2)) ∨ r.1.1 = Pending
  ∨ r.1.1 = Aborted ∨ r.1.1 = Uncaught "bad optional access".
Proof.
  intros r. subst r. unfold process_command.
  destruct (auth_pipeline tx caller_id st) as [[o st1]|[p st1]] eqn:Hauth.
  - apply auth_pipeline_exit in Hauth as [->| ->]; simpl; eauto.
  - destruct (dispatch_decision p st1).
    + unfold executor.
      destruct (attempt_loop_outcome max_attempts p pre_exec tx
                  (with_fe (λ f, set_tx_count (size_t_incr (tx_count f)) f) st1))
        as [H|H]; cbv zeta in H; rewrite H; eauto.
    + assert (∀ ep c st,
        (forward_or_redirect_json ep c st).1
          = Responded (serialise_response (ctx (forward_or_redirect_json ep c st).2))
        ∨ (forward_or_redirect_json ep c st).1 = Pending) as Hf.
      { intros ep c st'.
        unfold forward_or_redirect_json, could_not_forward, respond.
        repeat case_match; simplify_eq; simpl; eauto. }
      specialize (Hf (p_endpoint p) (p_caller_id p)
                    (with_ctx (set_is_forwarding true) st1)).
      destruct (forward_or_redirect_json (p_endpoint p) (p_caller_id p)
                  (with_ctx (set_is_forwarding true) st1)) as [o st2].
      simpl in *. destruct Hf as [->| ->]; eauto.
Qed.

(** X8.  A request that arrived forwarded is never forwarded again: when
    [lookup_forwarded_caller_cert] leaves [original_caller] in place,
    [process_command] on a context that carries an original caller makes no
    [forward_command] call and never leaves the request pending; it ends
    with a response, with the abort of the process, or with the exception
    of the JWT gate. *)
Theorem forwarded_never_pending tx (caller_id : N) pre_exec st :
  keeps_original_caller E →
  is_Some (original_caller (session (ctx st))) →
  let r := process_command tx caller_id pre_exec st in
  r.1.1 ≠ Pending
  ∧ ∃ new, trace r.2 = new ++ trace st ∧ count_phase Forwarding new = 0%nat.
Proof. apply process_command_forwarded. Qed.

(** *** The frontend's own fields *)

Lemma config_kept_refl (f : Frontend E) : config_kept f f.
Proof. repeat split. Qed.

Lemma config_kept_trans (f g h : Frontend E) :
  config_kept f g → config_kept g h → config_kept f h.
Proof.
  intros (a1 & a2 & a3 & a4 & a5 & a6) (b1 & b2 & b3 & b4 & b5 & b6).
  repeat split; congruence.
Qed.

Lemma signature_gate_config ep (sr : option SignedReq) (c : N) (prim : bool) st :
  config_kept (fe st) (fe (exit_state (signature_gate ep sr c prim st)))
  ∧ tx_count (fe (exit_state (signature_gate ep sr c prim st)))
    = tx_count (fe st).
Proof.
  unfold signature_gate, verify_client_signature, respond, update_metrics_of.
  repeat case_match; simplify_eq; simpl; repeat split.
Qed.

Lemma process_command_frontend tx (caller_id : N) pre_exec st :
  let r := process_command tx caller_id pre_exec st in
  config_kept (fe st) (fe r.2)
  ∧ tx_count (fe r.2)
    = if reaches_executor tx caller_id st then size_t_incr (tx_count (fe st))
      else tx_count (fe st).
Proof.
  intros r. subst r. unfold reaches_executor, process_command, auth_pipeline.
  pose proof (early_gates_keeps_fe tx caller_id st) as H1.
  destruct (early_gates tx caller_id st)
    as [[o st1]|[[[[ep sr] c] prim] st1]]; simpl in H1.
  { simpl. rewrite H1. split; [apply config_kept_refl | done]. }
  rewrite <- H1.
  destruct (signature_gate_config ep sr c prim st1) as [H2 H2'].
  destruct (signature_gate ep sr c prim st1) as [[o st2]|[rec st2]];
    simpl in H2, H2'; [done|].
  pose proof (jwt_gate_keeps_fe ep tx st2) as H3.
  destruct (jwt_gate ep tx st2) as [[o st3]|[j st3]]; simpl in H3.
  { simpl. rewrite H3. done. }
  rewrite <- H3 in H2, H2'.
  set (p := {| p_endpoint := ep; p_caller_id := c; p_is_primary := prim;
               p_signed_request := sr; p_should_record := rec |}).
  destruct (dispatch_decision p (update_history st3)).
  - unfold executor. rewrite attempt_loop_keeps_fe. simpl. rewrite H2'.
    split; [|done]. apply (config_kept_trans _ _ _ H2). repeat split.
  - pose proof (forward_or_redirect_json_keeps_fe ep c
                  (with_ctx (set_is_forwarding true) (update_history st3))) as H4.
    simpl p_endpoint. simpl p_caller_id.
    destruct (forward_or_redirect_json ep c
                (with_ctx (set_is_forwarding true) (update_history st3))).
    simpl in H4 |- *. rewrite H4. simpl. rewrite H2'.
    split; [|done]. apply (config_kept_trans _ _ _ H2). repeat split.
Qed.

Lemma size_t_incr_bound (n : N) : (size_t_incr n < 2 ^ 64)%N.
Proof. unfold size_t_incr. apply N.mod_upper_bound. done. Qed.

Lemma serve_counts (qs : list (Request (E := E))) st :
  (tx_count (fe st) < 2 ^ 64)%N →
  tx_count (fe (serve qs st))
    = ((tx_count (fe st) + N.of_nat (executed qs st)) mod 2 ^ 64)%N.
Proof.
  revert st. induction qs as [|[[[c tx] caller_id] pre_exec] qs IH];
    intros st Hb.
  { simpl. rewrite N.add_0_r, N.mod_small; done. }
  simpl.
  destruct (process_command_frontend tx caller_id pre_exec (with_ctx (λ _, c) st))
    as [_ Hcount]. simpl in Hcount.
  set (st1 := (process_command tx caller_id pre_exec (with_ctx (λ _, c) st)).2)
    in *.
  assert (tx_count (fe st1) < 2 ^ 64)%N as Hb1.
  { rewrite Hcount.
    destruct (reaches_executor tx caller_id (with_ctx (λ _, c) st));
      [apply size_t_incr_bound | done]. }
  rewrite (IH st1 Hb1), Hcount.
  destruct (reaches_executor tx caller_id (with_ctx (λ _, c) st)).
  - unfold size_t_incr. rewrite N.Div0.add_mod_idemp_l. f_equal. lia.
  - f_equal.
Qed.

(** X13.  [process_command] leaves the open flag, the service identity, the
    consensus handle, the forwarder, the signatures table name and the
    storing flag as they were, and moves [tx_count] by exactly one for a
    request that gets to the executor, however many attempts it makes, and
    not at all for a request that is refused, redirected or forwarded. *)
Theorem tx_count_once_per_executed_request tx (caller_id : N) pre_exec st :
  let r := process_command tx caller_id pre_exec st in
  config_kept (fe st) (fe r.2)
  ∧ tx_count (fe r.2)
    = if reaches_executor tx caller_id st then size_t_incr (tx_count (fe st))
      else tx_count (fe st).
Proof. apply process_command_frontend. Qed.

Lemma update_consensus_keeps_ctx st : ctx (update_consensus st) = ctx st.
Proof. unfold update_consensus. case_bool_decide; done. Qed.

Lemma is_open_refuses tx st :
  (is_open tx st).1 = false → is_open tx st = (false, st).
Proof.
  unfold is_open. destruct (is_open_ (fe st)) eqn:Hflag; simpl.
  - rewrite Hflag. done.
  - repeat case_match; simplify_eq; simpl; rewrite ?Hflag; done.
Qed.

(** *** The lifecycle *)

Lemma open_step (identity : option Pem) st :
  ∃ new, trace (open identity st) = new ++ trace st
         ∧ (count_phase Lifecycle new + open_bit st)%nat
           = open_bit (open identity st).
Proof.
  unfold open, open_bit. destruct identity as [i|]; simpl.
  - exists []. done.
  - destruct (is_open_ (fe st)) eqn:Hflag; simpl.
    + exists []. rewrite Hflag. done.
    + eexists [_]. done.
Qed.

Lemma is_open_step tx st :
  (is_open tx st).1 = is_open_ (fe (is_open tx st).2)
  ∧ ctx (is_open tx st).2 = ctx st
  ∧ metrics (is_open tx st).2 = metrics st
  ∧ ∃ new, trace (is_open tx st).2 = new ++ trace st
           ∧ within [Lifecycle] new = true
           ∧ (count_phase Lifecycle new + open_bit st)%nat
             = open_bit (is_open tx st).2.
Proof.
  unfold is_open, open_bit. destruct (is_open_ (fe st)) eqn:Hflag; simpl.
  - rewrite Hflag. repeat split. exists []. done.
  - repeat case_match; simplify_eq; simpl; rewrite ?Hflag; repeat split;
      first [ by (exists []) | by (eexists [_]) ].
Qed.

Lemma update_consensus_step st :
  is_open_ (fe (update_consensus st)) = is_open_ (fe st)
  ∧ metrics (update_consensus st) = metrics st
  ∧ ∃ new, trace (update_consensus st) = new ++ trace st
           ∧ within [Handles] new = true.
Proof.
  unfold update_consensus. case_bool_decide; simpl; repeat split;
    first [ by (exists []) | by (eexists [_]) ].
Qed.

Lemma process_command_step tx (caller_id : N) pre_exec st :
  ∃ new, trace (process_command tx caller_id pre_exec st).2 = new ++ trace st
         ∧ (count_phase Lifecycle new + open_bit st)%nat
           = open_bit (process_command tx caller_id pre_exec st).2.
Proof.
  destruct (process_command_phases tx caller_id pre_exec st)
    as (new & Hnew & Hl & _).
  destruct (process_command_frontend tx caller_id pre_exec st) as [(Ho & _) _].
  exists new. split; [done|]. unfold open_bit. rewrite Hl, Ho. done.
Qed.

Lemma process_step st :
  ∃ new, trace (process st).2 = new ++ trace st
         ∧ (count_phase Lifecycle new + open_bit st)%nat
           = open_bit (process st).2.
Proof.
  unfold process.
  destruct (update_consensus_step st) as (Ho0 & _ & k0 & Hk0 & Hw0).
  pose proof (within_count_0 _ Lifecycle _ Hw0 eq_refl) as Hc0.
  set (st0 := update_consensus st) in *.
  set (tx := create_tx E (world st0)).
  destruct (is_open_step tx st0) as (_ & _ & _ & k1 & Hk1 & _ & Hc1).
  assert (open_bit st0 = open_bit st) as Hb0 by (unfold open_bit; by rewrite Ho0).
  destruct (is_open tx st0) as [opened st1]. simpl in Hk1, Hc1.
  assert (∀ st2 k2, trace st2 = k2 ++ trace st1 →
            (count_phase Lifecycle k2 + open_bit st1)%nat = open_bit st2 →
            ∃ new, trace st2 = new ++ trace st
              ∧ (count_phase Lifecycle new + open_bit st)%nat = open_bit st2)
    as Hrest.
  { intros st2 k2 Hk2 Hc2. exists (k2 ++ k1 ++ k0). split.
    - rewrite Hk2, Hk1, Hk0, <- !app_assoc. done.
    - rewrite !count_phase_app, Hc0. lia. }
  destruct opened; simpl.
  - repeat case_match; simplify_eq; simpl.
    all: try (lazymatch goal with
              | |- ∃ new, _ ∧ _ = open_bit ?s =>
                  first [ eapply (Hrest s [_; _; _; _]); [done|]
                        | eapply (Hrest s [_; _; _]); [done|]
                        | eapply (Hrest s [_; _]); [done|] ]
              end; unfold open_bit, update_history; simpl; done).
    all: match goal with
         | H : process_command ?t ?c ?pre ?s = _ |- _ =>
             destruct (process_command_step t c pre s) as (k2 & Hk2 & Hc2);
             rewrite H in Hk2, Hc2; simpl in Hk2, Hc2
         end.
    all: eapply (Hrest _ (k2 ++ [EvFindEndpoint]));
      [rewrite Hk2, <- app_assoc; done|].
    all: rewrite count_phase_app;
      change (count_phase Lifecycle [EvFindEndpoint]) with 0%nat;
      unfold open_bit in *; simpl in *; lia.
  - lazymatch goal with
    | |- ∃ new, _ ∧ _ = open_bit ?s => apply (Hrest s []); [done|]
    end.
    unfold open_bit. done.
Qed.

Lemma call_step (k : Call (E := E)) st :
  ∃ new, trace (call k st) = new ++ trace st
         ∧ (count_phase Lifecycle new + open_bit st)%nat = open_bit (call k st).
Proof.
  destruct k as [identity|tx|c|c tx caller_id pre_exec]; simpl.
  - apply open_step.
  - destruct (is_open_step tx st) as (_ & _ & _ & new & H1 & _ & H2). eauto.
  - apply (process_step (with_ctx (λ _, c) st)).
  - apply (process_command_step tx caller_id pre_exec (with_ctx (λ _, c) st)).
Qed.

(** X12.  Over any sequence of [open], [is_open], [process] and
    [process_command] calls the endpoint handlers are initialised exactly
    when the frontend opens: the number of [init_handlers] calls is 1 if
    the frontend went from closed to open and 0 otherwise.  In particular
    it is never more than one, an open frontend stays open, and a frontend
    that was open from the start initialises nothing. *)
Theorem handlers_initialised_once (ks : list (Call (E := E))) st :
  ∃ new, trace (calls_ ks st) = new ++ trace st
    ∧ (count_phase Lifecycle new + open_bit st)%nat = open_bit (calls_ ks st)
    ∧ (count_phase Lifecycle new ≤ 1)%nat
    ∧ (is_open_ (fe st) = true →
       is_open_ (fe (calls_ ks st)) = true ∧ count_phase Lifecycle new = 0%nat).
Proof.
  assert (∃ new, trace (calls_ ks st) = new ++ trace st
            ∧ (count_phase Lifecycle new + open_bit st)%nat
              = open_bit (calls_ ks st)) as (new & Hnew & Hc).
  { revert st. induction ks as [|k ks IH]; intros st.
    - exists []. done.
    - unfold calls_. simpl. fold (calls_ ks (call k st)).
      destruct (call_step k st) as (k1 & Hk1 & Hc1).
      destruct (IH (call k st)) as (k2 & Hk2 & Hc2).
      exists (k2 ++ k1). split.
      + rewrite Hk2, Hk1, app_assoc. done.
      + rewrite count_phase_app. lia. }
  exists new. split; [done|]. split; [done|].
  unfold open_bit in *. split.
  - destruct (is_open_ (fe (calls_ ks st))), (is_open_ (fe st)); lia.
  - intros Hopen. rewrite Hopen in Hc.
    destruct (is_open_ (fe (calls_ ks st))); [split; [done|lia] | lia].
Qed.

(** *** Distribution under BFT (lines 663-711) *)

(** X11.  When [process] finds the frontend open and decides to distribute
    the request (BFT consensus, an endpoint that is not local-only or no
    endpoint at all, and the node is primary or the request is pinned to
    the node), the request is never executed or forwarded here and no
    metric moves.  Without a history the answer is 500 [Consensus is not
    yet ready.]; when [add_request] refuses, 500 [Could not process
    request.]; otherwise the result is pending and the transaction carries
    the request id made of the caller id, the client session id and the
    request index. *)
Theorem bft_requests_are_distributed st :
  let st0 := update_consensus st in
  let tx := create_tx E (world st0) in
  let st1 := (is_open tx st0).2 in
  let caller_id :=
    get_caller_id E tx (caller_cert (session (ctx st1))) (world st1) in
  let reqid : RequestID :=
    (caller_id, client_session_id (session (ctx st1)),
     request_index (ctx st1)) in
  let st2 := update_history st1 in
  (is_open tx st0).1 = true →
  should_bft_distribute tx st1 = true →
  metrics (process st).2 = metrics st
  ∧ tx_count (fe (process st).2) = tx_count (fe st1)
  ∧ ∃ new, trace (process st).2 = new ++ trace st1
      ∧ count_phase Execution new = 0%nat
      ∧ count_phase Forwarding new = 0%nat
      ∧ match history (fe st2) with
        | None =>
            (process st).1
              = Responded
                  (serialise_response
                     (set_response_body "Consensus is not yet ready."
                        (set_response_status
                           HTTP_STATUS_INTERNAL_SERVER_ERROR (ctx st))))
            ∧ count_phase Distribution new = 0%nat
        | Some h =>
            let added :=
              (add_request E h reqid caller_id (get_cert_to_forward st2 None)
                 (serialised_request (ctx st)) (frame_format (ctx st))
                 (world st2)).1 in
            if added then
              (process st).1 = Pending
              ∧ ∃ rest, new = EvSetReqId reqid :: EvAddRequest caller_id :: rest
                        ∧ count_phase Distribution rest = 0%nat
            else
              (process st).1
                = Responded
                    (serialise_response
                       (set_response_body "Could not process request."
                          (set_response_status
                             HTTP_STATUS_INTERNAL_SERVER_ERROR (ctx st))))
              ∧ count_phase Distribution new = 1%nat
        end.
Proof.
  intros st0 tx st1 caller_id reqid st2 Hopen Hd.
  destruct (update_consensus_step st) as (_ & Hm0 & _). fold st0 in Hm0.
  assert (ctx st0 = ctx st) as Hctx0
    by (unfold st0, update_consensus; case_bool_decide; done).
  destruct (is_open_step tx st0) as (_ & Hctx1 & Hm1 & _).
  unfold process. fold st0. fold tx.
  subst caller_id reqid st2. revert Hd Hctx1 Hm1. subst st1.
  destruct (is_open tx st0) as [opened st1]. simpl in Hopen. subst opened.
  simpl. intros Hd Hctx1 Hm1.
  unfold should_bft_distribute in Hd.
  unfold get_cert_to_forward, update_history. simpl.
  rewrite <- Hctx0, <- Hctx1, <- Hm0, <- Hm1.
  destruct (consensus (fe st1)) as [cs|]; [|done].
  destruct (find_endpoint E tx (ctx st1) (world st1)) as [ep|]; simpl in Hd |- *;
    rewrite Hd; simpl.
  all: destruct (get_history E (world st1)) as [h|]; simpl.
  all: repeat match goal with
       | |- context [add_request ?a ?b ?c ?d ?e ?f ?g ?h] =>
           destruct (add_request a b c d e f g h) as [[] w] eqn:Hadd; simpl
       end.
  all: split; [done|]; split; [done|].
  all: first [ by (eexists [_; _; _; _]; repeat split; eauto)
             | by (eexists [_; _; _]; repeat split; eauto)
             | by (eexists [_; _]; repeat split; eauto) ].
Qed.

(** *** Retries *)

(** X14.  Iterations that end in a conflict are invisible in the answer:
    when the next [k] iterations all conflict, the loop with [k + n]
    iterations left answers what the loop with [n] left answers from the
    transaction and state the conflicts leave behind.  Those [k]
    iterations started [k] attempts and changed neither the metrics nor the
    frontend's fields. *)
Theorem conflicts_are_retried (k n : nat) p pre_exec tx st :
  conflicts_throughout k p pre_exec tx st = true →
  let a := after_conflicts k p pre_exec tx st in
  attempt_loop (k + n) p pre_exec tx st = attempt_loop n p pre_exec a.1 a.2
  ∧ metrics a.2 = metrics st
  ∧ fe a.2 = fe st
  ∧ ∃ new, trace a.2 = new ++ trace st
           ∧ count_attempts new = k
           ∧ within [Execution] new = true.
Proof.
  revert tx st. induction k as [|k IH]; intros tx st Hall.
  - simpl. repeat split. exists []. done.
  - simpl in Hall.
    pose proof (attempt_metrics p pre_exec tx st) as Hm.
    pose proof (attempt_keeps_fe p pre_exec tx st) as Hf.
    destruct (attempt_trace p pre_exec tx st) as (k1 & Hk1 & Hc1 & _).
    destruct (attempt_phase p pre_exec tx st) as (k1' & Hk1' & Hw1).
    assert (k1' = k1) as ->.
    { apply (app_inv_tail (trace st)). rewrite <- Hk1, <- Hk1'. done. }
    change (S k + n)%nat with (S (k + n)). cbn [attempt_loop after_conflicts].
    assert (∃ tx1 st1, attempt p pre_exec tx st = Retry tx1 st1
              ∧ conflicts_throughout k p pre_exec tx1 st1 = true)
      as (tx1 & st1 & Ha & Hall1).
    { unfold attempt.
      destruct (try_block p pre_exec tx (log EvAttempt st))
        as [[]| |]; try done; eauto. }
    rewrite Ha in Hm, Hf, Hk1, Hk1' |- *. simpl in Hm, Hf, Hk1.
    destruct (IH tx1 st1 Hall1) as (Hloop & Hm' & Hf' & k2 & Hk2 & Hc2 & Hw2).
    split; [done|]. split; [congruence|]. split; [congruence|].
    exists (k2 ++ k1). split; [rewrite Hk2, Hk1, app_assoc; done|].
    split; [rewrite count_attempts_app; lia|].
    rewrite within_app, Hw1, Hw2. done.
Qed.

(** *** What is forwarded *)

Lemma within_elem_of (phs : list Phase) (l : list Event) (e : Event) :
  within phs l = true → e ∈ l → phase e ∈ phs.
Proof.
  intros Hw He. induction l as [|x l IH]; [by apply elem_of_nil in He|].
  simpl in Hw. apply andb_prop in Hw as [Hx Hl].
  apply elem_of_cons in He as [->|He]; [by apply bool_decide_eq_true in Hx|].
  by apply IH.
Qed.

Lemma within_without (phs : list Phase) (l : list Event) (e : Event) :
  within phs l = true → bool_decide (phase e ∈ phs) = false → e ∈ l → False.
Proof.
  intros Hw Hph He. apply bool_decide_eq_false in Hph.
  by apply Hph, (within_elem_of _ l).
Qed.

Lemma forward_or_redirect_json_event ep (c : N) st :
  ∃ new, trace (forward_or_redirect_json ep c st).2 = new ++ trace st
    ∧ ∀ e, e ∈ new →
        forwardable st = true
        ∧ ∃ cs, consensus (fe st) = Some cs
            ∧ consensus_primary E cs (world st) ≠ NoNode E
            ∧ e = EvForwardCommand (consensus_primary E cs (world st)) c
                    (get_cert_to_forward st (Some ep)).
Proof.
  unfold forward_or_redirect_json, could_not_forward, respond, update_metrics_of,
    forwardable.
  repeat case_match; simplify_eq; simpl.
  all: first [ by (exists []; split; [done|]; intros e He;
                   apply elem_of_nil in He)
             | eexists [_]; split; [done|]; intros e He;
               apply list_elem_of_singleton in He; subst e ].
  all: split; [done|]; eexists; split; [done|]; split; [|done].
  all: by match goal with
          | H : bool_decide _ = true |- _ => apply bool_decide_eq_true in H
          end.
Qed.

(** X15.  Whatever [process_command] hands to the forwarder, it does so for
    a request that passed the gates, on a frontend with a forwarder, for a
    context that was not itself forwarded, and to the primary the consensus
    names, which is not [NoNode].  The caller id sent is the one the gates
    settled on, and the certificate sent is the session's when the
    registry holds no certificates or the endpoint does not require a
    client identity, and empty otherwise. *)
Theorem forwarded_only_when_fresh tx (caller_id : N) pre_exec st :
  let r := process_command tx caller_id pre_exec st in
  ∃ new, trace r.2 = new ++ trace st
    ∧ ∀ (primary cid : N) (cert : list Byte.byte),
        EvForwardCommand primary cid cert ∈ new →
        ∃ p st1 cs,
          auth_pipeline tx caller_id st = inr (p, st1)
          ∧ cmd_forwarder (fe st1) = true
          ∧ original_caller (session (ctx st1)) = None
          ∧ consensus (fe st1) = Some cs
          ∧ primary = consensus_primary E cs (world st1)
          ∧ primary ≠ NoNode E
          ∧ cid = p_caller_id p
          ∧ cert = (if has_certs E (world st1) &&
                       require_client_identity (properties (p_endpoint p))
                    then [] else caller_cert (session (ctx st1))).
Proof.
  intros r. subst r. unfold process_command.
  destruct (auth_pipeline_phase tx caller_id st) as (g & Hg & Hwg).
  assert (∀ a b c, EvForwardCommand a b c ∈ g → False) as Hnog.
  { intros a b c Hin. by apply (within_without _ _ (EvForwardCommand a b c) Hwg eq_refl Hin). }
  destruct (auth_pipeline tx caller_id st) as [[o st1]|[p st1]] eqn:Hauth;
    simpl in Hg.
  - exists g. split; [done|]. intros primary cid cert Hin.
    exfalso. by apply (Hnog _ _ _ Hin).
  - destruct (dispatch_decision p st1).
    + unfold executor.
      set (st2 := with_fe _ st1).
      destruct (attempt_loop_phase max_attempts p pre_exec tx st2)
        as (k & Hk & Hwk).
      exists (k ++ g). split.
      { rewrite Hk. subst st2. simpl. rewrite Hg, app_assoc. done. }
      intros primary cid cert Hin. exfalso.
      apply elem_of_app in Hin as [Hin|Hin].
      * by apply (within_without _ _ (EvForwardCommand primary cid cert) Hwk eq_refl Hin).
      * by apply (Hnog _ _ _ Hin).
    + destruct (forward_or_redirect_json_event (p_endpoint p) (p_caller_id p)
                  (with_ctx (set_is_forwarding true) st1)) as (k & Hk & Hev).
      unfold forwardable, get_cert_to_forward in Hev.
      destruct (forward_or_redirect_json (p_endpoint p) (p_caller_id p)
                  (with_ctx (set_is_forwarding true) st1)) as [o st2].
      simpl in Hk, Hev |- *.
      exists (k ++ g). split; [simpl; rewrite Hk, Hg, app_assoc; done|].
      intros primary cid cert Hin.
      apply elem_of_app in Hin as [Hin|Hin];
        [|exfalso; by apply (Hnog _ _ _ Hin)].
      destruct (Hev _ Hin) as (Hfw & cs & Hcs & Hprim & Heq).
      simplify_eq. exists p, st1, cs.
      apply andb_prop in Hfw as [Hf Ho].
      apply negb_true_iff, bool_decide_eq_false in Ho.
      split; [done|]. split; [done|].
      split; [destruct (original_caller (session (ctx st1))); [|done];
              exfalso; apply Ho; eauto|].
      split; [done|]. split; [done|]. split; [done|]. split; [done|].
      destruct (has_certs E (world st1)),
        (require_client_identity (properties (p_endpoint p))); done.
Qed.

End Further.

Section FurtherFacade.
Context {E : Env} (X : Ext E).

Implicit Types (st : St E) (tx : Tx E).

(** X9.  [process_forwarded] refuses a context without an original caller
    with a logic error and touches nothing.  Under CFT consensus it runs
    [process_command] for the original caller's id, on a fresh transaction
    and without consulting the lifecycle gate, and hands back its response;
    when [lookup_forwarded_caller_cert] leaves [original_caller] in place
    the logic error "Forwarded RPC cannot be forwarded" is never thrown. *)
Theorem process_forwarded_cft st :
  (original_caller (session (ctx st)) = None →
   process_forwarded X st
     = (Threw
          "Processing forwarded command with unitialised forwarded context",
        st))
  ∧ ∀ (caller_id cs : N),
      keeps_original_caller E →
      original_caller (session (ctx st)) = Some caller_id →
      consensus (fe (update_consensus st)) = Some cs →
      consensus_type E cs (world (update_consensus st)) = CFT →
      let st0 := update_consensus st in
      let r := process_command (create_tx E (world st0)) caller_id None st0 in
      (process_forwarded X st).2 = r.2
      ∧ (process_forwarded X st).1 ≠ Threw "Forwarded RPC cannot be forwarded"
      ∧ match r.1.1 with
        | Responded resp => (process_forwarded X st).1 = Replied resp
        | Aborted => (process_forwarded X st).1 = ProcessAborted
        | Uncaught what => (process_forwarded X st).1 = Threw what
        | Pending => False
        end.
Proof.
  split.
  - intros Hnone. unfold process_forwarded. rewrite Hnone. done.
  - intros caller_id cs Hkeep Hsome Hcons Hcft st0 r.
    assert (r.1.1 ≠ Pending) as Hnp.
    { apply process_command_forwarded; [done|].
      subst st0. rewrite update_consensus_keeps_ctx, Hsome. eauto. }
    pose proof (process_command_outcome (create_tx E (world st0)) caller_id
                  None st0) as Ho.
    fold r in Ho. simpl in Ho.
    unfold process_forwarded. rewrite Hsome. fold st0.
    subst st0. rewrite Hcons, Hcft. rewrite bool_decide_eq_true_2 by done.
    fold r. destruct r as [[o tx'] st']. simpl in *.
    destruct Ho as [->|[->|[->| ->]]]; simpl; done.
Qed.

(** X10.  [process_bft] throws the logic error [Transaction failed] when
    the lifecycle gate finds the frontend closed, and then leaves the state
    as it was.  When the frontend is open and the context carries an
    original caller, it runs [process_command] for that caller's id with
    the pre-exec hook that records the request, and replies with the
    response and the version of the transaction after the run; when
    [lookup_forwarded_caller_cert] leaves [original_caller] in place the
    run is never pending, so taking the value of the reply never fails. *)
Theorem process_bft_replies st :
  let tx := create_tx E (world st) in
  ((is_open tx st).1 = false →
   process_bft X st = (Threw "Transaction failed", st))
  ∧ ∀ caller_id : N,
      keeps_original_caller E →
      (is_open tx st).1 = true →
      original_caller (session (ctx st)) = Some caller_id →
      let st1 := update_consensus (is_open tx st).2 in
      let r := process_command tx caller_id (Some (bft_pre_exec X)) st1 in
      (process_bft X st).2 = r.2
      ∧ match r.1.1 with
        | Responded resp =>
            (process_bft X st).1 = Replied (resp, get_version X r.1.2)
        | Aborted => (process_bft X st).1 = ProcessAborted
        | Uncaught what => (process_bft X st).1 = Threw what
        | Pending => False
        end.
Proof.
  intros tx. split.
  - intros Hclosed. unfold process_bft. fold tx.
    rewrite (is_open_refuses _ _ Hclosed). done.
  - intros caller_id Hkeep Hopen Hsome.
    destruct (is_open_step tx st) as (_ & Hctx & _).
    unfold process_bft. fold tx.
    destruct (is_open tx st) as [opened st0]. simpl in Hopen, Hctx.
    subst opened. cbv zeta. simpl negb. cbv iota. simpl snd.
    set (st1 := update_consensus st0).
    assert (original_caller (session (ctx st1)) = Some caller_id) as Hsome1.
    { subst st1. rewrite update_consensus_keeps_ctx, Hctx. done. }
    rewrite Hsome1.
    set (r := process_command tx caller_id (Some (bft_pre_exec X)) st1).
    assert (r.1.1 ≠ Pending) as Hnp.
    { apply process_command_forwarded; [done|]. rewrite Hsome1. eauto. }
    pose proof (process_command_outcome tx caller_id
                  (Some (bft_pre_exec X)) st1) as Ho.
    fold r in Ho. cbv zeta in Ho.
    destruct r as [[o tx'] st']. simpl in *.
    destruct Ho as [->|[->|[->| ->]]]; simpl; done.
Qed.

(** X16.  [tick] hands the registry the statistics of the consensus (the
    default ones without a consensus) with [tx_count] set to the counter,
    and resets the counter to 0; after any requests served since, the
    counter is the number of those that got to the executor, modulo 2^64:
    this is what the next [tick] reports. *)
Theorem tick_counts_executed_requests (elapsed : Z) st
    (qs : list (Request (E := E))) :
  let st0 := tick X elapsed st in
  tx_count (fe st0) = 0%N
  ∧ world st0
    = endpoints_tick X elapsed (tick_statistics X (update_consensus st))
        (world (update_consensus st))
  ∧ tx_count (fe (serve qs st0)) = (N.of_nat (executed qs st0) mod 2 ^ 64)%N
  ∧ ∃ stats,
      tick_statistics X (update_consensus (serve qs st0))
        = set_statistics_tx_count X (N.of_nat (executed qs st0) mod 2 ^ 64)%N
            stats.
Proof.
  intros st0.
  assert (tx_count (fe st0) = 0%N) as H0 by done.
  assert (tx_count (fe (serve qs st0))
          = (N.of_nat (executed qs st0) mod 2 ^ 64)%N) as Hn.
  { rewrite serve_counts by (rewrite H0; done). rewrite H0. done. }
  split; [done|]. split; [done|]. split; [done|].
  unfold tick_statistics.
  assert (tx_count (fe (update_consensus (serve qs st0)))
          = tx_count (fe (serve qs st0))) as ->.
  { unfold update_consensus. case_bool_decide; done. }
  rewrite Hn. eauto.
Qed.

End FurtherFacade.

(** ** Runs of the further properties *)

Section FurtherWitnesses.
Import Deployment.

Lemma unknown_endpoint_witness :
  let r := process_command (E := site_env no_such_path) Scenario.tx0 1%N None
             (site_state no_such_path true false None Scenario.plain_request) in
  ∃ resp, r.1.1 = Responded resp ∧ status resp = 405
          ∧ headers resp !! ALLOW = Some "GET, POST"
          ∧ body resp = "Allowed methods for '/log' are: GET, POST".
Proof.
  destruct (unknown_endpoint (E := site_env no_such_path) Scenario.tx0 1%N None
              (site_state no_such_path true false None Scenario.plain_request))
    as ((resp & H1 & _ & H2) & _); [reflexivity|].
  destruct H2 as (Hs & Hh & Hb); [simpl; discriminate|].
  exists resp. split; [exact H1|]. split; [exact Hs|]. split; [exact Hh | exact Hb].
Defined.

Lemma invalid_caller_refused_witness :
  let r := process_command (E := site_env members_only) Scenario.tx0
             18446744073709551615%N None
             (site_state members_only true false None Scenario.plain_request) in
  (∃ resp, r.1.1 = Responded resp ∧ status resp = 403
           ∧ body resp = "Could not find matching actor certificate")
  ∧ metrics r.2 !! ("/log", "POST")
    = Some {| calls := 1; errors := 1; failures := 0 |}.
Proof.
  destruct (invalid_caller_refused (E := site_env members_only) Scenario.tx0
              18446744073709551615%N None
              (site_state members_only true false None Scenario.plain_request)
              (guarded_endpoint true false false Never))
    as (H1 & _ & _);
    [reflexivity | reflexivity | reflexivity | reflexivity |].
  split; [exact H1 | vm_compute; reflexivity].
Defined.

Lemma unsigned_request_refused_witness :
  let r := process_command (E := site_env members_signed_only) Scenario.tx0
             1%N None
             (site_state members_signed_only true false None
                Scenario.plain_request) in
  (∃ resp, r.1.1 = Responded resp ∧ status resp = 401
           ∧ headers resp !! WWW_AUTHENTICATE
               = Some ("Signature realm=" +:+ dquote +:+
                       "Signed request access" +:+ dquote +:+
                       ", headers=" +:+ dquote +:+
                       "(request-target) digest" +:+ dquote)
           ∧ body resp = "'/log' RPC must be signed")
  ∧ trace r.2 = [EvIdentityCheck 1%N; EvFindEndpoint].
Proof.
  destruct (unsigned_request_refused (E := site_env members_signed_only)
              Scenario.tx0 1%N None
              (site_state members_signed_only true false None
                 Scenario.plain_request)
              (guarded_endpoint true true false Never))
    as (H1 & _ & H3);
    [reflexivity | reflexivity | reflexivity | reflexivity |].
  split; [exact H1 | exact H3].
Defined.

Lemma jwt_gate_sound_witness :
  jwt_gate (E := site_env with_jwt) (guarded_endpoint false false true Never)
    Scenario.tx0 (site_state with_jwt true false None Scenario.plain_request)
  = inr (Some {| key_issuer := "issuer"; header := "h"; payload := "p" |},
         site_state with_jwt true false None Scenario.plain_request).
Proof.
  destruct (jwt_gate_sound (E := site_env with_jwt)
              (guarded_endpoint false false true Never) Scenario.tx0
              (site_state with_jwt true false None Scenario.plain_request))
    as (H & _); [reflexivity|].
  apply H. exists a_token, [Byte.x07], "issuer". repeat split.
Defined.

Lemma forwarded_never_pending_witness :
  let r := process_command (E := site_env cft_forwarding) Scenario.tx0 5%N None
             (site_state cft_forwarding true true None
                Scenario.forwarded_request) in
  (∃ resp, r.1.1 = Responded resp ∧ status resp = 307)
  ∧ r.1.1 ≠ Pending.
Proof.
  destruct (forwarded_never_pending (E := site_env cft_forwarding)
              Scenario.tx0 5%N None
              (site_state cft_forwarding true true None
                 Scenario.forwarded_request))
    as (H & _); [intros c tx w; reflexivity | simpl; eauto |].
  split; [eexists; split; vm_compute; reflexivity | exact H].
Defined.

Lemma process_forwarded_cft_witness :
  let st := site_state cft_forwarding true true None
              Scenario.forwarded_request in
  (∃ resp, (process_forwarded (site_ext cft_forwarding) st).1 = Replied resp)
  ∧ (process_forwarded (site_ext cft_forwarding) st).1
    ≠ Threw "Forwarded RPC cannot be forwarded".
Proof.
  intros st.
  destruct (process_forwarded_cft (site_ext cft_forwarding) st) as [_ H].
  destruct (H 5%N 1%N) as (_ & H2 & _);
    [intros c tx w; reflexivity | reflexivity | reflexivity | reflexivity |].
  split; [eexists; vm_compute; reflexivity | exact H2].
Defined.

Lemma process_bft_replies_witness :
  let st := site_state bft_primary true false None
              Scenario.forwarded_request in
  ∃ resp, (process_bft (site_ext bft_primary) st).1 = Replied (resp, 42)
          ∧ status resp = 200.
Proof.
  intros st.
  destruct (process_bft_replies (site_ext bft_primary) st) as [_ H].
  destruct (H 5%N) as (_ & H2);
    [intros c tx w; reflexivity | reflexivity | reflexivity |].
  vm_compute in H2.
  eexists. split; [exact H2 | reflexivity].
Defined.

Lemma bft_requests_are_distributed_witness :
  let st := site_state bft_primary true false None Scenario.plain_request in
  (process (E := site_env bft_primary) st).1 = Pending
  ∧ metrics (process (E := site_env bft_primary) st).2 = ∅
  ∧ trace (process (E := site_env bft_primary) st).2
    = [EvSetReqId (1%N, 0%N, 0%N); EvAddRequest 1%N; EvSetHistory (Some 9%N);
       EvFindEndpoint].
Proof.
  intros st.
  destruct (bft_requests_are_distributed (E := site_env bft_primary) st)
    as (Hm & _ & new & Hnew & _ & _ & Hp & _); [reflexivity | reflexivity |].
  split; [exact Hp|]. split; [exact Hm | vm_compute; reflexivity].
Defined.

Lemma handlers_initialised_once_witness :
  let st := site_state opening false false (Some the_identity)
              Scenario.plain_request in
  let ks : list (Call (E := site_env opening)) :=
    [CallIsOpen (E := site_env opening) Scenario.tx0;
     CallProcess Scenario.plain_request; CallOpen None;
     CallIsOpen (E := site_env opening) Scenario.tx0] in
  ∃ new, trace (calls_ ks st) = new ++ []
         ∧ (count_phase Lifecycle new + 0)%nat = 1%nat.
Proof.
  intros st ks.
  destruct (handlers_initialised_once (E := site_env opening) ks st)
    as (new & H1 & H2 & _).
  exists new. split; [exact H1 | exact H2].
Defined.

Lemma conflicts_are_retried_witness :
  let p := Scenario.unsigned_pass Never true in
  let st := site_state two_conflicts true false None Scenario.plain_request in
  let a := after_conflicts (E := site_env two_conflicts) 2 p None
             Scenario.tx0 st in
  attempt_loop (E := site_env two_conflicts) 30 p None Scenario.tx0 st
    = attempt_loop 28 p None a.1 a.2
  ∧ (∃ resp,
       (attempt_loop (E := site_env two_conflicts) 30 p None Scenario.tx0 st).1.1
         = Responded resp
             ∧ status resp = 200)
  ∧ world a.2 = 2%nat.
Proof.
  intros p st a.
  destruct (conflicts_are_retried (E := site_env two_conflicts) 2 28 p None
              Scenario.tx0 st) as (H & _); [vm_compute; reflexivity|].
  split; [exact H|]. split; [|reflexivity].
  eexists. split; vm_compute; reflexivity.
Defined.

Lemma forwarded_only_when_fresh_witness :
  let st := site_state cft_forwarding true true None Scenario.plain_request in
  let r := process_command (E := site_env cft_forwarding) Scenario.tx0 1%N
             None st in
  trace r.2
    = [EvForwardCommand 2%N 1%N [Byte.x0a]; EvSetHistory None; EvFindEndpoint]
  ∧ ∃ p st1,
      auth_pipeline (E := site_env cft_forwarding) Scenario.tx0 1%N st
        = inr (p, st1)
      ∧ original_caller (session (ctx st1)) = None.
Proof.
  intros st r.
  assert (trace r.2
          = [EvForwardCommand 2%N 1%N [Byte.x0a]; EvSetHistory None;
             EvFindEndpoint]) as Ht by (vm_compute; reflexivity).
  split; [exact Ht|].
  destruct (forwarded_only_when_fresh (E := site_env cft_forwarding)
              Scenario.tx0 1%N None st) as (new & Hnew & H).
  fold r in Hnew. rewrite Ht in Hnew. simpl in Hnew. rewrite app_nil_r in Hnew.
  destruct (H 2%N 1%N [Byte.x0a]) as (p & st1 & cs & H1 & _ & H3 & _).
  { rewrite <- Hnew. apply elem_of_cons. left. reflexivity. }
  exists p, st1. split; [exact H1 | exact H3].
Defined.

Lemma tick_counts_executed_requests_witness :
  let st := site_state two_conflicts true false None Scenario.plain_request in
  let q : Request (E := site_env two_conflicts) :=
    (Scenario.plain_request, Scenario.tx0, 1%N, None) in
  tx_count (fe (serve [q; q; q] (tick (site_ext two_conflicts) 10 st))) = 3%N.
Proof.
  intros st q.
  destruct (tick_counts_executed_requests (site_ext two_conflicts) 10 st
              [q; q; q]) as (_ & _ & H & _).
  exact H.
Defined.

End FurtherWitnesses.
